(** * Publish hooks, loader hook and namespace manager: a shallow embedding

    The repository holds four Python 2 modules that run inside Maya and talk
    to Shotgun: [publish_camera.py], [publish_mesh.py], [tk-maya-loader2.py]
    and [namespace_manager.py].  Their own logic is string processing, a few
    comparisons and the order in which host commands are issued.  The host
    (Maya's [cmds]/[mel], Shotgun, Qt, [os]) is not part of the repository: it
    is a black box whose answers may depend on everything done so far. *)

From Stdlib Require Import String Ascii ZArith List Bool Lia.
From Stdlib Require Import Floats.SpecFloat DecimalString.
From stdpp Require Import base option list gmap strings.

Local Open Scope string_scope.
Local Open Scope Z_scope.

(** ** Python strings *)

Module PyStr.

(** ['0' <= c <= '9'], what [\d] matches on a Python 2 byte string. *)
Definition is_digit (c : ascii) : bool :=
  (48 <=? nat_of_ascii c)%nat && (nat_of_ascii c <=? 57)%nat.

(** [s.startswith(p)] *)
Fixpoint startswith (p s : string) : bool :=
  match p, s with
  | EmptyString, _ => true
  | String a p', String b s' => Ascii.eqb a b && startswith p' s'
  | String _ _, EmptyString => false
  end.

(** [s.endswith(suf)]: some suffix of [s] is [suf]. *)
Fixpoint endswith (suf s : string) : bool :=
  String.eqb s suf ||
  match s with
  | EmptyString => false
  | String _ s' => endswith suf s'
  end.

(** [sub in s] *)
Fixpoint contains (sub s : string) : bool :=
  startswith sub s ||
  match s with
  | EmptyString => false
  | String _ s' => contains sub s'
  end.

(** Number of positions of [s] at which [sub] starts. *)
Fixpoint occurrences (sub s : string) : nat :=
  ((if startswith sub s then 1 else 0) +
   match s with
   | EmptyString => 0
   | String _ s' => occurrences sub s'
   end)%nat.

(** [s.split(sep)] for a non-empty [sep], scanning from the left; [skip]
    counts the characters of a separator still to be passed over and [cur]
    is the piece being collected. *)
Fixpoint split_go (sep s : string) (skip : nat) (cur : string) : list string :=
  match s with
  | EmptyString => [cur]
  | String c s' =>
      match skip with
      | S k => split_go sep s' k cur
      | O =>
          if startswith sep s
          then cur :: split_go sep s' (String.length sep - 1) ""
          else split_go sep s' 0 (cur ++ String c "")
      end
  end.

(** [s.split(sep)]; Python raises [ValueError] on an empty separator, which
    is [None] here. *)
Definition split (sep s : string) : option (list string) :=
  match sep with
  | EmptyString => None
  | String _ _ => Some (split_go sep s 0 "")
  end.

(** [s.split(sep)[0]] and [s.split(sep)[-1]]; a split is never empty. *)
Definition split_first (sep s : string) : option string :=
  l ← split sep s; head l.

Definition split_last (sep s : string) : option string :=
  l ← split sep s; last l.

(** [s.replace(old, new)] for a one-character [old]. *)
Fixpoint replace_char (old : ascii) (new : string) (s : string) : string :=
  match s with
  | EmptyString => EmptyString
  | String c s' =>
      (if Ascii.eqb c old then new else String c "") ++ replace_char old new s'
  end.

(** [new.join(l)] *)
Fixpoint join (new : string) (l : list string) : string :=
  match l with
  | [] => ""
  | [x] => x
  | x :: l' => x ++ new ++ join new l'
  end.

(** [s.replace(old, new)]; an empty [old] matches before every character
    and at the end. *)
Fixpoint interleave (new s : string) : string :=
  match s with
  | EmptyString => new
  | String c s' => new ++ String c (interleave new s')
  end.

Definition replace (old new s : string) : string :=
  match old with
  | EmptyString => interleave new s
  | String _ _ => join new (split_go old s 0 "")
  end.

(** [re.sub(r'[\W_]+', '', s)]: only letters and digits stay. *)
Definition is_alnum (c : ascii) : bool :=
  let n := nat_of_ascii c in
  ((48 <=? n) && (n <=? 57) || (65 <=? n) && (n <=? 90) ||
   (97 <=? n) && (n <=? 122))%nat.

Fixpoint alnum_only (s : string) : string :=
  match s with
  | EmptyString => EmptyString
  | String c s' => if is_alnum c then String c (alnum_only s') else alnum_only s'
  end.

(** [s[1:]] *)
Definition tail (s : string) : string :=
  match s with
  | EmptyString => EmptyString
  | String _ s' => s'
  end.

(** The longest run of digits at the head of [s]. *)
Fixpoint take_digits (s : string) : string :=
  match s with
  | EmptyString => EmptyString
  | String c s' => if is_digit c then String c (take_digits s') else EmptyString
  end.

(** [s.isdigit()] on a byte string: non-empty and all digits. *)
Fixpoint all_digits (s : string) : bool :=
  match s with
  | EmptyString => true
  | String c s' => is_digit c && all_digits s'
  end.

Definition isdigit (s : string) : bool :=
  match s with
  | EmptyString => false
  | String _ _ => all_digits s
  end.

(** [int(s)] for a string of digits (Python integers are unbounded). *)
Definition digit_val (c : ascii) : Z := Z.of_nat (nat_of_ascii c) - 48.

Fixpoint int_of_digits_from (acc : Z) (s : string) : Z :=
  match s with
  | EmptyString => acc
  | String c s' => int_of_digits_from (10 * acc + digit_val c) s'
  end.

Definition int_of_digits (s : string) : Z := int_of_digits_from 0 s.

End PyStr.

(** ** The three fixed regular expressions

    [re.search] returns the leftmost match; each matcher below first tries
    the pattern at the head of the string ([match_*]) and then moves one
    character to the right ([search_*]).  The result is [group(0)]. *)

Module Re.
Import PyStr.

(** [_v\d{3}] at the head of [s]. *)
Definition match_v3 (s : string) : option string :=
  match s with
  | String c1 (String c2 (String d1 (String d2 (String d3 _)))) =>
      if Ascii.eqb c1 "_" && Ascii.eqb c2 "v" &&
         is_digit d1 && is_digit d2 && is_digit d3
      then Some (String c1 (String c2 (String d1 (String d2 (String d3 "")))))
      else None
  | _ => None
  end.

Fixpoint search_v3 (s : string) : option string :=
  match match_v3 s with
  | Some m => Some m
  | None =>
      match s with
      | EmptyString => None
      | String _ s' => search_v3 s'
      end
  end.

(** [_v\d+] at the head of [s]; [+] is greedy. *)
Definition match_vplus (s : string) : option string :=
  match s with
  | String c1 (String c2 (String d1 rest)) =>
      if Ascii.eqb c1 "_" && Ascii.eqb c2 "v" && is_digit d1
      then Some (String c1 (String c2 (String d1 (take_digits rest))))
      else None
  | _ => None
  end.

Fixpoint search_vplus (s : string) : option string :=
  match match_vplus s with
  | Some m => Some m
  | None =>
      match s with
      | EmptyString => None
      | String _ s' => search_vplus s'
      end
  end.

(** [\d+] *)
Fixpoint search_digits (s : string) : option string :=
  match s with
  | EmptyString => None
  | String c s' => if is_digit c then Some (take_digits s) else search_digits s'
  end.

(** [(%0\dd)] *)
Definition match_frame_spec (s : string) : option string :=
  match s with
  | String c1 (String c2 (String d (String c3 _))) =>
      if Ascii.eqb c1 "%" && Ascii.eqb c2 "0" && is_digit d && Ascii.eqb c3 "d"
      then Some (String c1 (String c2 (String d (String c3 ""))))
      else None
  | _ => None
  end.

Fixpoint search_frame_spec (s : string) : option string :=
  match match_frame_spec s with
  | Some m => Some m
  | None =>
      match s with
      | EmptyString => None
      | String _ s' => search_frame_spec s'
      end
  end.

End Re.

(** ** Exceptions, values and the command monad *)

(** The Python exceptions the modelled code can meet.  [HostError] stands for
    whatever a host call raises on its own. *)
Inductive exn :=
| Exception (msg : string)
| TypeError
| AttributeError
| IndexError
| ValueError
| OverflowError
| KeyError
| HostError (what : string).

(** [str(e)], as the plugins print it after a failed export: the message of
    the exception. *)
Definition exn_text (e : exn) : string :=
  match e with
  | Exception msg | HostError msg => msg
  | _ => ""
  end.

Inductive result (A : Type) :=
| Ok (a : A)
| Raise (e : exn).
Arguments Ok {A} a.
Arguments Raise {A} e.

#[global] Instance result_ret : MRet result := fun A a => Ok a.
#[global] Instance result_bind : MBind result := fun A B f r =>
  match r with
  | Ok a => f a
  | Raise e => Raise e
  end.

(** A Python float is an IEEE 754 binary64 number. *)
Abbreviation float := spec_float.

Definition float_eq (x y : float) : bool := SFeqb x y.

(** [float(z)] for a Python int [z]: rounding to nearest even. *)
Definition float_of_int (z : Z) : float := binary_normalize 53 1024 z 0 false.

Definition float_mul (x y : float) : float := SFmul 53 1024 x y.

(** [int(x)] for a float: truncation towards zero; [nan] and the infinities
    raise. *)
Definition int_of_float (x : float) : result Z :=
  match x with
  | S754_zero _ => Ok 0
  | S754_nan => Raise ValueError
  | S754_infinity _ => Raise OverflowError
  | S754_finite s m e =>
      let magnitude :=
        match e with
        | Z0 => Zpos m
        | Zpos p => Zpos m * 2 ^ Zpos p
        | Zneg p => Zpos m / 2 ^ Zpos p
        end in
      Ok (if s then - magnitude else magnitude)
  end.

(** The Python values that flow through host calls.  [VFloatType] is the type
    object [float], which the loader uses as a placeholder; [VObj] is a host
    object the code only passes around (a path template). *)
Inductive pyval :=
| VNone
| VInt (z : Z)
| VFloat (f : float)
| VStr (s : string)
| VList (l : list string)
| VFloatType
| VObj (id : string).

(** A computation reads the commands issued so far (the host's answers may
    depend on them), may issue more, and returns or raises. *)
Definition M (E A : Type) : Type := list E -> result A * list E.

Section Monad.
Context {E : Type}.

Definition ret {A} (a : A) : M E A := fun h => (Ok a, h).
Definition raise {A} (e : exn) : M E A := fun h => (Raise e, h).

Definition bind {A B} (m : M E A) (k : A -> M E B) : M E B := fun h =>
  match m h with
  | (Ok a, h') => k a h'
  | (Raise e, h') => (Raise e, h')
  end.

(** Issue command [e]; the host answers from what it has seen before. *)
Definition call {A} (e : E) (answer : list E -> result A) : M E A := fun h =>
  (answer h, (h ++ [e])%list).

(** A command without a result that the host always carries out. *)
Definition emit (e : E) : M E unit := fun h => (Ok tt, (h ++ [e])%list).

(** A read-only question to the host. *)
Definition ask {A} (answer : list E -> result A) : M E A := fun h =>
  (answer h, h).

Definition lift {A} (r : result A) : M E A := fun h => (r, h).

(** [try: m except Exception as e: handler e] *)
Definition try_except {A} (m : M E A) (handler : exn -> M E A) : M E A := fun h =>
  match m h with
  | (Ok a, h') => (Ok a, h')
  | (Raise e, h') => handler e h'
  end.

(** [for x in l: body x] *)
Fixpoint for_each {X} (l : list X) (body : X -> M E unit) : M E unit :=
  match l with
  | [] => ret tt
  | x :: l' => bind (body x) (fun _ => for_each l' body)
  end.

(** A loop that threads a local variable. *)
Fixpoint for_fold {X S} (l : list X) (body : S -> X -> M E S) (s : S) : M E S :=
  match l with
  | [] => ret s
  | x :: l' => bind (body s x) (for_fold l' body)
  end.

(** A loop whose body may leave the function ([return]): [true] when it
    did. *)
Fixpoint for_until {X} (l : list X) (body : X -> M E bool) : M E bool :=
  match l with
  | [] => ret false
  | x :: l' => bind (body x) (fun returned =>
                 if (returned : bool) then ret true else for_until l' body)
  end.

End Monad.

#[global] Instance M_ret {E} : MRet (M E) := fun A a => ret a.
#[global] Instance M_bind {E} : MBind (M E) := fun A B k m => bind m k.

(** [float(v)] *)
Definition py_float (v : pyval) : result float :=
  match v with
  | VFloat f => Ok f
  | VInt z => Ok (float_of_int z)
  | VStr _ => Raise ValueError
  | _ => Raise TypeError
  end.

(** [s.split(sep)[-1]] and [s.split(sep)[0]] with Python's [ValueError]. *)
Definition py_split_last (sep s : string) : result string :=
  match PyStr.split_last sep s with
  | Some x => Ok x
  | None => Raise ValueError
  end.

Definition py_split_first (sep s : string) : result string :=
  match PyStr.split_first sep s with
  | Some x => Ok x
  | None => Raise ValueError
  end.

(** [re.search] for a pattern that has no regular-expression operator: a
    plain search for the text. *)
Fixpoint literal_search (pattern s : string) : result (option string) :=
  if PyStr.startswith pattern s then Ok (Some pattern)
  else
    match s with
    | EmptyString => Ok None
    | String _ s' => literal_search pattern s'
    end.

(** ** The publish plugins: [publish_camera.py] and [publish_mesh.py] *)

Module Publish.
Import PyStr Re.

Definition GEO_CONSTANT_ENTITIES : list string :=
  ["_MMtrackalembic_"; "_MMtrackfbx_";
   "_fxgeo_"; "_lgtgeo_"; "_RAtrackalembic_";
   "_animgeo_"; "_layoutgeo_"].

Definition namings : list string :=
  ["MMtrackalembic_";
   "MMtrackfbx_";
   "fxgeo_"; "lgtgeo_";
   "RAtrackalembic_"; "animgeo_";
   "layoutgeo_"].

Definition maya_native_geo_names : list string :=
  ["pSphere"; "pCube"; "pCylinder"; "pCone";
   "pTorus"; "pPlane"; "pDisc"; "pPlatonic";
   "pPyramid"; "pPrism"; "pPipe"; "pHelix";
   "pGear"; "pSolid"; "pSuperShape"].

Definition grp_name : list string := ["group"].

(** A [PublishedFile] record as [shotgun.find] returns it; a field of the
    tracking service may be empty ([None]). *)
Record PublishedFile := {
  code : option string;
  version_number : option Z
}.

(** The publisher's item: its [properties] dictionary, the task of its
    context and the properties of its parent (the session item). *)
Record Item := {
  properties : gmap string pyval;
  context_task : string;
  parent_properties : gmap string pyval
}.

(** What the plugins do to the outside world, in the order they do it. *)
Inductive event :=
| Log (level msg : string)
| ShotgunFind (task : string)
| Select (node : string)
| SelectList (nodes : list string)
| ValidationUI (title : string) (msg : gmap string string)
| EnsureFolderExists (folder : string)
| AddAttr (node longName attributeType : string)
| SetAttr (plug : string) (v : pyval)
| Rename (old new : string)
| MelEval (cmd : string)
| BaseValidate (it : Item)
| BasePublish (it : Item).

(** [extracted_name] starts as the type object [str]. *)
Inductive pyname :=
| StrType
| Name (s : string).

(** [max(v :: vs)] *)
Definition py_max (v : Z) (vs : list Z) : Z := fold_left Z.max vs v.

(** Lines 284-293 of publish_camera.py (290-299 of publish_mesh.py): the
    second loop returns in its first round.  The version number it stores in
    the first record is dropped with the list. *)
Definition next_version (versions : list Z) (get_publish_list : list PublishedFile) : Z :=
  match get_publish_list with
  | [] => 1
  | publishes :: _ =>
      match versions with
      | v :: vs => let n := py_max v vs + 1 in if n =? 0 then 1 else n
      | [] => 1
      end
  end.

Section SetVersion.

(** [re.search(pattern, s)] for a pattern made at run time: it raises on a
    pattern that does not compile, and returns [None] or [group(0)] of the
    leftmost match. *)
Variable re_search : string -> string -> result (option string).

(** [engine.shotgun.find('PublishedFile', [['task', 'is', task]], ...)] *)
Variable shotgun_find : list event -> string -> result (list PublishedFile).

(** One round of the loop over [GEO_CONSTANT_ENTITIES]. *)
Definition extract_step (publish_name : string) (extracted_name : pyname)
    (entities : string) : M event pyname :=
  if contains entities publish_name then
    let split_entity := PyStr.tail entities in
    split_name_with_version ← lift (py_split_last entities publish_name);
    match search_v3 split_name_with_version with
    | Some extract_version =>
        extract_name ← lift (py_split_first extract_version split_name_with_version);
        mret (Name (split_entity ++ extract_name ++ "_"))
    | None =>
        emit (Log "error" "Naming Convention error");;
        mret (Name "")
    end
  else mret extracted_name.

Definition extract_name (publish_name : string) : M event pyname :=
  for_fold GEO_CONSTANT_ENTITIES (extract_step publish_name) StrType.

(** The body of [try: ... except: pass]: [Ok (Some v)] when [v] is appended
    to [versions], [Ok None] when the test is falsy, [Raise] when the body
    raises ([re.search] on the type [str] or on a missing code, [.group] on
    [None]). *)
Definition try_version (extracted_name : pyname) (publishes : PublishedFile)
    : result (option Z) :=
  match extracted_name, code publishes with
  | StrType, _ => Raise TypeError
  | Name _, None => Raise TypeError
  | Name pattern, Some c =>
      m ← re_search pattern c;
      match m with
      | None => Raise AttributeError
      | Some g =>
          if String.eqb g "" then Ok None
          else
            match search_vplus c with
            | None => Raise AttributeError
            | Some version_str =>
                match search_digits version_str with
                | None => Raise AttributeError
                | Some digits => Ok (Some (int_of_digits digits))
                end
            end
      end
  end.

Definition collect_versions (extracted_name : pyname)
    (get_publish_list : list PublishedFile) : list Z :=
  fold_left
    (fun versions publishes =>
       match try_version extracted_name publishes with
       | Ok (Some version) => (versions ++ [version])%list
       | _ => versions
       end)
    get_publish_list [].

Definition set_version (publish_name : string) (item : Item) : M event Z :=
  extracted_name ← extract_name publish_name;
  get_publish_list ← call (ShotgunFind (context_task item))
                          (fun h => shotgun_find h (context_task item));
  mret (next_version (collect_versions extracted_name get_publish_list)
                     get_publish_list).

End SetVersion.

(** The cross mark [u"❌"] in UTF-8, the double quote, and ["%d" % z]. *)
Definition cross_mark : string :=
  String (ascii_of_nat 226) (String (ascii_of_nat 157) (String (ascii_of_nat 140) "")).

Definition dquote : string := String (ascii_of_nat 34) "".

Definition format_d (z : Z) : string := NilZero.string_of_int (Z.to_int z).

(** What the host answers to the plugins.  Answers may depend on the
    commands issued so far. *)
Record host := {
  re_search : string -> string -> result (option string);
  shotgun_find : list event -> string -> result (list PublishedFile);
  session_path : list event -> string;
  normalize : string -> string;
  basename : string -> string;
  dirname : string -> string;
  path_sep : ascii;
  str_float : float -> string;
  select : list event -> string -> result unit;
  select_list : list event -> list string -> result unit;
  listRelatives_shapes : list event -> string -> result (option (list string));
  listRelatives_shapes_mesh : list event -> string -> result (option (list string));
  listRelatives_ad : list event -> string -> result (option (list string));
  listRelatives_ad_fullPath : list event -> string -> result (option (list string));
  listRelatives_parent : list event -> string -> result (list string);
  ls : list event -> string -> result (list string);
  ls_selection : list event -> result (list string);
  ls_assemblies : list event -> result (list string);
  ls_dag_mesh : list event -> string -> result (list string);
  get_fields : pyval -> string -> result (gmap string pyval);
  missing_keys : pyval -> gmap string pyval -> result (list string);
  apply_fields : pyval -> gmap string pyval -> result string;
  base_validate : list event -> Item -> result bool;
  base_publish : list event -> Item -> result unit;
  ensure_folder_exists : list event -> string -> result unit;
  playback_min : list event -> result float;
  playback_max : list event -> result float;
  attribute_exists : list event -> string -> string -> result bool;
  addAttr : list event -> string -> string -> string -> result unit;
  setAttr : list event -> string -> pyval -> result unit;
  is_referenced : list event -> string -> result bool;
  rename : list event -> string -> string -> result string;
  mel_eval : list event -> string -> result unit
}.

Section Plugins.
Variable H : host.

(** [item.properties[key]] for a text property: [KeyError] when missing. *)
Definition property (item : Item) (key : string) : result string :=
  match properties item !! key with
  | Some (VStr s) => Ok s
  | Some _ => Raise TypeError
  | None => Raise KeyError
  end.

Definition set_property (item : Item) (key : string) (v : pyval) : Item :=
  {| properties := <[key := v]> (properties item);
     context_task := context_task item;
     parent_properties := parent_properties item |}.

(** [d.get(key)] *)
Definition get_or_none (d : gmap string pyval) (key : string) : pyval :=
  match d !! key with
  | Some v => v
  | None => VNone
  end.

(** [not x] for what [listRelatives] returns: [None] or an empty list. *)
Definition nothing (x : option (list string)) : bool :=
  match x with
  | None | Some [] => true
  | Some (_ :: _) => false
  end.

(** [for names in x:]; [None] cannot be iterated. *)
Definition iterable (x : option (list string)) : result (list string) :=
  match x with
  | Some l => Ok l
  | None => Raise TypeError
  end.

(** [cmds.select(node, add=True); error_msg[txt] = cross] *)
Definition flag (error_msg : gmap string string) (node txt : string)
    : M event (gmap string string) :=
  call (Select node) (fun h => select H h node);;
  mret (<[txt := cross_mark]> error_msg).

Definition red (name : string) : string :=
  "<font color='red'>" ++ name ++ "</font>".

(** The underscore test of both plugins. *)
Definition underscored (name : string) : bool :=
  startswith "_" name || endswith "_" name.

(** publish_camera.py, lines 331-362: the naming checks of a camera. *)
Definition camera_naming_checks (cam_name : string) : M event (gmap string string) :=
  let error_msg : gmap string string := ∅ in
  error_msg ←
    (if existsb (fun native_names => startswith native_names cam_name) grp_name
     then flag error_msg cam_name
            ("Maya native geometry name exists " ++ red cam_name ++ " ")
     else mret error_msg);
  error_msg ←
    (if negb (existsb (fun name => startswith name cam_name) namings)
     then flag error_msg cam_name
            ("Node name " ++ red cam_name ++
             " not starting with any naming conventions ")
     else mret error_msg);
  error_msg ←
    (if underscored cam_name
     then flag error_msg cam_name
            ("Camera Name starts or ends with underscore for " ++ red cam_name ++ " ")
     else mret error_msg);
  shapes ← ask (fun h => listRelatives_shapes H h cam_name);
  error_msg ←
    (if nothing shapes then
       let check_entity := existsb (fun entities => contains entities cam_name) namings in
       if negb check_entity
       then flag error_msg cam_name
              ("Naming convetion not found for node  " ++ red cam_name)
       else mret error_msg
     else mret error_msg);
  descendants ← ask (fun h => listRelatives_ad H h cam_name);
  descendants ← lift (iterable descendants);
  for_fold descendants
    (fun error_msg names =>
       if underscored names
       then call (Select names) (fun h => select H h names);;
            mret (<["Camera Name starts or ends with underscore for " ++
                    red names ++ " " := cross_mark]> error_msg)
       else mret error_msg)
    error_msg.

(** One descendant in the last loop of the mesh checks (lines 385-399). *)
Definition mesh_descendant_check (object_name : string)
    (error_msg : gmap string string) (names : string)
    : M event (gmap string string) :=
  error_msg ←
    for_fold maya_native_geo_names
      (fun error_msg name =>
         if startswith name names then
           let error_msg :=
             <["Maya native geometry name exists " ++ red names ++
               " inside " ++ red object_name := cross_mark]> error_msg in
           objects ← ask (fun h => listRelatives_ad_fullPath H h object_name);
           objects ← lift (iterable objects);
           for_each objects
             (fun obj =>
                parent_node ← ask (fun h => listRelatives_parent H h obj);
                call (SelectList parent_node)
                     (fun h => select_list H h parent_node));;
           mret error_msg
         else mret error_msg)
      error_msg;
  if underscored names
  then call (Select names) (fun h => select H h names);;
       mret (<["Node Name starts or ends with underscore for " ++
               red names ++ " " := cross_mark]> error_msg)
  else mret error_msg.

(** publish_mesh.py, lines 343-399: the naming checks of a mesh. *)
Definition mesh_naming_checks (object_name : string) : M event (gmap string string) :=
  let error_msg : gmap string string := ∅ in
  error_msg ←
    (if existsb (fun native_names => contains native_names object_name)
                maya_native_geo_names
     then flag error_msg object_name
            ("Maya native geometry name exists " ++ red object_name ++ " ")
     else mret error_msg);
  error_msg ←
    (if negb (existsb (fun name => startswith name object_name) namings)
     then flag error_msg object_name
            ("Geometry name " ++ red object_name ++
             " not starting with any naming conventions ")
     else mret error_msg);
  let nodes := object_name in
  mesh_shapes ← ask (fun h => listRelatives_shapes_mesh H h nodes);
  error_msg ←
    (if negb (nothing mesh_shapes)
     then flag error_msg nodes
            ("Add " ++ red nodes ++ " in naming convension based group node")
     else mret error_msg);
  error_msg ←
    (if existsb (fun native_names => startswith native_names object_name) grp_name
     then flag error_msg object_name
            ("Maya native geometry name exists " ++ red object_name ++ " ")
     else mret error_msg);
  shapes ← ask (fun h => listRelatives_shapes H h nodes);
  error_msg ←
    (if nothing shapes then
       let check_entity := existsb (fun entities => contains entities nodes) namings in
       if negb check_entity
       then flag error_msg nodes
              ("Naming convetion not found for node  " ++ red nodes)
       else mret error_msg
     else mret error_msg);
  error_msg ←
    (if existsb (fun native_names => String.eqb native_names object_name) namings
     then flag error_msg object_name
            ("Only naming convention notation specified. " ++
             "Provide extended naming for " ++ red object_name ++ " ")
     else mret error_msg);
  error_msg ←
    (if underscored object_name
     then flag error_msg object_name
            ("Node Name starts or ends with underscore for " ++ red object_name ++ " ")
     else mret error_msg);
  descendants ← ask (fun h => listRelatives_ad H h object_name);
  descendants ← lift (iterable descendants);
  for_fold descendants (mesh_descendant_check object_name) error_msg.

(** [if error_msg != {}:] show the window and wait until it is closed. *)
Definition show_errors (title : string) (error_msg : gmap string string)
    : M event unit :=
  if bool_decide (error_msg = ∅) then mret tt
  else emit (ValidationUI title error_msg).

(** The session must have been saved (lines 316-328). *)
Definition saved_session_path : M event string :=
  path ← ask (fun h => Ok (session_path H h));
  if String.eqb path "" then
    emit (Log "error" "The Maya session has not been saved.");;
    raise (Exception "The Maya session has not been saved.")
  else mret (normalize H path).

(** ["%s" % l] for a list of key names: the names are plain identifiers,
    which Python prints between single quotes. *)
Definition py_str_list (l : list string) : string :=
  "[" ++ PyStr.join ", " (map (fun k => "'" ++ k ++ "'") l) ++ "]".

(** From the templates to the end of [validate] (camera lines 385-439, mesh
    lines 423-478): [name] is the node name as collected and [short] the part
    before its first colon. *)
Definition resolve_publish_path (item : Item) (path short : string)
    : M event (bool * Item) :=
  let work_template := get_or_none (parent_properties item) "work_template" in
  let publish_template := get_or_none (properties item) "publish_template" in
  work_fields ← lift (get_fields H work_template path);
  let display := alnum_only short in
  let work_fields := <["name" := VStr display]> work_fields in
  missing ← lift (missing_keys H publish_template work_fields);
  match missing with
  | _ :: _ =>
      let error_msg :=
        "Work file '" ++ path ++
        "' missing keys required for the publish template: " ++ py_str_list missing in
      emit (Log "error" error_msg);;
      raise (Exception error_msg)
  | [] =>
      publish_path ← lift (apply_fields H publish_template work_fields);
      let item := set_property item "path" (VStr publish_path) in
      let item := set_property item "publish_path" (VStr publish_path) in
      let item := set_property item "publish_path"
                    (VStr (PyStr.replace display short publish_path)) in
      let publish_name := basename H (PyStr.replace display short publish_path) in
      let item := set_property item "publish_name" (VStr publish_name) in
      version ← set_version (re_search H) (shotgun_find H) publish_name item;
      let work_fields := <["version" := VInt version]> work_fields in
      versioned ← lift (apply_fields H publish_template work_fields);
      let item := set_property item "path" (VStr versioned) in
      let item := set_property item "publish_path" (VStr versioned) in
      let item := set_property item "path"
                    (VStr (PyStr.replace display short versioned)) in
      let item := set_property item "publish_path"
                    (VStr (PyStr.replace display short versioned)) in
      let item := set_property item "publish_name"
                    (VStr (basename H (PyStr.replace display short versioned))) in
      let item := set_property item "publish_version" (VInt version) in
      ok ← call (BaseValidate item) (fun h => base_validate H h item);
      mret (ok, item)
  end.

(** [MayaCameraPublishPlugin.validate] *)
Definition validate_camera (item : Item) : M event (bool * Item) :=
  path ← saved_session_path;
  cam_name ← lift (property item "camera_name");
  error_msg ← camera_naming_checks cam_name;
  show_errors ("FWX Publisher Warning: " ++ cam_name) error_msg;;
  found ← ask (fun h => ls H h cam_name);
  match found with
  | [] =>
      let error_msg :=
        "Validation failed because the collected camera (" ++ cam_name ++
        ") is no longer in the scene. You can uncheck this plugin or create " ++
        "a camera with this name to export to avoid this error." in
      emit (Log "error" error_msg);;
      raise (Exception error_msg)
  | _ :: _ =>
      short ← lift (py_split_first ":" cam_name);
      resolve_publish_path item path short
  end.

(** [MayaShaderPublishPlugin.validate] *)
Definition validate_mesh (item : Item) : M event (bool * Item) :=
  path ← saved_session_path;
  object_name ← lift (property item "object");
  error_msg ← mesh_naming_checks object_name;
  show_errors "FWX Publisher Warning " error_msg;;
  short ← lift (py_split_first ":" object_name);
  assemblies ← ask (fun h => ls_assemblies H h);
  (match assemblies with
   | [] => mret tt
   | _ :: _ => ask (fun h => ls_dag_mesh H h short);; mret tt
   end);;
  resolve_publish_path item path short.

(** [[name for name in namings if name in node][0]] *)
Definition first_naming (node : string) : result string :=
  match List.filter (fun name => contains name node) namings with
  | [] => Raise IndexError
  | name :: _ => Ok name
  end.

(** The command of the camera plugin (lines 483-484 and 497-498). *)
Definition abc_export_cmd (start_frame end_frame : float) (root publish_path : string)
    : string :=
  "AbcExport -j " ++ dquote ++ "-frameRange " ++ str_float H start_frame ++ " " ++
  str_float H end_frame ++ " -attr abc_start_frame -root " ++ root ++
  " -writeVisibility -file " ++
  PyStr.replace (String (path_sep H) "") "/" publish_path ++ dquote.

(** The command of the mesh plugin (lines 528-529 and 540-541). *)
Definition alembic_args (start_frame end_frame : Z) (root publish_path : string)
    : string :=
  "AbcExport -j " ++ dquote ++ "-renderableOnly -writeFaceSets -uvWrite -fr " ++
  format_d start_frame ++ " " ++ format_d end_frame ++
  " -attr abc_start_frame -root " ++ root ++ " -file " ++
  PyStr.replace "\" "/" publish_path ++ dquote.

(** Stamp the node with the start frame unless it is stamped already. *)
Definition stamp_start_frame (node : string) (start_frame : pyval) : M event unit :=
  stamped ← ask (fun h => attribute_exists H h "abc_start_frame" node);
  if negb stamped then
    call (AddAttr node "abc_start_frame" "float")
         (fun h => addAttr H h node "abc_start_frame" "float");;
    call (SetAttr (node ++ ".abc_start_frame") start_frame)
         (fun h => setAttr H h (node ++ ".abc_start_frame") start_frame)
  else mret tt.

(** [MayaCameraPublishPlugin.publish]; the result is the item as the plugin
    leaves it. *)
Definition publish_camera (item : Item) : M event Item :=
  cur_selection ← ask (fun h => ls_selection H h);
  current_camera ← lift (property item "camera_name");
  publish_path ← lift (property item "publish_path");
  let publish_folder := dirname H publish_path in
  call (EnsureFolderExists publish_folder)
       (fun h => ensure_folder_exists H h publish_folder);;
  start_frame ← ask (fun h => playback_min H h);
  end_frame ← ask (fun h => playback_max H h);
  stamp_start_frame current_camera (VFloat start_frame);;
  referenced ← ask (fun h => is_referenced H h current_camera);
  exported ←
    (if negb referenced then
       get_nameing_convention ← lift (first_naming current_camera);
       stripped ← lift (py_split_last get_nameing_convention current_camera);
       try_except
         (call (Rename current_camera stripped)
               (fun h => rename H h current_camera stripped);;
          let cmd := abc_export_cmd start_frame end_frame stripped publish_path in
          emit (Log "info" ("Executing command: " ++ cmd));;
          call (MelEval cmd) (fun h => mel_eval H h cmd);;
          call (Rename stripped current_camera)
               (fun h => rename H h stripped current_camera);;
          mret true)
         (fun e => emit (Log "error" ("Failed to export camera: " ++ exn_text e));;
                  mret false)
     else
       try_except
         (let cmd := abc_export_cmd start_frame end_frame current_camera publish_path in
          emit (Log "info" ("Executing command: " ++ cmd));;
          call (MelEval cmd) (fun h => mel_eval H h cmd);;
          mret true)
         (fun e => emit (Log "error" ("Failed to export camera: " ++ exn_text e));;
                  mret false));
  if (exported : bool) then
    let item := set_property item "publish_type" (VStr "Alembic Cache") in
    call (BasePublish item) (fun h => base_publish H h item);;
    call (SelectList cur_selection) (fun h => select_list H h cur_selection);;
    mret item
  else mret item.

(** One round of the loop over [cmds.ls(assemblies=True)] of the mesh
    plugin; [true] when the plugin returns from inside the loop. *)
Definition publish_mesh_round (mesh_object publish_path meshes : string)
    : M event bool :=
  dag_meshes ← ask (fun h => ls_dag_mesh H h meshes);
  match dag_meshes with
  | [] => mret false
  | _ :: _ =>
      if String.eqb mesh_object meshes then
        minimum ← ask (fun h => playback_min H h);
        start_frame ← lift (int_of_float minimum);
        maximum ← ask (fun h => playback_max H h);
        end_frame ← lift (int_of_float maximum);
        stamp_start_frame meshes (VInt start_frame);;
        referenced ← ask (fun h => is_referenced H h meshes);
        if negb referenced then
          get_nameing_convention ← lift (first_naming meshes);
          stripped ← lift (py_split_last get_nameing_convention meshes);
          call (Rename meshes stripped) (fun h => rename H h meshes stripped);;
          try_except
            (let cmd := alembic_args start_frame end_frame stripped publish_path in
             emit (Log "info" ("Executing command: " ++ cmd));;
             call (MelEval cmd) (fun h => mel_eval H h cmd);;
             call (Rename stripped meshes) (fun h => rename H h stripped meshes);;
             mret false)
            (fun e => emit (Log "error" ("Failed to export Geometry: " ++ exn_text e));;
                     mret true)
        else
          try_except
            (let cmd := alembic_args start_frame end_frame meshes publish_path in
             emit (Log "info" ("Executing command: " ++ cmd));;
             call (MelEval cmd) (fun h => mel_eval H h cmd);;
             mret false)
            (fun e => emit (Log "error" ("Failed to export Geometry: " ++ exn_text e));;
                     mret true)
      else mret false
  end.

(** [MayaShaderPublishPlugin.publish] *)
Definition publish_mesh (item : Item) : M event Item :=
  publish_path ← lift (property item "path");
  let publish_folder := dirname H publish_path in
  call (EnsureFolderExists publish_folder)
       (fun h => ensure_folder_exists H h publish_folder);;
  mesh_object ← lift (property item "object");
  assemblies ← ask (fun h => ls_assemblies H h);
  returned ← for_until assemblies (publish_mesh_round mesh_object publish_path);
  if (returned : bool) then mret item
  else
    let item := set_property item "publish_type" (VStr "Alembic Cache") in
    call (BasePublish item) (fun h => base_publish H h item);;
    mret item.

End Plugins.

(** A scene for trying the plugins: a POSIX file system, a session that is
    saved or not, one node with its shape, an export that works or fails. *)
Definition posix_basename (s : string) : string :=
  match PyStr.split_last "/" s with
  | Some x => x
  | None => s
  end.

Definition posix_dirname (s : string) : string :=
  PyStr.join "/" (removelast (PyStr.split_go "/" s 0 "")).

Definition example_host (saved export_works : bool) : host := {|
  re_search := literal_search;
  shotgun_find := fun _ _ => Ok [];
  session_path := fun _ => if saved then "/proj/work/scene.ma" else "";
  normalize := fun p => p;
  basename := posix_basename;
  dirname := posix_dirname;
  path_sep := "/"%char;
  str_float := fun x =>
    match int_of_float x with
    | Ok z => format_d z ++ ".0"
    | Raise _ => "nan"
    end;
  select := fun _ _ => Ok tt;
  select_list := fun _ _ => Ok tt;
  listRelatives_shapes := fun _ _ => Ok None;
  listRelatives_shapes_mesh := fun _ _ => Ok None;
  listRelatives_ad := fun _ node => Ok (Some [node ++ "Shape"]);
  listRelatives_ad_fullPath := fun _ node => Ok (Some ["|" ++ node ++ "|" ++ node ++ "Shape"]);
  listRelatives_parent := fun _ _ => Ok [];
  ls := fun _ node => Ok [node];
  ls_selection := fun _ => Ok [];
  ls_assemblies := fun _ => Ok ["fxgeo_rock"; "persp"];
  ls_dag_mesh := fun _ node =>
    Ok (if String.eqb node "persp" then [] else [node ++ "Shape"]);
  get_fields := fun _ _ => Ok ∅;
  missing_keys := fun _ _ => Ok [];
  apply_fields := fun _ fields =>
    match fields !! "name" with
    | Some (VStr n) => Ok ("/proj/publish/pub_" ++ n ++ "_v001.abc")
    | _ => Raise KeyError
    end;
  base_validate := fun _ _ => Ok true;
  base_publish := fun _ _ => Ok tt;
  ensure_folder_exists := fun _ _ => Ok tt;
  playback_min := fun _ => Ok (float_of_int 1001);
  playback_max := fun _ => Ok (float_of_int 1100);
  attribute_exists := fun _ _ _ => Ok false;
  addAttr := fun _ _ _ _ => Ok tt;
  setAttr := fun _ _ _ => Ok tt;
  is_referenced := fun _ _ => Ok false;
  rename := fun _ _ new => Ok new;
  mel_eval := fun _ _ =>
    if export_works then Ok tt else Raise (HostError "AbcExport failed")
|}.

Definition example_item (key node : string) : Item := {|
  properties := {[ key := VStr node;
                   "publish_template" := VObj "maya_asset_publish";
                   "publish_path" := VStr "/proj/publish/pub_fxgeorock_v001.abc";
                   "path" := VStr "/proj/publish/pub_fxgeorock_v001.abc" ]};
  context_task := "layout";
  parent_properties := {[ "work_template" := VObj "maya_asset_work" ]}
|}.

End Publish.

(** ** The loader hook: [tk-maya-loader2.py] *)

Module Loader.
Import PyStr Re.

Definition GEO_CONSTANT_ENTITIES : list string :=
  ["MMtrackalembic"; "MMtrackfbx";
   "fxgeo"; "lgtgeo";
   "RAtrackalembic"; "animgeo";
   "layoutgeo"].


(** The fields of [sg_publish_data] the hook reads.  [entity] is [None] when
    the publish has none; a name that is [None] prints as ["None"]. *)
Record publish_data := {
  entity : option (option string);
  publish_name : option string
}.

(** A top-level object of an Alembic archive, as far as the hook looks. *)
Record abc_child := {
  is_xform : bool;          (* IXform.matches(header) *)
  xform_truthy : bool;      (* the IXform object is true *)
  sample_time_0 : float     (* getSchema().getTimeSampling().getSampleTime(0) *)
}.

Record abc_archive := {
  children : list abc_child;
  default_sample_time_1 : result float;   (* getTimeSampling(0).getSampleTime(1) *)
  max_num_samples_1 : result Z            (* getMaxNumSamplesForTimeSamplingIndex(1) *)
}.

Inductive event :=
| LogDebug (msg : string)
| LogError (msg : string)
| FileReference (path namespace : string)
| FileImport (path namespace : string)
| PrintOffset (ref_file : string) (abc_offset : pyval)
| SetAttr (plug : string) (v : pyval)
| ShadingNode
| MelEval (cmd : string)
| ImagePlane (fileName : string).

(** What the host answers.  Every answer may depend on the commands issued
    so far. *)
Record host := {
  get_publish_path : publish_data -> result string;
  os_path_exists : list event -> string -> bool;
  cmds_file_reference : list event -> string -> string -> result pyval;
  cmds_file_import : list event -> string -> string -> result pyval;
  playback_minTime : list event -> result float;
  referenceQuery_nodes : list event -> string -> result (list string);
  attributeQuery_exists : list event -> string -> string -> result bool;
  getAttr : list event -> string -> result pyval;
  setAttr : list event -> string -> pyval -> result unit;
  ls_long : list event -> string -> result (list string);
  open_archive : list event -> string -> result abc_archive;
  about_version : list event -> string;
  shadingNode : list event -> result string;
  mel_eval : list event -> string -> result unit;
  glob : list event -> string -> list string;
  imagePlane : list event -> string -> result (string * string)
}.

(** The hook object keeps the Maya version once it has asked for it. *)
Record self_state := {
  _maya_major_version : option Z
}.

Section Hook.
Variable H : host.

(** [_get_maya_version] *)
Definition _get_maya_version (self : self_state) : M event (Z * self_state) :=
  match _maya_major_version self with
  | Some v => mret (v, self)
  | None =>
      maya_ver ← ask (fun h => Ok (about_version H h));
      let maya_ver :=
        if startswith "Maya " maya_ver
        then PyStr.tail (PyStr.tail (PyStr.tail (PyStr.tail (PyStr.tail maya_ver))))
        else maya_ver in
      first ← lift (py_split_first " " maya_ver);
      major_version_number_str ← lift (py_split_first "." first);
      let v :=
        if negb (String.eqb major_version_number_str "") &&
           isdigit major_version_number_str
        then int_of_digits major_version_number_str
        else 0 in
      mret (v, {| _maya_major_version := Some v |})
  end.




(** ["%s" % x] for a string that may be [None]. *)
Definition py_str_opt (o : option string) : string :=
  match o with
  | Some s => s
  | None => "None"
  end.

(** One round of the loop that shortens the namespace. *)
Definition namespace_step (namespace entities : string) : M event string :=
  if contains entities namespace then
    after ← lift (py_split_last entities namespace);
    match search_vplus after with
    | None => raise AttributeError
    | Some get_version =>
        get_geo_name ← lift (py_split_first get_version after);
        mret (entities ++ get_geo_name)
    end
  else mret namespace.

(** Lines 219-236 (322-339 in [_do_import]). *)
Definition make_namespace (sg_publish_data : publish_data) : M event string :=
  match entity sg_publish_data with
  | None => raise AttributeError
  | Some entity_name =>
      let namespace :=
        py_str_opt entity_name ++ " " ++ py_str_opt (publish_name sg_publish_data) in
      let namespace := replace_char " " "_" namespace in
      for_fold GEO_CONSTANT_ENTITIES namespace_step namespace
  end.

(** [x.endswith(suffix)]; only a string has the method. *)
Definition py_endswith (x : pyval) (suffix : string) : result (bool * string) :=
  match x with
  | VStr s => Ok (endswith suffix s, s)
  | _ => Raise AttributeError
  end.

Definition float_zero : float := S754_zero false.

(** [temp_start_frame == 0.0]: the type object is not equal to a number. *)
Definition py_eq_zero (v : pyval) : bool :=
  match v with
  | VFloat f => float_eq f float_zero
  | _ => false
  end.

(** The loop over [top.children]: the last transform that is true sets
    [temp_start_frame]. *)
Definition temp_start_frame_of (cs : list abc_child) : pyval :=
  fold_left
    (fun temp_start_frame child =>
       if is_xform child then
         if xform_truthy child
         then VFloat (float_mul (float_of_int 24) (sample_time_0 child))
         else temp_start_frame
       else temp_start_frame)
    cs VFloatType.

(** Lines 292-296 (396-400): the last comparison; [abc_offset] keeps its
    placeholder when neither test holds. *)
Definition select_offset (first_frame : Z) (start_frame : pyval) : result pyval :=
  b ← py_float start_frame;
  if negb (float_eq (float_of_int first_frame) b)
  then Ok (VFloat (float_of_int first_frame))
  else
    b' ← py_float start_frame;
    if float_eq (float_of_int first_frame) b'
    then Ok (VFloat b')
    else Ok VFloatType.

(** Lines 263-296 (367-400): the start frame of the cache and the offset. *)
Definition offset_from_archive (file_path : string) (first_frame : Z) : M event pyval :=
  abc_archeive ← ask (fun h => open_archive H h file_path);
  let temp_start_frame := temp_start_frame_of (children abc_archeive) in
  start_frame ←
    (if py_eq_zero temp_start_frame
     then
       start_frame ← lift (default_sample_time_1 abc_archeive);
       end_frame ← lift (max_num_samples_1 abc_archeive);
       mret (VFloat start_frame)
     else mret temp_start_frame);
  lift (select_offset first_frame start_frame).

(** Lines 249-255 (353-359): is some node stamped with the playback start? *)
Definition find_atrib (file_path : string) (first_frame : Z) : M event bool :=
  nodes ← ask (fun h => referenceQuery_nodes H h file_path);
  for_fold nodes
    (fun atrib nodes =>
       ex ← ask (fun h => attributeQuery_exists H h "abc_start_frame" nodes);
       if (ex : bool) then
         v ← ask (fun h => getAttr H h (nodes ++ ".abc_start_frame"));
         f ← lift (py_float v);
         if float_eq f (float_of_int first_frame) then mret true else mret atrib
       else mret atrib)
    false.

(** Lines 302-308 (406-412): one round of the last loop. *)
Definition offset_round (abc_offset : pyval) (ref_file : string) : M event unit :=
  get_file_full_path ← ask (fun h => ls_long H h ref_file);
  match get_file_full_path with
  | [] => raise IndexError
  | full :: _ =>
      ex ← ask (fun h => attributeQuery_exists H h "offset" full);
      if (ex : bool) then
        emit (PrintOffset ref_file abc_offset);;
        call (SetAttr (ref_file ++ ".offset") abc_offset)
             (fun h => setAttr H h (ref_file ++ ".offset") abc_offset)
      else mret tt
  end.

(** Lines 301-308 (405-412): write the offset on the nodes that have one. *)
Definition apply_offset (file_path : string) (abc_offset : pyval) : M event unit :=
  get_ref_file ← ask (fun h => referenceQuery_nodes H h file_path);
  for_each get_ref_file (offset_round abc_offset).

(** The body of [if file_path.endswith(".abc"):], the same text in
    [_create_reference] (lines 249-308) and [_do_import] (lines 353-412). *)
Definition abc_block (file_path : string) : M event unit :=
  minTime ← ask (fun h => playback_minTime H h);
  first_frame ← lift (int_of_float minTime);
  atrib ← find_atrib file_path first_frame;
  abc_offset ←
    (if (atrib : bool) then mret (VFloat float_zero)
     else offset_from_archive file_path first_frame);
  apply_offset file_path abc_offset.

(** [_create_reference] *)
Definition _create_reference (path : string) (sg_publish_data : publish_data)
    : M event unit :=
  on_disk ← ask (fun h => Ok (os_path_exists H h path));
  if negb on_disk
  then raise (Exception ("File not found on disk - '" ++ path ++ "'"))
  else
    namespace ← make_namespace sg_publish_data;
    file_path ← call (FileReference path namespace)
                     (fun h => cmds_file_reference H h path namespace);
    '(is_abc, file_path) ← lift (py_endswith file_path ".abc");
    if (is_abc : bool) then abc_block file_path else mret tt.

(** [_do_import] *)
Definition _do_import (path : string) (sg_publish_data : publish_data)
    : M event unit :=
  on_disk ← ask (fun h => Ok (os_path_exists H h path));
  if negb on_disk
  then raise (Exception ("File not found on disk - '" ++ path ++ "'"))
  else
    namespace ← make_namespace sg_publish_data;
    file_path ← call (FileImport path namespace)
                     (fun h => cmds_file_import H h path namespace);
    '(is_abc, file_path) ← lift (py_endswith file_path ".abc");
    if (is_abc : bool) then abc_block file_path else mret tt.

(** [_create_texture_node] *)
Definition _create_texture_node (path : string) : M event string :=
  file_node ← call ShadingNode (fun h => shadingNode H h);
  call (SetAttr (file_node ++ ".fileTextureName") (VStr path))
       (fun h => setAttr H h (file_node ++ ".fileTextureName") (VStr path));;
  mret file_node.

(** [_create_udim_texture_node] *)
Definition _create_udim_texture_node (path : string) : M event string :=
  file_node ← _create_texture_node path;
  (if negb (String.eqb file_node "") then
     call (SetAttr (file_node ++ ".uvTilingMode") (VInt 3))
          (fun h => setAttr H h (file_node ++ ".uvTilingMode") (VInt 3));;
     call (MelEval ("generateUvTilePreview " ++ file_node))
          (fun h => mel_eval H h ("generateUvTilePreview " ++ file_node))
   else mret tt);;
  mret file_node.

(** [_create_image_plane] *)
Definition _create_image_plane (path : string) : M event unit :=
  let create (path : string) (has_frame_spec : bool) : M event unit :=
    '(img_plane, img_plane_shape) ← call (ImagePlane path)
                                         (fun h => imagePlane H h path);
    emit (LogDebug ("Created image plane " ++ img_plane ++ " with path " ++ path));;
    if has_frame_spec
    then call (SetAttr (img_plane_shape ++ ".useFrameExtension") (VInt 1))
              (fun h => setAttr H h (img_plane_shape ++ ".useFrameExtension") (VInt 1))
    else mret tt in
  match search_frame_spec path with
  | Some frame_spec =>
      let glob_path := PyStr.replace frame_spec "*" path in
      frame_files ← ask (fun h => Ok (glob H h glob_path));
      match frame_files with
      | first :: _ => create first true
      | [] => emit (LogError ("Could not find file on disk for published file path " ++
                              path))
      end
  | None => create path false
  end.

(** [execute_action].  The debug line is kept to its first words: the
    source goes on with [name], [params] and the whole publish dictionary as
    Python prints them. *)
Definition execute_action (name : string) (params : pyval)
    (sg_publish_data : publish_data) : M event unit :=
  emit (LogDebug "Execute action called");;
  path ← lift (get_publish_path H sg_publish_data);
  (if String.eqb name "reference"
   then _create_reference path sg_publish_data else mret tt);;
  (if String.eqb name "import"
   then _do_import path sg_publish_data else mret tt);;
  (if String.eqb name "texture_node"
   then _create_texture_node path;; mret tt else mret tt);;
  (if String.eqb name "udim_texture_node"
   then _create_udim_texture_node path;; mret tt else mret tt);;
  (if String.eqb name "image_plane"
   then _create_image_plane path else mret tt).

End Hook.

(** C8 in the words of the specification: the constant assignment
    [abc_offset = first_frame]. *)
Definition offset_as_specified (first_frame : Z) : float :=
  float_of_int first_frame.

(** A small scene for trying the hook: one Alembic file whose reference
    brings two nodes, the root stamped with its start frame and an Alembic
    node with an [offset]; the playback range starts at [start]. *)
Definition example_host (on_disk : bool) (start stamp : Z) : host := {|
  get_publish_path := fun _ => Ok "/proj/pub_fxgeo_rock_v001.abc";
  os_path_exists := fun _ _ => on_disk;
  cmds_file_reference := fun _ path _ => Ok (VStr path);
  cmds_file_import := fun _ path _ => Ok (VStr path);
  playback_minTime := fun _ => Ok (float_of_int start);
  referenceQuery_nodes := fun _ _ => Ok ["fxgeo_rock:root"; "fxgeo_rock:abcNode"];
  attributeQuery_exists := fun _ attr node =>
    Ok ((String.eqb attr "abc_start_frame" && String.eqb node "fxgeo_rock:root") ||
        (String.eqb attr "offset" && String.eqb node "|fxgeo_rock:abcNode"));
  getAttr := fun _ _ => Ok (VFloat (float_of_int stamp));
  setAttr := fun _ _ _ => Ok tt;
  ls_long := fun _ node => Ok ["|" ++ node];
  open_archive := fun _ _ =>
    Ok {| children := [ {| is_xform := true; xform_truthy := true;
                           sample_time_0 := float_of_int 2 |} ];
          default_sample_time_1 := Ok (float_of_int 1);
          max_num_samples_1 := Ok 10 |};
  about_version := fun _ => "Maya 2018";
  shadingNode := fun _ => Ok "file1";
  mel_eval := fun _ _ => Ok tt;
  glob := fun _ _ => [];
  imagePlane := fun _ _ => Ok ("imagePlane1", "imagePlaneShape1")
|}.

Definition example_publish : publish_data :=
  {| entity := Some (Some "shot010"); publish_name := Some "pub_fxgeo_rock_v001" |}.

End Loader.

(** ** The namespace manager: [namespace_manager.py] *)

Module NamespaceManager.
Import PyStr.

(** The fields of the window the slots read: the text of the checked radio
    button of each group (empty until one is checked) and the line edit. *)
Record window := {
  naming_convention : string;
  apply_option : string;
  namespace_user_text : string
}.

Inductive event :=
| Warning (title text : string)
| FileEditNamespace (file namespace : string)
| WindowClose.

Record host := {
  ls_selection : list event -> result (list string);
  referenceQuery_filename : list event -> string -> result string;
  file_list : list event -> result (list string);
  file_edit_namespace : list event -> string -> string -> result unit
}.

(** [get_naming_convention] and [get_apply_options]: the sender is a radio
    button with its checked state and its text. *)
Definition get_naming_convention (self : window) (checked : bool) (text : string)
    : window :=
  if checked
  then {| naming_convention := text;
          apply_option := apply_option self;
          namespace_user_text := namespace_user_text self |}
  else self.

Definition get_apply_options (self : window) (checked : bool) (text : string)
    : window :=
  if checked
  then {| naming_convention := naming_convention self;
          apply_option := text;
          namespace_user_text := namespace_user_text self |}
  else self.

(** [not s] for a string. *)
Definition falsy (s : string) : bool := String.eqb s "".

(** [validate] *)
Definition validate (self : window) : M event bool :=
  if falsy (naming_convention self) || falsy (apply_option self) then
    emit (Warning "FWX Warning" "Please Select Given Options");;
    mret false
  else if falsy (namespace_user_text self) then
    emit (Warning "FWX Warning" "Please Enter Namespace");;
    mret false
  else mret true.

Section Tool.
Variable H : host.

(** [process_naming_convention] *)
Definition process_naming_convention (self : window) : M event unit :=
  ok ← validate self;
  if (ok : bool) then
    let name := naming_convention self ++ "_" ++ namespace_user_text self in
    if String.eqb (apply_option self) "Only Selected Nodes" then
      get_nodes ← ask (fun h => ls_selection H h);
      for_each get_nodes
        (fun node =>
           file_reference ← ask (fun h => referenceQuery_filename H h node);
           call (FileEditNamespace file_reference name)
                (fun h => file_edit_namespace H h file_reference name));;
      emit WindowClose
    else if String.eqb (apply_option self) "All nodes" then
      get_all_namespace_filepath ← ask (fun h => file_list H h);
      for_each get_all_namespace_filepath
        (fun namespace_filepath =>
           if negb (endswith ".ma" namespace_filepath)
           then call (FileEditNamespace namespace_filepath name)
                     (fun h => file_edit_namespace H h namespace_filepath name)
           else mret tt);;
      emit WindowClose
    else mret tt
  else mret tt.

End Tool.

(** A scene with two references and one selected node. *)
Definition example_host : host := {|
  ls_selection := fun _ => Ok ["old:rock"];
  referenceQuery_filename := fun _ _ => Ok "/proj/rock.abc";
  file_list := fun _ => Ok ["/proj/scene.ma"; "/proj/rock.abc"; "/proj/tree.abc"];
  file_edit_namespace := fun _ _ _ => Ok tt
|}.

End NamespaceManager.

(** ** The entry point of the loader hook: [execute_multiple_actions] *)

Module LoaderBatch.
Import Loader.

(** One entry of [actions]: a dictionary with the keys [name],
    [sg_publish_data] and [params]; a key may be missing. *)
Record single_action := {
  action_name : option string;
  action_sg_publish_data : option publish_data;
  action_params : option pyval
}.

(** [d[key]]: [KeyError] when the key is missing. *)
Definition getitem {A} (v : option A) : result A :=
  match v with
  | Some a => Ok a
  | None => Raise KeyError
  end.

Section Hook.
Variable H : host.

(** [execute_multiple_actions] *)
Definition execute_multiple_actions (actions : list single_action) : M event unit :=
  for_each actions
    (fun single_action =>
       name ← lift (getitem (action_name single_action));
       sg_publish_data ← lift (getitem (action_sg_publish_data single_action));
       params ← lift (getitem (action_params single_action));
       execute_action H name params sg_publish_data).

End Hook.

End LoaderBatch.

(** ** [accept] of the two publish plugins *)

Module Accept.
Import Publish.

(** [bool(x)] *)
Definition truthy (v : pyval) : bool :=
  match v with
  | VNone => false
  | VInt z => negb (z =? 0)
  | VFloat f => negb (float_eq f (S754_zero false))
  | VStr s => negb (String.eqb s "")
  | VList l => match l with [] => false | _ :: _ => true end
  | VFloatType => true
  | VObj _ => true
  end.

(** [str(x)] for a template name, which is a string or [None]. *)
Definition py_str (o : option string) : string :=
  match o with
  | Some s => s
  | None => "None"
  end.

(** The item as [accept] changes it: the attribute [context_change_allowed]
    beside the properties. *)
Record accept_item := {
  item : Item;
  context_change_allowed : bool
}.

(** What the publisher and Maya answer to [accept]. *)
Record publisher := {
  get_template_by_name : list event -> option string -> result pyval;
  mel_exists : list event -> string -> result pyval
}.

(** [settings[key].value]: the value of the setting ["Publish Template"] is a
    template name or [None]. *)
Definition setting_value (settings : gmap string (option string)) (key : string)
    : result (option string) :=
  match settings !! key with
  | Some v => Ok v
  | None => Raise KeyError
  end.

Section Plugins.
Variable P : publisher.

(** [MayaCameraPublishPlugin.accept] *)
Definition accept_camera (settings : gmap string (option string)) (it : accept_item)
    : M event (gmap string bool * accept_item) :=
  template_name ← lift (setting_value settings "Publish Template");
  let work_template := get_or_none (parent_properties (item it)) "work_template" in
  if negb (truthy work_template) then
    emit (Log "debug"
            ("A work template is required for the session item in order to " ++
             "publish a camera. Not accepting session camera item."));;
    mret ({["accepted" := false]}, it)
  else
    publish_template ← ask (fun h => get_template_by_name P h template_name);
    if truthy publish_template then
      let it :=
        {| item := set_property (item it) "publish_template" publish_template;
           context_change_allowed := false |} in
      available ← ask (fun h => mel_exists P h
                                  ("exists " ++ dquote ++ "AbcExport" ++ dquote));
      if negb (truthy available) then
        emit (Log "debug"
                ("Item not accepted because fbx export command 'FBXExport' " ++
                 "is not available. Perhaps the plugin is not enabled?"));;
        mret ({["accepted" := false]}, it)
      else
        mret (<["checked" := true]> {["accepted" := true]}, it)
    else
      emit (Log "debug"
              ("The valid publish template could not be determined for the " ++
               "session camera item. Not accepting the item."));;
      mret ({["accepted" := false]}, it).

(** [MayaShaderPublishPlugin.accept] *)
Definition accept_mesh (settings : gmap string (option string)) (it : accept_item)
    : M event (gmap string bool * accept_item) :=
  let accepted := true in
  template_name ← lift (setting_value settings "Publish Template");
  let work_template := get_or_none (parent_properties (item it)) "work_template" in
  accepted ←
    (if negb (truthy work_template) then
       emit (Log "debug"
               ("A work template is required for the session item in order to " ++
                "publish session geometry. Not accepting session geom item."));;
       mret false
     else mret accepted);
  publish_template ← ask (fun h => get_template_by_name P h template_name);
  emit (Log "debug" ("TEMPLATE NAME: " ++ py_str template_name));;
  accepted ←
    (if negb (truthy publish_template) then
       emit (Log "debug"
               ("A valid publish template could not be determined for the " ++
                "session geometry item. Not accepting the item."));;
       mret false
     else mret (accepted : bool));
  let it :=
    {| item := set_property (item it) "publish_template" publish_template;
       context_change_allowed := false |} in
  mret (<["checked" := true]> {["accepted" := accepted]}, it).

End Plugins.

End Accept.

(** * Theorems *)

(** ** Facts about Python strings *)

Module PyStrFacts.
Import PyStr.

#[local] Arguments String.append !s1 s2 : simpl nomatch.

Lemma app_assoc (a b c : string) : (a ++ b) ++ c = a ++ (b ++ c).
Proof. induction a as [|x a IH]; simpl; [reflexivity | now rewrite IH]. Qed.

Lemma app_nil_r (a : string) : a ++ "" = a.
Proof. induction a as [|x a IH]; simpl; [reflexivity | now rewrite IH]. Qed.

Lemma startswith_app (p s : string) : startswith p (p ++ s) = true.
Proof.
  induction p as [|a p IH]; simpl; [reflexivity |].
  now rewrite Ascii.eqb_refl, IH.
Qed.

Lemma startswith_true (p s : string) :
  startswith p s = true -> exists t, s = p ++ t.
Proof.
  revert s; induction p as [|a p IH]; intros s H; simpl in *.
  - now exists s.
  - destruct s as [|b s]; [discriminate |].
    apply andb_true_iff in H as [Hab Hp].
    apply Ascii.eqb_eq in Hab as ->.
    destruct (IH _ Hp) as [t ->]. now exists t.
Qed.

Lemma contains_unfold (sub s : string) :
  contains sub s =
  startswith sub s ||
  match s with
  | EmptyString => false
  | String _ s' => contains sub s'
  end.
Proof. destruct s; reflexivity. Qed.

Lemma occurrences_unfold (sub s : string) :
  occurrences sub s =
  ((if startswith sub s then 1 else 0) +
   match s with
   | EmptyString => 0
   | String _ s' => occurrences sub s'
   end)%nat.
Proof. destruct s; reflexivity. Qed.

Lemma contains_app (sub pre t : string) : contains sub (pre ++ sub ++ t) = true.
Proof.
  induction pre as [|c pre IH]; simpl.
  - now rewrite contains_unfold, startswith_app.
  - rewrite IH. apply orb_true_r.
Qed.

Lemma occurrences_app_pos (sub pre t : string) :
  (1 <= occurrences sub (pre ++ sub ++ t))%nat.
Proof.
  induction pre as [|c pre IH]; simpl.
  - rewrite occurrences_unfold, startswith_app. lia.
  - lia.
Qed.

Lemma occurrences_zero_suffix (sub x t : string) :
  occurrences sub (x ++ t) = 0%nat -> occurrences sub t = 0%nat.
Proof.
  induction x as [|c x IH]; simpl; [tauto |].
  intros H. apply IH. lia.
Qed.

Lemma occurrences_zero_head (sub s : string) :
  occurrences sub s = 0%nat -> startswith sub s = false.
Proof.
  destruct s; simpl; destruct (startswith sub _); simpl; intros; (reflexivity || lia).
Qed.

(** The characters of a separator just met are passed over. *)
Lemma split_go_skip (sep x t cur : string) :
  split_go sep (x ++ t) (String.length x) cur = split_go sep t 0 cur.
Proof.
  induction x as [|c x IH]; simpl; [|exact IH].
  destruct t; reflexivity.
Qed.

(** Without a separator the text is one piece. *)
Lemma split_go_none (sep t cur : string) :
  occurrences sep t = 0%nat -> split_go sep t 0 cur = [cur ++ t].
Proof.
  revert cur; induction t as [|c t IH]; intros cur H.
  - simpl. now rewrite app_nil_r.
  - pose proof (occurrences_zero_head _ _ H) as Hs.
    cbn [split_go]. rewrite Hs.
    rewrite IH.
    + now rewrite app_assoc.
    + simpl in H. lia.
Qed.

Lemma last_cons_ne {A} (x : A) (l : list A) : l <> [] -> last (x :: l) = last l.
Proof. destruct l; [congruence | reflexivity]. Qed.

(** With one occurrence of the separator, the last piece is what follows it. *)
Lemma split_go_last_unique (c : ascii) (sep' pre t cur : string) :
  occurrences (String c sep') (pre ++ String c sep' ++ t) = 1%nat ->
  last (split_go (String c sep') (pre ++ String c sep' ++ t) 0 cur) = Some t.
Proof.
  set (sep := String c sep').
  revert cur; induction pre as [|a pre IH]; intros cur H.
  - change ("" ++ sep ++ t) with (String c (sep' ++ t)) in *.
    cbn [split_go].
    change (String c (sep' ++ t)) with (sep ++ t) at 1.
    rewrite startswith_app.
    replace (String.length sep - 1)%nat with (String.length sep') by (simpl; lia).
    rewrite split_go_skip, split_go_none; [reflexivity |].
    cbn [occurrences] in H.
    change (String c (sep' ++ t)) with (sep ++ t) in H.
    rewrite startswith_app in H.
    apply (occurrences_zero_suffix sep sep'). lia.
  - change ((String a pre) ++ sep ++ t) with (String a (pre ++ sep ++ t)) in *.
    cbn [occurrences] in H.
    pose proof (occurrences_app_pos sep pre t) as Hpos.
    destruct (startswith sep (String a (pre ++ sep ++ t))) eqn:Hs; [lia |].
    cbn [split_go]. rewrite Hs. apply IH. lia.
Qed.

Lemma split_last_unique (sep pre t : string) :
  sep <> "" ->
  occurrences sep (pre ++ sep ++ t) = 1%nat ->
  split_last sep (pre ++ sep ++ t) = Some t.
Proof.
  intros Hne H. destruct sep as [|c sep']; [congruence |].
  unfold split_last, split. simpl mbind.
  now apply split_go_last_unique.
Qed.

(** [sep] starts at no position of [b ++ t] that lies in [b]. *)
Fixpoint no_start (sep b t : string) : Prop :=
  match b with
  | EmptyString => True
  | String _ b' => startswith sep (b ++ t) = false /\ no_start sep b' t
  end.

Lemma split_go_head (c : ascii) (sep' b r cur : string) :
  no_start (String c sep') b (String c sep' ++ r) ->
  head (split_go (String c sep') (b ++ String c sep' ++ r) 0 cur) = Some (cur ++ b).
Proof.
  set (sep := String c sep').
  revert cur; induction b as [|a b IH]; intros cur H.
  - change ("" ++ sep ++ r) with (String c (sep' ++ r)).
    cbn [split_go].
    change (String c (sep' ++ r)) with (sep ++ r).
    rewrite startswith_app. simpl. now rewrite app_nil_r.
  - destruct H as [Hs Hb].
    change ((String a b) ++ sep ++ r) with (String a (b ++ sep ++ r)) in *.
    cbn [split_go]. rewrite Hs, IH by assumption.
    now rewrite app_assoc.
Qed.

Lemma split_first_before (sep b r : string) :
  sep <> "" ->
  no_start sep b (sep ++ r) ->
  split_first sep (b ++ sep ++ r) = Some b.
Proof.
  intros Hne H. destruct sep as [|c sep']; [congruence |].
  exact (split_go_head c sep' b r "" H).
Qed.

(** The last piece of a split is the end of the text. *)
Lemma split_go_last_suffix (sep s : string) (skip : nat) (cur : string) :
  exists u, last (split_go sep s skip cur) = Some u /\
    ((exists x, s = x ++ u) \/
     (exists x s2, s = x ++ s2 /\ (skip = 0%nat -> x = "") /\ u = cur ++ s2)).
Proof.
  revert skip cur; induction s as [|c s IH]; intros skip cur.
  - exists cur; split; [reflexivity |]. right. exists "", "".
    repeat split; auto. now rewrite app_nil_r.
  - destruct skip as [|k]; cbn [split_go].
    + destruct (startswith sep (String c s)).
      * destruct (IH (String.length sep - 1)%nat "") as (u & Hu & Hc).
        exists u; split.
        { rewrite last_cons_ne; [exact Hu |]. intros E; rewrite E in Hu; discriminate. }
        left. destruct Hc as [[x ->] | (x & s2 & -> & _ & ->)].
        -- now exists (String c x).
        -- now exists (String c x).
      * destruct (IH 0%nat (cur ++ String c "")) as (u & Hu & Hc).
        exists u; split; [exact Hu |].
        destruct Hc as [[x ->] | (x & s2 & -> & Hx & ->)].
        -- left. now exists (String c x).
        -- right. exists "", (String c s2). rewrite (Hx eq_refl). simpl.
           repeat split. now rewrite app_assoc.
    + destruct (IH k cur) as (u & Hu & Hc).
      exists u; split; [exact Hu |].
      destruct Hc as [[x ->] | (x & s2 & -> & _ & ->)].
      * left. now exists (String c x).
      * right. exists (String c x), s2. repeat split. discriminate.
Qed.

Lemma split_last_suffix (sep s u : string) :
  split_last sep s = Some u -> exists x, s = x ++ u.
Proof.
  unfold split_last, split. destruct sep as [|c sep']; [discriminate |].
  simpl mbind. intros H.
  destruct (split_go_last_suffix (String c sep') s 0 "") as (u' & Hu & Hc).
  rewrite H in Hu. injection Hu as <-.
  destruct Hc as [Hx | (x & s2 & -> & Hx & ->)]; [exact Hx |].
  now exists x.
Qed.

Lemma split_last_total (sep s : string) :
  sep <> "" -> exists u, split_last sep s = Some u.
Proof.
  intros Hne. destruct sep as [|c sep']; [congruence |].
  destruct (split_go_last_suffix (String c sep') s 0 "") as (u & Hu & _).
  exists u. exact Hu.
Qed.

Lemma split_go_nonempty (sep s : string) (skip : nat) (cur : string) :
  split_go sep s skip cur <> [].
Proof.
  revert skip cur; induction s as [|c s IH]; intros skip cur; [discriminate |].
  cbn [split_go]. destruct skip; [| apply IH].
  destruct (startswith sep (String c s)); [discriminate | apply IH].
Qed.

Lemma split_first_total (sep s : string) :
  sep <> "" -> exists u, split_first sep s = Some u.
Proof.
  intros Hne. destruct sep as [|c sep']; [congruence |].
  unfold split_first, split. simpl.
  destruct (split_go (String c sep') s 0 "") as [|u l] eqn:E.
  - now apply split_go_nonempty in E.
  - now exists u.
Qed.

End PyStrFacts.

(** ** Facts about the fixed patterns *)

Module ReFacts.
Import PyStr Re PyStrFacts.

#[local] Arguments String.append !s1 s2 : simpl nomatch.

(** The text ["_v" d1 d2 d3]. *)
Definition v3 (d1 d2 d3 : ascii) : string :=
  String "_" (String "v" (String d1 (String d2 (String d3 "")))).

Lemma search_v3_unfold (s : string) :
  search_v3 s =
  match match_v3 s with
  | Some m => Some m
  | None =>
      match s with
      | EmptyString => None
      | String _ s' => search_v3 s'
      end
  end.
Proof. destruct s; reflexivity. Qed.

Lemma match_v3_here (d1 d2 d3 : ascii) (rest : string) :
  is_digit d1 = true -> is_digit d2 = true -> is_digit d3 = true ->
  match_v3 (v3 d1 d2 d3 ++ rest) = Some (v3 d1 d2 d3).
Proof. intros H1 H2 H3. simpl. now rewrite H1, H2, H3. Qed.

(** A match cannot begin in a text without one and run into a version
    token that follows it: the token starts with an underscore. *)
Lemma match_v3_straddle (c : ascii) (b : string) (d1 d2 d3 : ascii) (rest : string) :
  match_v3 (String c b) = None ->
  match_v3 (String c b ++ v3 d1 d2 d3 ++ rest) = None.
Proof.
  assert (E1 : Ascii.eqb "_" "v" = false) by reflexivity.
  assert (E2 : is_digit "_" = false) by reflexivity.
  assert (E3 : is_digit "v" = false) by reflexivity.
  destruct b as [|c2 [|c3 [|c4 [|c5 b5]]]]; intros H;
    cbn [match_v3 append v3] in *;
    rewrite ?E1, ?E2, ?E3, ?andb_false_r; cbn [andb];
    try reflexivity; try exact H.
Qed.

Lemma search_v3_first (base : string) (d1 d2 d3 : ascii) (rest : string) :
  is_digit d1 = true -> is_digit d2 = true -> is_digit d3 = true ->
  search_v3 base = None ->
  search_v3 (base ++ v3 d1 d2 d3 ++ rest) = Some (v3 d1 d2 d3).
Proof.
  intros H1 H2 H3. induction base as [|c b IH]; intros Hb.
  - change ("" ++ v3 d1 d2 d3 ++ rest) with (v3 d1 d2 d3 ++ rest).
    now rewrite search_v3_unfold, match_v3_here.
  - rewrite search_v3_unfold in Hb.
    destruct (match_v3 (String c b)) eqn:Hm; [discriminate |].
    rewrite search_v3_unfold, match_v3_straddle by exact Hm.
    simpl. apply IH. exact Hb.
Qed.

Lemma startswith_v3 (d1 d2 d3 : ascii) (s : string) :
  is_digit d1 = true -> is_digit d2 = true -> is_digit d3 = true ->
  startswith (v3 d1 d2 d3) s = true -> match_v3 s = Some (v3 d1 d2 d3).
Proof.
  intros H1 H2 H3 H. apply startswith_true in H as [t ->].
  now apply match_v3_here.
Qed.

Lemma no_start_v3 (base : string) (d1 d2 d3 : ascii) (rest : string) :
  is_digit d1 = true -> is_digit d2 = true -> is_digit d3 = true ->
  search_v3 base = None ->
  no_start (v3 d1 d2 d3) base (v3 d1 d2 d3 ++ rest).
Proof.
  intros H1 H2 H3. induction base as [|c b IH]; intros Hb; [exact I |].
  rewrite search_v3_unfold in Hb.
  destruct (match_v3 (String c b)) eqn:Hm; [discriminate |].
  split; [| now apply IH].
  destruct (startswith _ _) eqn:Hs; [| reflexivity].
  apply startswith_v3 in Hs; try assumption.
  rewrite match_v3_straddle in Hs by exact Hm. discriminate.
Qed.

Lemma match_v3_shape (s m : string) :
  match_v3 s = Some m ->
  exists d1 d2 d3, m = v3 d1 d2 d3 /\
    is_digit d1 = true /\ is_digit d2 = true /\ is_digit d3 = true.
Proof.
  destruct s as [|c1 [|c2 [|d1 [|d2 [|d3 r]]]]]; try discriminate.
  cbn [match_v3].
  destruct (Ascii.eqb_spec c1 "_") as [->|]; [| discriminate].
  destruct (Ascii.eqb_spec c2 "v") as [->|]; [| discriminate].
  destruct (is_digit d1) eqn:H1; [| discriminate].
  destruct (is_digit d2) eqn:H2; [| discriminate].
  destruct (is_digit d3) eqn:H3; [| discriminate].
  cbn [andb]. intros [= <-]. now exists d1, d2, d3.
Qed.

Lemma search_v3_shape (s m : string) :
  search_v3 s = Some m ->
  exists d1 d2 d3, m = v3 d1 d2 d3 /\
    is_digit d1 = true /\ is_digit d2 = true /\ is_digit d3 = true.
Proof.
  induction s as [|c s IH]; rewrite search_v3_unfold.
  - discriminate.
  - destruct (match_v3 (String c s)) eqn:E; [| exact IH].
    intros [= <-]. now apply match_v3_shape in E.
Qed.

Lemma search_v3_suffix (x u : string) :
  search_v3 (x ++ u) = None -> search_v3 u = None.
Proof.
  induction x as [|c x IH]; [tauto |].
  intros H. change (String c x ++ u) with (String c (x ++ u)) in H.
  rewrite search_v3_unfold in H.
  destruct (match_v3 (String c (x ++ u))); [discriminate | now apply IH].
Qed.

End ReFacts.

(** ** [set_version]: the semantic name *)

Module ExtractFacts.
Import PyStr Re PyStrFacts ReFacts Publish.

#[local] Arguments String.append !s1 s2 : simpl nomatch.

Ltac msimpl :=
  unfold mbind, mret, M_bind, M_ret, result_bind, result_ret,
    bind, ret, lift, emit, call, ask, raise in *.

Lemma entities_nonempty (e : string) : In e GEO_CONSTANT_ENTITIES -> e <> "".
Proof. simpl. intuition (subst; discriminate). Qed.

(** An entity that does not occur leaves the name as it is. *)
Lemma extract_step_absent (publish_name : string) (st : pyname) (e : string)
    (h : list event) :
  contains e publish_name = false ->
  extract_step publish_name st e h = (Ok st, h).
Proof. intros H. unfold extract_step. now rewrite H. Qed.

Lemma for_fold_absent (publish_name : string) (l : list string) (st : pyname)
    (h : list event) :
  (forall e, In e l -> contains e publish_name = false) ->
  for_fold l (extract_step publish_name) st h = (Ok st, h).
Proof.
  revert st h; induction l as [|e l IH]; intros st h H; [reflexivity |].
  cbn [for_fold]. unfold bind.
  rewrite extract_step_absent by (apply H; now left).
  apply IH. intros e' He'. apply H. now right.
Qed.

(** Every round returns, whatever the name was before. *)
Lemma extract_step_total (publish_name : string) (st : pyname) (e : string)
    (h : list event) :
  e <> "" ->
  exists st' h', extract_step publish_name st e h = (Ok st', h').
Proof.
  intros Hne. unfold extract_step.
  destruct (contains e publish_name); [| now exists st, h].
  destruct (split_last_total e publish_name Hne) as [u Hu].
  msimpl. unfold py_split_last. rewrite Hu.
  destruct (search_v3 u) as [m|] eqn:Hm; [| eauto].
  apply search_v3_shape in Hm as (d1 & d2 & d3 & -> & _).
  destruct (split_first_total (v3 d1 d2 d3) u) as [b Hb]; [discriminate |].
  unfold py_split_first. rewrite Hb. eauto.
Qed.

Lemma for_fold_app {E X S} (l1 l2 : list X) (body : S -> X -> M E S) (s : S)
    (h : list E) :
  for_fold (l1 ++ l2)%list body s h =
  match for_fold l1 body s h with
  | (Ok s', h') => for_fold l2 body s' h'
  | (Raise e, h') => (Raise e, h')
  end.
Proof.
  revert s h; induction l1 as [|x l1 IH]; intros s h; [reflexivity |].
  cbn [for_fold app]. unfold bind.
  destruct (body s x h) as [[s'|e] h']; [apply IH | reflexivity].
Qed.

Lemma for_fold_total (publish_name : string) (l : list string) (st : pyname)
    (h : list event) :
  (forall e, In e l -> e <> "") ->
  exists st' h', for_fold l (extract_step publish_name) st h = (Ok st', h').
Proof.
  revert st h; induction l as [|e l IH]; intros st h H; [now exists st, h |].
  cbn [for_fold]. unfold bind.
  destruct (extract_step_total publish_name st e h) as (st1 & h1 & ->).
  { apply H. now left. }
  apply IH. intros e' He'. apply H. now right.
Qed.

(** The round of the one entity that occurs, once, before a base name and a
    version token. *)
Lemma extract_step_token (tok pre base : string) (d1 d2 d3 : ascii)
    (rest : string) (st : pyname) (h : list event) :
  tok <> "" ->
  occurrences tok (pre ++ tok ++ base ++ v3 d1 d2 d3 ++ rest) = 1%nat ->
  is_digit d1 = true -> is_digit d2 = true -> is_digit d3 = true ->
  search_v3 base = None ->
  extract_step (pre ++ tok ++ base ++ v3 d1 d2 d3 ++ rest) st tok h =
  (Ok (Name (PyStr.tail tok ++ base ++ "_")), h).
Proof.
  intros Hne Hocc H1 H2 H3 Hb. unfold extract_step.
  rewrite contains_app. msimpl. unfold py_split_last.
  rewrite split_last_unique by assumption.
  rewrite search_v3_first by assumption.
  unfold py_split_first.
  rewrite split_first_before; [reflexivity | discriminate |].
  now apply no_start_v3.
Qed.

(** Without a version token every entity that occurs logs the error and
    empties the name. *)
Lemma extract_step_no_version (publish_name e : string) (st : pyname)
    (h : list event) :
  e <> "" ->
  contains e publish_name = true ->
  search_v3 publish_name = None ->
  extract_step publish_name st e h =
  (Ok (Name ""), (h ++ [Log "error" "Naming Convention error"])%list).
Proof.
  intros Hne Hc Hv. unfold extract_step. rewrite Hc.
  destruct (split_last_total e publish_name Hne) as [u Hu].
  msimpl. unfold py_split_last. rewrite Hu.
  apply split_last_suffix in Hu as [x ->].
  now rewrite (search_v3_suffix _ _ Hv).
Qed.

Lemma for_fold_no_version (publish_name : string) (l : list string)
    (st : pyname) (h : list event) :
  (forall e, In e l -> e <> "") ->
  search_v3 publish_name = None ->
  exists h', for_fold l (extract_step publish_name) st h = 
             (Ok (if existsb (fun e => contains e publish_name) l
                  then Name "" else st), (h ++ h')%list) /\
    (existsb (fun e => contains e publish_name) l = true ->
     In (Log "error" "Naming Convention error") h').
Proof.
  intros Hne Hv. revert st h; induction l as [|e l IH]; intros st h.
  - exists []. rewrite List.app_nil_r. split; [reflexivity | discriminate].
  - cbn [for_fold existsb]. unfold bind.
    assert (He : e <> "") by (apply Hne; now left).
    assert (Hl : forall e', In e' l -> e' <> "") by (intros; apply Hne; now right).
    destruct (contains e publish_name) eqn:Hc.
    + rewrite extract_step_no_version by assumption.
      destruct (IH Hl (Name "") (h ++ [Log "error" "Naming Convention error"])%list)
        as (h' & -> & _).
      exists (Log "error" "Naming Convention error" :: h'). split.
      * rewrite <- List.app_assoc. simpl.
        now destruct (existsb _ l).
      * intros _. now left.
    + rewrite extract_step_absent by assumption.
      destruct (IH Hl st h) as (h' & -> & Hin).
      exists h'. split; [reflexivity | exact Hin].
Qed.

(** C2 as the specification words it: any entity token, followed by a base
    name and [_v] with exactly three digits, gives the token without its
    underscore, the base name and an underscore. *)
Definition extraction_as_specified : Prop :=
  forall (pre tok base : string) (d1 d2 d3 : ascii) (rest : string),
    In tok GEO_CONSTANT_ENTITIES ->
    is_digit d1 = true -> is_digit d2 = true -> is_digit d3 = true ->
    match rest with String c _ => is_digit c = false | EmptyString => True end ->
    fst (extract_name (pre ++ tok ++ base ++ v3 d1 d2 d3 ++ rest) []) =
    Ok (Name (PyStr.tail tok ++ base ++ "_")).

(** C2, counterexample: in [a_fxgeo_b_v001_animgeo_c] the token [_fxgeo_] is
    followed by the base name [b] and [_v001], yet the loop goes on to
    [_animgeo_], finds no version after it and leaves the empty name. *)
Lemma extraction_two_tokens :
  extract_name "a_fxgeo_b_v001_animgeo_c" [] =
    (Ok (Name ""), [Log "error" "Naming Convention error"]) /\
  ~ extraction_as_specified.
Proof.
  split; [reflexivity |].
  intros H.
  specialize (H "a" "_fxgeo_" "b" "0"%char "0"%char "1"%char "_animgeo_c").
  assert (Hin : In "_fxgeo_" GEO_CONSTANT_ENTITIES) by (simpl; tauto).
  specialize (H Hin eq_refl eq_refl eq_refl eq_refl).
  vm_compute in H. discriminate.
Qed.

(** C2, amended: when the token is the last entity of the list that occurs
    in the publish name and occurs there once, and the base name holds no
    [_v] with three digits, the name is the token without its leading
    underscore, the base name and an underscore; when a token occurs and the
    publish name holds no [_v] with three digits, the error is logged and
    the name is empty. *)
Theorem extract_name_spec :
  (forall (before after : list string) (tok pre base : string)
          (d1 d2 d3 : ascii) (rest : string) (h : list event),
      GEO_CONSTANT_ENTITIES = (before ++ tok :: after)%list ->
      (forall e, In e after ->
         contains e (pre ++ tok ++ base ++ v3 d1 d2 d3 ++ rest) = false) ->
      occurrences tok (pre ++ tok ++ base ++ v3 d1 d2 d3 ++ rest) = 1%nat ->
      is_digit d1 = true -> is_digit d2 = true -> is_digit d3 = true ->
      search_v3 base = None ->
      fst (extract_name (pre ++ tok ++ base ++ v3 d1 d2 d3 ++ rest) h) =
      Ok (Name (PyStr.tail tok ++ base ++ "_"))) /\
  (forall (publish_name tok : string) (h : list event),
      In tok GEO_CONSTANT_ENTITIES ->
      contains tok publish_name = true ->
      search_v3 publish_name = None ->
      exists h', extract_name publish_name h = (Ok (Name ""), (h ++ h')%list) /\
                 In (Log "error" "Naming Convention error") h').
Proof.
  split.
  - intros before after tok pre base d1 d2 d3 rest h HG Hafter Hocc H1 H2 H3 Hb.
    unfold extract_name. rewrite HG.
    assert (Hne : forall e, In e (before ++ tok :: after)%list -> e <> "").
    { rewrite <- HG. apply entities_nonempty. }
    rewrite for_fold_app.
    destruct (for_fold_total (pre ++ tok ++ base ++ v3 d1 d2 d3 ++ rest)
                before StrType h) as (st1 & h1 & ->).
    { intros e He. apply Hne, in_or_app. now left. }
    cbn [for_fold]. unfold bind.
    rewrite extract_step_token; try assumption.
    + now rewrite for_fold_absent.
    + apply Hne, in_or_app. right. now left.
  - intros publish_name tok h Hin Hc Hv.
    destruct (for_fold_no_version publish_name GEO_CONSTANT_ENTITIES StrType h
                entities_nonempty Hv) as (h' & Hrun & Hlog).
    assert (Hex : existsb (fun e => contains e publish_name)
                          GEO_CONSTANT_ENTITIES = true).
    { apply existsb_exists. now exists tok. }
    exists h'. unfold extract_name. rewrite Hrun, Hex. split; [reflexivity | auto].
Qed.

(** The example of the source comment, and a name without a version. *)
Lemma extract_name_spec_witness :
  fst (extract_name "pub1_MMtrackalembic_boulder_v001" []) =
    Ok (Name "MMtrackalembic_boulder_") /\
  exists h', extract_name "pub1_fxgeo_rock" [] = (Ok (Name ""), ([] ++ h')%list) /\
             In (Log "error" "Naming Convention error") h'.
Proof.
  split.
  - apply (proj1 extract_name_spec []
             ["_MMtrackfbx_"; "_fxgeo_"; "_lgtgeo_"; "_RAtrackalembic_";
              "_animgeo_"; "_layoutgeo_"]
             "_MMtrackalembic_" "pub1" "boulder" "0"%char "0"%char "1"%char "" []);
      try reflexivity.
    intros e He. simpl in He.
    repeat (destruct He as [<- | He]; [reflexivity |]). destruct He.
  - apply (proj2 extract_name_spec "pub1_fxgeo_rock" "_fxgeo_" []);
      [simpl; tauto | reflexivity | reflexivity].
Defined.

End ExtractFacts.

(** ** [set_version]: the next version number *)

Module VersionFacts.
Import PyStr Re PyStrFacts ReFacts Publish ExtractFacts.

#[local] Arguments String.append !s1 s2 : simpl nomatch.

Lemma take_digits_all (s : string) : all_digits (take_digits s) = true.
Proof.
  induction s as [|c s IH]; [reflexivity |].
  simpl. destruct (is_digit c) eqn:E; [| reflexivity].
  simpl. now rewrite E, IH.
Qed.

Lemma digit_val_nonneg (c : ascii) : is_digit c = true -> 0 <= digit_val c.
Proof.
  unfold is_digit, digit_val. intros H.
  apply andb_true_iff in H as [H _]. apply Nat.leb_le in H. lia.
Qed.

Lemma int_of_digits_from_nonneg (s : string) (acc : Z) :
  all_digits s = true -> 0 <= acc -> 0 <= int_of_digits_from acc s.
Proof.
  revert acc; induction s as [|c s IH]; intros acc H Hacc; [exact Hacc |].
  simpl in *. apply andb_true_iff in H as [Hc Hs].
  apply IH; [exact Hs |]. pose proof (digit_val_nonneg c Hc). lia.
Qed.

Lemma search_digits_all (s d : string) :
  search_digits s = Some d -> all_digits d = true.
Proof.
  induction s as [|c s IH]; [discriminate |].
  cbn [search_digits]. destruct (is_digit c) eqn:E; [| exact IH].
  intros [= <-]. apply (take_digits_all (String c s)).
Qed.

Lemma search_vplus_unfold (s : string) :
  search_vplus s =
  match match_vplus s with
  | Some m => Some m
  | None =>
      match s with
      | EmptyString => None
      | String _ s' => search_vplus s'
      end
  end.
Proof. destruct s; reflexivity. Qed.

(** A code that holds [_v] and a digit has a version token, and the token
    holds digits. *)
Lemma search_vplus_found (pre : string) (d : ascii) (rest : string) :
  is_digit d = true ->
  exists m, search_vplus (pre ++ "_v" ++ String d rest) = Some m.
Proof.
  intros Hd. induction pre as [|c pre IH].
  - rewrite search_vplus_unfold. simpl. rewrite Hd. eauto.
  - change (String c pre ++ "_v" ++ String d rest)
      with (String c (pre ++ "_v" ++ String d rest)).
    rewrite search_vplus_unfold.
    destruct (match_vplus _); eauto.
Qed.

Lemma search_vplus_digits (s m : string) :
  search_vplus s = Some m ->
  exists ds, search_digits m = Some ds.
Proof.
  induction s as [|c s IH]; rewrite search_vplus_unfold.
  - discriminate.
  - destruct (match_vplus (String c s)) eqn:E; [| exact IH].
    intros [= <-].
    destruct s as [|c2 [|d1 r]]; try discriminate.
    cbn [match_vplus] in E.
    destruct (Ascii.eqb_spec c "_") as [->|]; [| discriminate].
    destruct (Ascii.eqb_spec c2 "v") as [->|]; [| discriminate].
    destruct (is_digit d1) eqn:Hd; [| discriminate].
    cbn [andb] in E. injection E as <-.
    cbn [search_digits]. 
    change (is_digit "_") with false. change (is_digit "v") with false.
    cbn iota. rewrite Hd. eauto.
Qed.

Lemma py_max_spec (v : Z) (vs : list Z) :
  In (py_max v vs) (v :: vs) /\ Forall (fun x => x <= py_max v vs) (v :: vs).
Proof.
  unfold py_max. revert v; induction vs as [|w vs IH]; intros v.
  - simpl. split; [now left | repeat constructor; lia].
  - cbn [fold_left]. destruct (IH (Z.max v w)) as [Hin Hall].
    inversion Hall as [|? ? Hm Hrest]; subst.
    split.
    + destruct Hin as [Hin | Hin]; [| right; right; exact Hin].
      destruct (Z.max_spec v w) as [[_ E] | [_ E]].
      * right. left. rewrite <- Hin. symmetry. exact E.
      * left. rewrite <- Hin. symmetry. exact E.
    + repeat constructor; try lia; exact Hrest.
Qed.

Section Versions.

Variable re_search : string -> string -> result (option string).
Variable shotgun_find : list event -> string -> result (list PublishedFile).

Lemma try_version_nonneg (name : pyname) (p : PublishedFile) (x : Z) :
  try_version re_search name p = Ok (Some x) -> 0 <= x.
Proof.
  unfold try_version.
  destruct name as [|pat]; [discriminate |].
  destruct (code p) as [c|]; [| discriminate].
  unfold mbind, result_bind.
  destruct (re_search pat c) as [[g|]|]; try discriminate.
  destruct (String.eqb g ""); [discriminate |].
  destruct (search_vplus c) as [m|]; [| discriminate].
  destruct (search_digits m) as [ds|] eqn:E; [| discriminate].
  intros [= <-]. apply int_of_digits_from_nonneg; [| lia].
  now apply search_digits_all in E.
Qed.

Lemma collect_versions_from (name : pyname) (l : list PublishedFile)
    (acc : list Z) (x : Z) :
  In x (fold_left
          (fun versions publishes =>
             match try_version re_search name publishes with
             | Ok (Some version) => (versions ++ [version])%list
             | _ => versions
             end) l acc) <->
  In x acc \/ exists p, In p l /\ try_version re_search name p = Ok (Some x).
Proof.
  revert acc; induction l as [|p l IH]; intros acc.
  - simpl. split; [tauto | intros [H | (p & [] & _)]; exact H].
  - cbn [fold_left]. rewrite IH. split.
    + intros [H | (q & Hq & Hv)].
      * destruct (try_version re_search name p) as [[v|]|] eqn:E; try tauto.
        apply in_app_or in H as [H | [<- | []]]; [tauto |].
        right. exists p. split; [now left | exact E].
      * right. exists q. split; [now right | exact Hv].
    + intros [H | (q & [<- | Hq] & Hv)].
      * left. destruct (try_version re_search name p) as [[v|]|]; try exact H.
        apply in_or_app. now left.
      * left. rewrite Hv. apply in_or_app. right. now left.
      * right. now exists q.
Qed.

Lemma collect_versions_spec (name : pyname) (l : list PublishedFile) (x : Z) :
  In x (collect_versions re_search name l) <->
  exists p, In p l /\ try_version re_search name p = Ok (Some x).
Proof.
  unfold collect_versions. rewrite collect_versions_from. simpl. tauto.
Qed.

(** The code matches the semantic name: the search finds a non-empty text. *)
Definition name_matches (name : pyname) (c : string) : Prop :=
  exists pattern g,
    name = Name pattern /\ re_search pattern c = Ok (Some g) /\ g <> "".

(** The code holds [_v] followed by a digit. *)
Definition has_version_token (c : string) : Prop :=
  exists pre d rest, c = pre ++ "_v" ++ String d rest /\ is_digit d = true.

Lemma try_version_found (name : pyname) (p : PublishedFile) (c : string) :
  code p = Some c -> name_matches name c -> has_version_token c ->
  exists x, try_version re_search name p = Ok (Some x).
Proof.
  intros Hc (pat & g & -> & Hs & Hg) (pre & d & rest & -> & Hd).
  unfold try_version. rewrite Hc. unfold mbind, result_bind. rewrite Hs.
  apply String.eqb_neq in Hg. rewrite Hg.
  destruct (search_vplus_found pre d rest Hd) as [m Hm]. rewrite Hm.
  destruct (search_vplus_digits _ _ Hm) as [ds ->]. eauto.
Qed.

Lemma next_version_spec (versions : list Z) (l : list PublishedFile) :
  Forall (fun x => 0 <= x) versions ->
  (l <> [] -> versions <> [] ->
     In (next_version versions l - 1) versions /\
     Forall (fun x => x <= next_version versions l - 1) versions) /\
  (l = [] \/ versions = [] -> next_version versions l = 1).
Proof.
  intros Hpos. split.
  - intros Hl Hv. destruct l as [|p l]; [congruence |].
    destruct versions as [|v vs]; [congruence |].
    cbn [next_version]. cbv zeta.
    destruct (py_max_spec v vs) as [Hin Hall].
    assert (0 <= py_max v vs).
    { rewrite List.Forall_forall in Hpos. now apply Hpos. }
    destruct (Z.eqb_spec (py_max v vs + 1) 0); [lia |].
    replace (py_max v vs + 1 - 1) with (py_max v vs) by lia.
    split; assumption.
  - intros [-> | ->]; [reflexivity |]. destruct l; reflexivity.
Qed.

(** C1: with the list [l] the query returns, [set_version] returns the
    largest collected version number plus one when some returned code matches
    the semantic name and holds a version token, and 1 when the list is empty
    or no code gives a version number. *)
Theorem set_version_spec (publish_name : string) (item : Item)
    (h h1 : list event) (name : pyname) (l : list PublishedFile) :
  extract_name publish_name h = (Ok name, h1) ->
  shotgun_find h1 (context_task item) = Ok l ->
  exists v,
    set_version re_search shotgun_find publish_name item h =
      (Ok v, (h1 ++ [ShotgunFind (context_task item)])%list) /\
    (forall x, In x (collect_versions re_search name l) <->
               exists p, In p l /\ try_version re_search name p = Ok (Some x)) /\
    ((exists p c, In p l /\ code p = Some c /\
                  name_matches name c /\ has_version_token c) ->
     In (v - 1) (collect_versions re_search name l) /\
     Forall (fun x => x <= v - 1) (collect_versions re_search name l)) /\
    (l = [] \/ collect_versions re_search name l = [] -> v = 1).
Proof.
  intros Hname Hfind.
  exists (next_version (collect_versions re_search name l) l).
  assert (Hpos : Forall (fun x => 0 <= x) (collect_versions re_search name l)).
  { apply List.Forall_forall. intros x Hx.
    apply collect_versions_spec in Hx as (p & _ & Hp).
    now apply try_version_nonneg in Hp. }
  destruct (next_version_spec _ l Hpos) as [Hmax Hone].
  split; [| split; [| split]].
  - unfold set_version. msimpl. now rewrite Hname, Hfind.
  - apply collect_versions_spec.
  - intros (p & c & Hp & Hc & Hm & Ht).
    destruct (try_version_found name p c Hc Hm Ht) as [x Hx].
    assert (Hin : In x (collect_versions re_search name l)).
    { apply collect_versions_spec. now exists p. }
    apply Hmax.
    + intros ->. destruct Hp.
    + intros E. rewrite E in Hin. destruct Hin.
  - exact Hone.
Qed.

End Versions.

(** Three publishes of the task, two of them of the boulder: versions 1 and
    12 are collected and 13 is the next one. *)
Lemma set_version_spec_witness :
  exists v,
    set_version literal_search
      (fun _ _ => Ok [ {| code := Some "pub1_MMtrackalembic_boulder_v001.abc";
                          version_number := Some 1 |};
                       {| code := Some "pub1_MMtrackalembic_boulder_v012.abc";
                          version_number := Some 12 |};
                       {| code := Some "pub1_MMtrackalembic_rock_v040.abc";
                          version_number := Some 40 |} ])
      "pub1_MMtrackalembic_boulder_v001.abc"
      {| properties := ∅; context_task := "task"; parent_properties := ∅ |} [] =
    (Ok v, [ShotgunFind "task"]) /\ v = 13.
Proof.
  destruct (set_version_spec literal_search
              (fun _ _ => Ok [ {| code := Some "pub1_MMtrackalembic_boulder_v001.abc";
                                  version_number := Some 1 |};
                               {| code := Some "pub1_MMtrackalembic_boulder_v012.abc";
                                  version_number := Some 12 |};
                               {| code := Some "pub1_MMtrackalembic_rock_v040.abc";
                                  version_number := Some 40 |} ])
              "pub1_MMtrackalembic_boulder_v001.abc"
              {| properties := ∅; context_task := "task"; parent_properties := ∅ |}
              [] [] (Name "MMtrackalembic_boulder_") _ eq_refl eq_refl)
    as (v & Hrun & _).
  exists v. split; [exact Hrun |].
  vm_compute in Hrun. now injection Hrun as <-.
Defined.

End VersionFacts.
(** ** The loader: [generate_actions] *)

Module ActionFacts.
Import PyStr PyStrFacts Loader.

Ltac msimpl :=
  unfold mbind, mret, M_bind, M_ret, result_bind, result_ret,
    bind, ret, lift, emit, call, ask, raise in *.





End ActionFacts.
(** ** Floats made from integers *)

Module FloatFacts.

Lemma shr_1_nonneg (mrs : shr_record) : 0 <= shr_m mrs -> 0 <= shr_m (shr_1 mrs).
Proof.
  destruct mrs as [m r s]. simpl.
  destruct m as [|p|p]; [| destruct p |]; simpl; lia.
Qed.

Lemma iter_shr_1_nonneg (p : positive) (mrs : shr_record) :
  0 <= shr_m mrs -> 0 <= shr_m (SpecFloat.iter_pos shr_1 p mrs).
Proof.
  revert mrs; induction p as [p IH|p IH|]; intros mrs Hm; simpl.
  - apply IH, IH. now apply shr_1_nonneg.
  - apply IH, IH. exact Hm.
  - now apply shr_1_nonneg.
Qed.

Lemma shr_nonneg (mrs : shr_record) (e n : Z) :
  0 <= shr_m mrs -> 0 <= shr_m (fst (shr mrs e n)).
Proof.
  intros Hm. unfold shr. destruct n; simpl; try exact Hm.
  now apply iter_shr_1_nonneg.
Qed.

Lemma shr_fexp_nonneg (prec emax m e : Z) (l : location) :
  0 <= m -> 0 <= shr_m (fst (shr_fexp prec emax m e l)).
Proof.
  intros Hm. unfold shr_fexp. apply shr_nonneg.
  destruct l as [|[]]; exact Hm.
Qed.

Lemma round_nearest_even_nonneg (m : Z) (l : location) :
  0 <= m -> 0 <= round_nearest_even m l.
Proof.
  intros Hm. destruct l as [|[]]; simpl; try lia.
  destruct (Z.even m); lia.
Qed.

Lemma binary_round_aux_not_nan (prec emax : Z) (s : bool) (m e : Z) (l : location) :
  0 <= m -> binary_round_aux prec emax s m e l <> S754_nan.
Proof.
  intros Hm. unfold binary_round_aux.
  pose proof (shr_fexp_nonneg prec emax m e l Hm) as H1.
  destruct (shr_fexp prec emax m e l) as [mrs' e'].
  simpl in H1.
  pose proof (shr_fexp_nonneg prec emax
                (round_nearest_even (shr_m mrs') (loc_of_shr_record mrs')) e'
                loc_Exact (round_nearest_even_nonneg _ _ H1)) as H2.
  destruct (shr_fexp prec emax _ e' loc_Exact) as [mrs'' e''].
  simpl in H2.
  destruct (shr_m mrs'') as [|p|p]; try discriminate; [| lia].
  destruct (e'' <=? emax - prec); discriminate.
Qed.

Lemma float_of_int_not_nan (z : Z) : float_of_int z <> S754_nan.
Proof.
  unfold float_of_int, binary_normalize.
  destruct z as [|p|p]; [discriminate | |];
    unfold binary_round; destruct (shl_align _ _ _) as [mz ez];
    apply binary_round_aux_not_nan; lia.
Qed.

Lemma float_eq_refl (x : float) : x <> S754_nan -> float_eq x x = true.
Proof.
  intros Hx. unfold float_eq, SFeqb, SFcompare.
  destruct x as [s|s| |s m e]; try congruence.
  - now destruct s.
  - rewrite Z.compare_refl.
    assert (Hc : Pos.compare_cont Eq m m = Eq) by apply Pos.compare_cont_refl.
    destruct s; rewrite Hc; reflexivity.
Qed.

(** An integer turned into a float is equal to itself. *)
Lemma float_of_int_eq_refl (z : Z) :
  float_eq (float_of_int z) (float_of_int z) = true.
Proof. apply float_eq_refl, float_of_int_not_nan. Qed.

End FloatFacts.

(** ** The loader: missing files and the offset of a cache *)

Module LoaderFacts.
Import PyStr Loader FloatFacts.

Ltac msimpl :=
  unfold mbind, mret, M_bind, M_ret, result_bind, result_ret,
    bind, ret, lift, emit, call, ask, raise in *.

(** C10: when the publish path is not on disk, the reference and the import
    action raise after the debug line and before any command to the scene:
    the history holds the log entry and nothing else. *)
Theorem execute_action_missing_file (H : host) (name : string) (params : pyval)
    (sg_publish_data : publish_data) (path : string) (h : list event) :
  name = "reference" \/ name = "import" ->
  get_publish_path H sg_publish_data = Ok path ->
  os_path_exists H (h ++ [LogDebug "Execute action called"])%list path = false ->
  execute_action H name params sg_publish_data h =
    (Raise (Exception ("File not found on disk - '" ++ path ++ "'")),
     (h ++ [LogDebug "Execute action called"])%list).
Proof.
  intros Hname Hpath Hdisk. unfold execute_action. msimpl. rewrite Hpath.
  destruct Hname as [-> | ->]; cbn [String.eqb Ascii.eqb Bool.eqb].
  - unfold _create_reference. msimpl. now rewrite Hdisk.
  - unfold _do_import. msimpl. now rewrite Hdisk.
Qed.

Lemma execute_action_missing_file_witness :
  execute_action (example_host false 1001 1001) "reference" VNone example_publish [] =
    (Raise (Exception "File not found on disk - '/proj/pub_fxgeo_rock_v001.abc'"),
     [LogDebug "Execute action called"]) /\
  execute_action (example_host false 1001 1001) "import" VNone example_publish [] =
    (Raise (Exception "File not found on disk - '/proj/pub_fxgeo_rock_v001.abc'"),
     [LogDebug "Execute action called"]).
Proof.
  split.
  - apply (execute_action_missing_file (example_host false 1001 1001) "reference"
             VNone example_publish "/proj/pub_fxgeo_rock_v001.abc" []);
      [now left | reflexivity | reflexivity].
  - apply (execute_action_missing_file (example_host false 1001 1001) "import"
             VNone example_publish "/proj/pub_fxgeo_rock_v001.abc" []);
      [now right | reflexivity | reflexivity].
Defined.

Lemma float_eq_sym_true (x y : float) : float_eq x y = true -> float_eq y x = true.
Proof.
  unfold float_eq, SFeqb.
  destruct x as [sx|sx| |sx mx ex], y as [sy|sy| |sy my ey];
    cbn [SFcompare]; intros Hxy; try discriminate; try reflexivity;
    try (destruct sx; discriminate); try (destruct sy; discriminate);
    try (destruct sx, sy; (discriminate || reflexivity)).
  assert (Hsame : ex = ey /\ mx = my).
  { destruct sx, sy; try discriminate;
      destruct (Z.compare_spec ex ey); try discriminate;
      destruct (Pos.compare_cont Eq mx my) eqn:Hm; try discriminate;
      split; try assumption; now apply Pos.compare_eq. }
  destruct Hsame as [-> ->].
  rewrite Z.compare_refl.
  assert (Hc : Pos.compare_cont Eq my my = Eq) by apply Pos.compare_cont_refl.
  destruct sx, sy; try discriminate; rewrite Hc; reflexivity.
Qed.

(** C8: whatever start frame the cache gives, the last comparison yields a
    number equal to [float(first_frame)], the value of the constant
    assignment; so does the whole computation from the archive whenever it
    yields an offset, and it does yield one when the archive opens and a
    top-level transform gives a start frame other than zero. *)
Theorem select_offset_is_first_frame :
  (forall (first_frame : Z) (start_frame : float),
      exists v, select_offset first_frame (VFloat start_frame) = Ok (VFloat v) /\
                float_eq v (offset_as_specified first_frame) = true) /\
  (forall (H : host) (file_path : string) (first_frame : Z) (h h' : list event)
          (abc_offset : pyval),
      offset_from_archive H file_path first_frame h = (Ok abc_offset, h') ->
      exists v, abc_offset = VFloat v /\
                float_eq v (offset_as_specified first_frame) = true) /\
  (forall (H : host) (file_path : string) (first_frame : Z) (h : list event)
          (archive : abc_archive) (t : float),
      open_archive H h file_path = Ok archive ->
      temp_start_frame_of (children archive) = VFloat t ->
      float_eq t float_zero = false ->
      exists v, offset_from_archive H file_path first_frame h = (Ok (VFloat v), h) /\
                float_eq v (offset_as_specified first_frame) = true).
Proof.
  assert (Hsel : forall first_frame start_frame,
             exists v, select_offset first_frame (VFloat start_frame) = Ok (VFloat v) /\
                       float_eq v (offset_as_specified first_frame) = true).
  { intros ff sf. unfold select_offset, offset_as_specified. simpl.
    destruct (float_eq (float_of_int ff) sf) eqn:E; simpl.
    - exists sf. split; [reflexivity | now apply float_eq_sym_true].
    - exists (float_of_int ff). split; [reflexivity | apply float_of_int_eq_refl]. }
  assert (Hany : forall first_frame start_frame abc_offset,
             select_offset first_frame start_frame = Ok abc_offset ->
             exists v, abc_offset = VFloat v /\
                       float_eq v (offset_as_specified first_frame) = true).
  { intros ff sf off Hs.
    destruct sf as [| z | f | s | l | | o]; try discriminate.
    - unfold select_offset in Hs. simpl in Hs.
      unfold offset_as_specified.
      destruct (float_eq (float_of_int ff) (float_of_int z)) eqn:E; simpl in Hs;
        injection Hs as <-; eexists; split; try reflexivity.
      + now apply float_eq_sym_true.
      + apply float_of_int_eq_refl.
    - destruct (Hsel ff f) as (v & Hv & Heq). rewrite Hv in Hs.
      injection Hs as <-. now exists v. }
  split; [exact Hsel | split].
  - intros H file ff h h' off Hrun. unfold offset_from_archive in Hrun. msimpl.
    destruct (open_archive H h file) as [a|]; [| discriminate].
    destruct (py_eq_zero (temp_start_frame_of (children a))).
    + destruct (default_sample_time_1 a) as [sf|]; [| discriminate].
      destruct (max_num_samples_1 a); [| discriminate].
      destruct (select_offset ff (VFloat sf)) eqn:Hs; [| discriminate].
      injection Hrun as <- <-. eapply Hany; eauto.
    + destruct (select_offset ff (temp_start_frame_of (children a))) eqn:Hs;
        [| discriminate].
      injection Hrun as <- <-. eapply Hany; eauto.
  - intros H file ff h a t Ha Ht Hz. unfold offset_from_archive. msimpl.
    rewrite Ha, Ht. cbn [py_eq_zero]. rewrite Hz.
    destruct (Hsel ff t) as (v & -> & Heq). now exists v.
Qed.

Lemma select_offset_is_first_frame_witness :
  exists v, offset_from_archive (example_host true 1001 1) "a.abc" 1001 [] =
              (Ok (VFloat v), []) /\
            float_eq v (offset_as_specified 1001) = true.
Proof.
  eapply (proj2 (proj2 select_offset_is_first_frame)
            (example_host true 1001 1) "a.abc" 1001 []); reflexivity.
Defined.

End LoaderFacts.

(** ** The loader: the offset written on the nodes of a cache *)

Module OffsetFacts.
Import PyStr Loader FloatFacts LoaderFacts.

(** Node [n] carries [abc_start_frame] and its value equals the playback
    start. *)
Definition stamped (H : host) (h : list event) (first_frame : Z) (n : string) : bool :=
  match attributeQuery_exists H h "abc_start_frame" n with
  | Ok true =>
      match getAttr H h (n ++ ".abc_start_frame") with
      | Ok v =>
          match py_float v with
          | Ok f => float_eq f (float_of_int first_frame)
          | Raise _ => false
          end
      | Raise _ => false
      end
  | _ => false
  end.

(** The host answers the questions about [abc_start_frame] on [n]. *)
Definition node_readable (H : host) (h : list event) (n : string) : Prop :=
  exists b, attributeQuery_exists H h "abc_start_frame" n = Ok b /\
    (b = true -> exists v f, getAttr H h (n ++ ".abc_start_frame") = Ok v /\
                             py_float v = Ok f).

(** Node [r] has a long name under which the host knows an [offset]. *)
Definition bears_offset (H : host) (h : list event) (r : string) : bool :=
  match ls_long H h r with
  | Ok (full :: _) =>
      match attributeQuery_exists H h "offset" full with
      | Ok b => b
      | Raise _ => false
      end
  | _ => false
  end.

Definition offset_events (abc_offset : pyval) (r : string) : list event :=
  [PrintOffset r abc_offset; SetAttr (r ++ ".offset") abc_offset].

Definition is_offset_event (e : event) : Prop :=
  match e with
  | PrintOffset _ _ | SetAttr _ _ => True
  | _ => False
  end.

(** Printing and setting an attribute do not change what the host says
    about names and about which attributes exist. *)
Definition steady (H : host) (h : list event) : Prop :=
  forall evs, Forall is_offset_event evs ->
    (forall r, ls_long H (h ++ evs)%list r = ls_long H h r) /\
    (forall a n, attributeQuery_exists H (h ++ evs)%list a n =
                 attributeQuery_exists H h a n).

(** The host can name [r], says whether it has an [offset], and accepts the
    value when it has. *)
Definition node_writable (H : host) (h : list event) (abc_offset : pyval)
    (r : string) : Prop :=
  exists full rest b,
    ls_long H h r = Ok (full :: rest) /\
    attributeQuery_exists H h "offset" full = Ok b /\
    (b = true -> forall evs, Forall is_offset_event evs ->
       setAttr H (h ++ evs)%list (r ++ ".offset") abc_offset = Ok tt).

Lemma find_atrib_loop (H : host) (h : list event) (first_frame : Z)
    (refs : list string) (acc : bool) :
  (forall n, In n refs -> node_readable H h n) ->
  for_fold refs
    (fun atrib nodes =>
       ex ← ask (fun h => attributeQuery_exists H h "abc_start_frame" nodes);
       if (ex : bool) then
         v ← ask (fun h => getAttr H h (nodes ++ ".abc_start_frame"));
         f ← lift (py_float v);
         if float_eq f (float_of_int first_frame) then mret true else mret atrib
       else mret atrib)
    acc h = (Ok (acc || existsb (stamped H h first_frame) refs), h).
Proof.
  revert acc; induction refs as [|n refs IH]; intros acc Hr.
  - simpl. now rewrite orb_false_r.
  - cbn [for_fold existsb]. msimpl.
    destruct (Hr n (or_introl eq_refl)) as (b & Hb & Hval).
    unfold stamped at 1. rewrite Hb.
    assert (Hrest : forall m, In m refs -> node_readable H h m)
      by (intros; apply Hr; now right).
    destruct b.
    + destruct (Hval eq_refl) as (v & f & -> & ->).
      destruct (float_eq f (float_of_int first_frame)).
      * specialize (IH true Hrest). msimpl. rewrite IH.
        now rewrite orb_true_r.
      * specialize (IH acc Hrest). msimpl. now rewrite IH.
    + specialize (IH acc Hrest). msimpl. now rewrite IH.
Qed.

Lemma find_atrib_spec (H : host) (file_path : string) (h : list event)
    (first_frame : Z) (refs : list string) :
  referenceQuery_nodes H h file_path = Ok refs ->
  (forall n, In n refs -> node_readable H h n) ->
  find_atrib H file_path first_frame h =
    (Ok (existsb (stamped H h first_frame) refs), h).
Proof.
  intros Hq Hr. unfold find_atrib. msimpl. rewrite Hq.
  pose proof (find_atrib_loop H h first_frame refs false Hr) as Hl.
  msimpl. exact Hl.
Qed.

Lemma offset_events_ok (abc_offset : pyval) (r : string) :
  Forall is_offset_event (offset_events abc_offset r).
Proof. repeat constructor. Qed.

Lemma bind_ok {E A B} (m : M E A) (k : A -> M E B) (h h' : list E) (a : A) :
  m h = (Ok a, h') -> bind m k h = k a h'.
Proof. intros Hm. unfold bind. now rewrite Hm. Qed.

Lemma offset_round_spec (H : host) (h : list event) (abc_offset : pyval)
    (r : string) (evs : list event) :
  steady H h ->
  Forall is_offset_event evs ->
  node_writable H h abc_offset r ->
  offset_round H abc_offset r (h ++ evs)%list =
  (Ok tt,
   (h ++ (evs ++ (if bears_offset H h r then offset_events abc_offset r else [])))%list).
Proof.
  intros Hst Hev (full & rest & b & Hfull & Hb & Hset).
  destruct (Hst evs Hev) as [Hls Haq].
  unfold offset_round. msimpl. rewrite Hls, Hfull, Haq, Hb.
  unfold bears_offset. rewrite Hfull, Hb.
  destruct b.
  - assert (Hev1 : Forall is_offset_event (evs ++ [PrintOffset r abc_offset])%list).
    { apply Forall_app. split; [exact Hev | repeat constructor]. }
    rewrite <- (List.app_assoc h evs [PrintOffset r abc_offset]).
    rewrite (Hset eq_refl _ Hev1).
    unfold offset_events. now rewrite <- !List.app_assoc.
  - now rewrite List.app_nil_r.
Qed.

Lemma apply_offset_loop (H : host) (h : list event) (abc_offset : pyval)
    (refs : list string) (evs : list event) :
  steady H h ->
  Forall is_offset_event evs ->
  (forall r, In r refs -> node_writable H h abc_offset r) ->
  for_each refs (offset_round H abc_offset) (h ++ evs)%list =
  (Ok tt,
   (h ++ evs ++
    flat_map (fun r => if bears_offset H h r then offset_events abc_offset r else [])
             refs)%list).
Proof.
  intros Hst. revert evs; induction refs as [|r refs IH]; intros evs Hev Hw.
  - simpl. now rewrite List.app_nil_r.
  - cbn [for_each flat_map].
    rewrite (bind_ok _ _ _ _ _ (offset_round_spec H h abc_offset r evs Hst Hev
                                  (Hw r (or_introl eq_refl)))).
    rewrite IH.
    + now rewrite <- !List.app_assoc.
    + apply Forall_app. split; [exact Hev |].
      destruct (bears_offset H h r); [apply offset_events_ok | constructor].
    + intros m Hm. apply Hw. now right.
Qed.

Lemma apply_offset_spec (H : host) (file_path : string) (h : list event)
    (abc_offset : pyval) (refs : list string) :
  steady H h ->
  referenceQuery_nodes H h file_path = Ok refs ->
  (forall r, In r refs -> node_writable H h abc_offset r) ->
  apply_offset H file_path abc_offset h =
  (Ok tt,
   (h ++ flat_map (fun r => if bears_offset H h r
                            then offset_events abc_offset r else []) refs)%list).
Proof.
  intros Hst Hq Hw. unfold apply_offset, mbind, M_bind. cbv beta.
  rewrite (bind_ok _ _ h h refs) by (unfold ask; now rewrite Hq).
  pose proof (apply_offset_loop H h abc_offset refs [] Hst (List.Forall_nil _) Hw) as Hl.
  rewrite List.app_nil_r in Hl. exact Hl.
Qed.

(** *** The start frame of the cache *)

(** A top-level object of the archive that the hook reads: a transform that
    is true. *)
Definition read_transform (c : abc_child) : bool := is_xform c && xform_truthy c.

(** The start frame of the cache as its time sampling gives it, [c] being the
    last top-level transform: 24 times the first sample time of [c], and,
    when that is 0.0, sample 1 of the default time sampling of the archive
    (the hook then also asks for the number of samples). *)
Definition cache_start_frame (archive : abc_archive) (c : abc_child) : result float :=
  let of_transform := float_mul (float_of_int 24) (sample_time_0 c) in
  if float_eq of_transform float_zero then
    match default_sample_time_1 archive, max_num_samples_1 archive with
    | Ok start_frame, Ok _ => Ok start_frame
    | Raise e, _ => Raise e
    | Ok _, Raise e => Raise e
    end
  else Ok of_transform.

(** The comparison of the playback start with the start frame of the cache:
    the start frame of the cache when the two are equal, the playback start
    when they differ. *)
Definition compared_offset (first_frame : Z) (start_frame : float) : float :=
  if float_eq (float_of_int first_frame) start_frame
  then start_frame
  else float_of_int first_frame.

Lemma temp_start_frame_unread (cs : list abc_child) (temp : pyval) :
  (forall x, In x cs -> read_transform x = false) ->
  fold_left
    (fun temp_start_frame child =>
       if is_xform child then
         if xform_truthy child
         then VFloat (float_mul (float_of_int 24) (sample_time_0 child))
         else temp_start_frame
       else temp_start_frame)
    cs temp = temp.
Proof.
  revert temp; induction cs as [|x cs IH]; intros temp Hcs; [reflexivity |].
  cbn [fold_left].
  assert (Hx : read_transform x = false) by (apply Hcs; now left).
  unfold read_transform in Hx.
  destruct (is_xform x), (xform_truthy x); try discriminate Hx;
    apply IH; intros y Hy; apply Hcs; now right.
Qed.

Lemma temp_start_frame_last (before after : list abc_child) (c : abc_child) :
  read_transform c = true ->
  (forall x, In x after -> read_transform x = false) ->
  temp_start_frame_of (before ++ c :: after) =
    VFloat (float_mul (float_of_int 24) (sample_time_0 c)).
Proof.
  intros Hc Hafter. unfold temp_start_frame_of.
  rewrite fold_left_app. cbn [fold_left].
  unfold read_transform in Hc. apply andb_true_iff in Hc as [-> ->].
  now apply temp_start_frame_unread.
Qed.

Lemma select_offset_compared (first_frame : Z) (start_frame : float) :
  select_offset first_frame (VFloat start_frame) =
    Ok (VFloat (compared_offset first_frame start_frame)).
Proof.
  unfold select_offset, compared_offset, py_float, mbind, result_bind.
  now destruct (float_eq (float_of_int first_frame) start_frame).
Qed.

(** The offset read from the archive is the comparison of the playback start
    with the start frame of the cache. *)
Lemma offset_from_archive_spec (H : host) (file_path : string) (first_frame : Z)
    (h : list event) (archive : abc_archive) (before after : list abc_child)
    (c : abc_child) (start_frame : float) :
  open_archive H h file_path = Ok archive ->
  children archive = (before ++ c :: after)%list ->
  read_transform c = true ->
  (forall x, In x after -> read_transform x = false) ->
  cache_start_frame archive c = Ok start_frame ->
  offset_from_archive H file_path first_frame h =
    (Ok (VFloat (compared_offset first_frame start_frame)), h).
Proof.
  intros Hopen Hchildren Hc Hafter Hstart.
  unfold offset_from_archive, mbind, M_bind. cbv beta.
  rewrite (bind_ok _ _ h h archive) by (unfold ask; now rewrite Hopen).
  rewrite Hchildren, (temp_start_frame_last before after c Hc Hafter).
  unfold cache_start_frame in Hstart. cbn [py_eq_zero].
  destruct (float_eq (float_mul (float_of_int 24) (sample_time_0 c)) float_zero).
  - destruct (default_sample_time_1 archive) as [start|e]; [| discriminate].
    destruct (max_num_samples_1 archive) as [n|e]; [| discriminate].
    injection Hstart as ->.
    unfold bind, lift, mret, M_ret, ret.
    now rewrite select_offset_compared.
  - injection Hstart as <-.
    unfold bind, lift, mret, M_ret, ret.
    now rewrite select_offset_compared.
Qed.

(** Without a transform to read, the start frame stays the type [float] and
    the comparison raises. *)
Lemma offset_from_archive_unread (H : host) (file_path : string) (first_frame : Z)
    (h : list event) (archive : abc_archive) :
  open_archive H h file_path = Ok archive ->
  (forall x, In x (children archive) -> read_transform x = false) ->
  offset_from_archive H file_path first_frame h = (Raise TypeError, h).
Proof.
  intros Hopen Hnone.
  unfold offset_from_archive, mbind, M_bind. cbv beta.
  rewrite (bind_ok _ _ h h archive) by (unfold ask; now rewrite Hopen).
  unfold temp_start_frame_of.
  now rewrite (temp_start_frame_unread (children archive) VFloatType Hnone).
Qed.

(** C3: a reference or an import whose file ends in [.abc] runs the offset
    block; the block writes one offset on every node of the reference that
    has an [offset] attribute.  When some node carries [abc_start_frame]
    equal to the playback start the offset is 0.0.  Otherwise the archive is
    opened and the offset is the comparison of the playback start with the
    start frame of the cache, read from the time sampling of the last
    top-level transform (or from the default time sampling when that gives
    0.0): the start frame of the cache when the two are equal, the playback
    start when they differ.  An archive without a transform to read gives no
    offset: the comparison raises and nothing is written. *)
Theorem abc_offset_spec :
  (forall (H : host) (path namespace file_path : string)
          (sg_publish_data : publish_data) (h : list event),
      os_path_exists H h path = true ->
      make_namespace sg_publish_data h = (Ok namespace, h) ->
      endswith ".abc" file_path = true ->
      (cmds_file_reference H h path namespace = Ok (VStr file_path) ->
       _create_reference H path sg_publish_data h =
         abc_block H file_path (h ++ [FileReference path namespace])%list) /\
      (cmds_file_import H h path namespace = Ok (VStr file_path) ->
       _do_import H path sg_publish_data h =
         abc_block H file_path (h ++ [FileImport path namespace])%list)) /\
  (forall (H : host) (file_path : string) (h : list event) (minTime : float)
          (first_frame : Z) (refs : list string),
      playback_minTime H h = Ok minTime ->
      int_of_float minTime = Ok first_frame ->
      referenceQuery_nodes H h file_path = Ok refs ->
      (forall n, In n refs -> node_readable H h n) ->
      existsb (stamped H h first_frame) refs = true ->
      steady H h ->
      (forall r, In r refs -> node_writable H h (VFloat float_zero) r) ->
      abc_block H file_path h =
        (Ok tt,
         (h ++ flat_map
                 (fun r =>
                    if bears_offset H h r
                    then offset_events (VFloat float_zero) r
                    else [])
                 refs)%list)) /\
  (forall (H : host) (file_path : string) (h : list event) (minTime : float)
          (first_frame : Z) (refs : list string) (archive : abc_archive)
          (before after : list abc_child) (c : abc_child) (start_frame : float),
      playback_minTime H h = Ok minTime ->
      int_of_float minTime = Ok first_frame ->
      referenceQuery_nodes H h file_path = Ok refs ->
      (forall n, In n refs -> node_readable H h n) ->
      existsb (stamped H h first_frame) refs = false ->
      open_archive H h file_path = Ok archive ->
      children archive = (before ++ c :: after)%list ->
      read_transform c = true ->
      (forall x, In x after -> read_transform x = false) ->
      cache_start_frame archive c = Ok start_frame ->
      steady H h ->
      (forall r, In r refs ->
         node_writable H h (VFloat (compared_offset first_frame start_frame)) r) ->
      abc_block H file_path h =
        (Ok tt,
         (h ++ flat_map
                 (fun r =>
                    if bears_offset H h r
                    then offset_events
                           (VFloat (compared_offset first_frame start_frame)) r
                    else [])
                 refs)%list)) /\
  (forall (H : host) (file_path : string) (h : list event) (minTime : float)
          (first_frame : Z) (refs : list string) (archive : abc_archive),
      playback_minTime H h = Ok minTime ->
      int_of_float minTime = Ok first_frame ->
      referenceQuery_nodes H h file_path = Ok refs ->
      (forall n, In n refs -> node_readable H h n) ->
      existsb (stamped H h first_frame) refs = false ->
      open_archive H h file_path = Ok archive ->
      (forall x, In x (children archive) -> read_transform x = false) ->
      abc_block H file_path h = (Raise TypeError, h)).
Proof.
  split; [| split; [| split]].
  - intros H path ns fp sg h Hdisk Hns Hend. split; intros Hfile.
    + unfold _create_reference, mbind, M_bind. cbv beta.
      rewrite (bind_ok _ _ h h true) by (unfold ask; now rewrite Hdisk).
      cbn [negb]. rewrite (bind_ok _ _ _ _ _ Hns).
      rewrite (bind_ok _ _ h (h ++ [FileReference path ns])%list (VStr fp))
        by (unfold call; now rewrite Hfile).
      unfold py_endswith, lift. rewrite Hend.
      now rewrite (bind_ok _ _ _ _ (true, fp) eq_refl).
    + unfold _do_import, mbind, M_bind. cbv beta.
      rewrite (bind_ok _ _ h h true) by (unfold ask; now rewrite Hdisk).
      cbn [negb]. rewrite (bind_ok _ _ _ _ _ Hns).
      rewrite (bind_ok _ _ h (h ++ [FileImport path ns])%list (VStr fp))
        by (unfold call; now rewrite Hfile).
      unfold py_endswith, lift. rewrite Hend.
      now rewrite (bind_ok _ _ _ _ (true, fp) eq_refl).
  - intros H fp h pm ff refs Hpm Hff Hq Hread Hat Hst Hw.
    unfold abc_block, mbind, M_bind. cbv beta.
    rewrite (bind_ok _ _ h h pm) by (unfold ask; now rewrite Hpm).
    rewrite (bind_ok _ _ h h ff) by (unfold lift; now rewrite Hff).
    rewrite (bind_ok _ _ _ _ _ (find_atrib_spec H fp h ff refs Hq Hread)).
    rewrite Hat.
    rewrite (bind_ok _ _ h h (VFloat float_zero) eq_refl).
    now apply apply_offset_spec.
  - intros H fp h pm ff refs archive before after c start
      Hpm Hff Hq Hread Hat Hopen Hchildren Hc Hafter Hstart Hst Hw.
    unfold abc_block, mbind, M_bind. cbv beta.
    rewrite (bind_ok _ _ h h pm) by (unfold ask; now rewrite Hpm).
    rewrite (bind_ok _ _ h h ff) by (unfold lift; now rewrite Hff).
    rewrite (bind_ok _ _ _ _ _ (find_atrib_spec H fp h ff refs Hq Hread)).
    rewrite Hat.
    rewrite (bind_ok _ _ _ _ _
               (offset_from_archive_spec H fp ff h archive before after c start
                  Hopen Hchildren Hc Hafter Hstart)).
    now apply apply_offset_spec.
  - intros H fp h pm ff refs archive Hpm Hff Hq Hread Hat Hopen Hnone.
    unfold abc_block, mbind, M_bind. cbv beta.
    rewrite (bind_ok _ _ h h pm) by (unfold ask; now rewrite Hpm).
    rewrite (bind_ok _ _ h h ff) by (unfold lift; now rewrite Hff).
    rewrite (bind_ok _ _ _ _ _ (find_atrib_spec H fp h ff refs Hq Hread)).
    rewrite Hat. unfold bind at 1.
    now rewrite (offset_from_archive_unread H fp ff h archive Hopen Hnone).
Qed.

(** The example scene, whose cache starts at frame 48 (24 times the sample
    time 2).  Stamped with the playback start 1001, the Alembic node gets the
    offset 0.0; stamped with frame 1, it gets the playback start 1001.0,
    which differs from 48; with the playback starting at 48 and the stamp 1,
    it gets 48.0, the start frame of the cache. *)
Lemma abc_offset_spec_witness :
  abc_block (example_host true 1001 1001) "a.abc" [] =
    (Ok tt, [PrintOffset "fxgeo_rock:abcNode" (VFloat float_zero);
             SetAttr "fxgeo_rock:abcNode.offset" (VFloat float_zero)]) /\
  abc_block (example_host true 1001 1) "a.abc" [] =
    (Ok tt, [PrintOffset "fxgeo_rock:abcNode" (VFloat (float_of_int 1001));
             SetAttr "fxgeo_rock:abcNode.offset" (VFloat (float_of_int 1001))]) /\
  abc_block (example_host true 48 1) "a.abc" [] =
    (Ok tt, [PrintOffset "fxgeo_rock:abcNode"
               (VFloat (float_mul (float_of_int 24) (float_of_int 2)));
             SetAttr "fxgeo_rock:abcNode.offset"
               (VFloat (float_mul (float_of_int 24) (float_of_int 2)))]).
Proof.
  assert (Hsteady : forall m s, steady (example_host true m s) []).
  { intros m s evs _. split; reflexivity. }
  assert (Hread : forall m s n, node_readable (example_host true m s) [] n).
  { intros m s n. eexists. split; [reflexivity |]. intros _.
    eexists _, _. split; reflexivity. }
  assert (Hwrite : forall m s v r, node_writable (example_host true m s) [] v r).
  { intros m s v r. eexists _, _, _. split; [reflexivity |].
    split; [reflexivity |]. reflexivity. }
  pose (transform := {| is_xform := true; xform_truthy := true;
                        sample_time_0 := float_of_int 2 |}).
  pose (archive := {| children := [transform];
                      default_sample_time_1 := Ok (float_of_int 1);
                      max_num_samples_1 := Ok 10 |}).
  split; [| split].
  - apply (proj1 (proj2 abc_offset_spec) (example_host true 1001 1001) "a.abc" []
             (float_of_int 1001) 1001 ["fxgeo_rock:root"; "fxgeo_rock:abcNode"]);
      try reflexivity; auto.
  - apply (proj1 (proj2 (proj2 abc_offset_spec)) (example_host true 1001 1) "a.abc" []
             (float_of_int 1001) 1001 ["fxgeo_rock:root"; "fxgeo_rock:abcNode"]
             archive [] [] transform
             (float_mul (float_of_int 24) (float_of_int 2)));
      try reflexivity; auto.
    intros x [].
  - apply (proj1 (proj2 (proj2 abc_offset_spec)) (example_host true 48 1) "a.abc" []
             (float_of_int 48) 48 ["fxgeo_rock:root"; "fxgeo_rock:abcNode"]
             archive [] [] transform
             (float_mul (float_of_int 24) (float_of_int 2)));
      try reflexivity; auto.
    intros x [].
Defined.

End OffsetFacts.

(** ** The namespace manager *)

Module NamespaceFacts.
Import PyStr NamespaceManager OffsetFacts.

Ltac msimpl :=
  unfold mbind, mret, M_bind, M_ret, result_bind, result_ret,
    bind, ret, lift, emit, call, ask, raise in *.

(** [m] only adds events with property [P] to the history. *)
Definition adds {E A} (P : E -> Prop) (m : M E A) : Prop :=
  forall h r h', m h = (r, h') ->
    exists evs, h' = (h ++ evs)%list /\ Forall P evs.

Lemma adds_nothing {E A} (P : E -> Prop) (m : M E A) :
  (forall h, snd (m h) = h) -> adds P m.
Proof.
  intros Hm h r h' Hrun. exists []. rewrite List.app_nil_r.
  split; [| constructor]. specialize (Hm h). now rewrite Hrun in Hm.
Qed.

Lemma adds_ret {E A} (P : E -> Prop) (a : A) : adds P (ret a : M E A).
Proof. now apply adds_nothing. Qed.

Lemma adds_raise {E A} (P : E -> Prop) (e : exn) : adds P (raise e : M E A).
Proof. now apply adds_nothing. Qed.

Lemma adds_ask {E A} (P : E -> Prop) (f : list E -> result A) : adds P (ask f).
Proof. now apply adds_nothing. Qed.

Lemma adds_lift {E A} (P : E -> Prop) (r : result A) : adds P (lift r : M E A).
Proof. now apply adds_nothing. Qed.

Lemma adds_emit {E} (P : E -> Prop) (e : E) : P e -> adds P (emit e).
Proof.
  intros He h r h' Hrun. injection Hrun as <- <-.
  exists [e]. split; [reflexivity | now repeat constructor].
Qed.

Lemma adds_call {E A} (P : E -> Prop) (e : E) (f : list E -> result A) :
  P e -> adds P (call e f).
Proof.
  intros He h r h' Hrun. injection Hrun as <- <-.
  exists [e]. split; [reflexivity | now repeat constructor].
Qed.

Lemma adds_bind {E A B} (P : E -> Prop) (m : M E A) (k : A -> M E B) :
  adds P m -> (forall a, adds P (k a)) -> adds P (bind m k).
Proof.
  intros Hm Hk h r h' Hrun. unfold bind in Hrun.
  destruct (m h) as [[a|e] h1] eqn:E1; destruct (Hm _ _ _ E1) as (evs1 & -> & HP1).
  - destruct (Hk a _ _ _ Hrun) as (evs2 & -> & HP2).
    exists (evs1 ++ evs2)%list. rewrite List.app_assoc. split; [reflexivity |].
    apply Forall_app. now split.
  - injection Hrun as <- <-. now exists evs1.
Qed.

Lemma adds_for_each {E X} (P : E -> Prop) (l : list X) (body : X -> M E unit) :
  (forall x, adds P (body x)) -> adds P (for_each l body).
Proof.
  intros Hbody. induction l as [|x l IH]; cbn [for_each].
  - apply adds_ret.
  - apply adds_bind; [apply Hbody | intros _; exact IH].
Qed.

(** A loop whose rounds all succeed, each adding the events [evs x]. *)
Lemma for_each_all_ok {E X} (l : list X) (body : X -> M E unit)
    (evs : X -> list E) :
  (forall x h, In x l -> body x h = (Ok tt, (h ++ evs x)%list)) ->
  forall h, for_each l body h = (Ok tt, (h ++ flat_map evs l)%list).
Proof.
  induction l as [|x l IH]; intros Hbody h.
  - simpl. now rewrite List.app_nil_r.
  - cbn [for_each flat_map].
    rewrite (bind_ok _ _ _ _ _ (Hbody x h (or_introl eq_refl))).
    rewrite IH by (intros; apply Hbody; now right).
    now rewrite List.app_assoc.
Qed.

Lemma flat_map_filter {X Y} (p : X -> bool) (g : X -> Y) (l : list X) :
  flat_map (fun x => if p x then [g x] else []) l = map g (List.filter p l).
Proof.
  induction l as [|x l IH]; [reflexivity |].
  simpl. destruct (p x); simpl; now rewrite IH.
Qed.

Lemma flat_map_single {X Y} (g : X -> Y) (l : list X) :
  flat_map (fun x => [g x]) l = map g l.
Proof. induction l as [|x l IH]; [reflexivity |]. simpl. now rewrite IH. Qed.

(** The namespace of an edit, when the event is one. *)
Definition edits_to (name : string) (e : event) : Prop :=
  match e with
  | FileEditNamespace _ ns => ns = name
  | _ => True
  end.

Definition is_edit (e : event) : Prop :=
  match e with
  | FileEditNamespace _ _ => True
  | _ => False
  end.

Lemma validate_spec (self : window) (h : list event) :
  (naming_convention self = "" \/ apply_option self = "" \/
   namespace_user_text self = "" ->
   exists text, validate self h = (Ok false, (h ++ [Warning "FWX Warning" text])%list)) /\
  (naming_convention self <> "" -> apply_option self <> "" ->
   namespace_user_text self <> "" -> validate self h = (Ok true, h)).
Proof.
  unfold validate, falsy. msimpl.
  destruct (String.eqb_spec (naming_convention self) "") as [Hn|Hn];
    destruct (String.eqb_spec (apply_option self) "") as [Ha|Ha];
    destruct (String.eqb_spec (namespace_user_text self) "") as [Ht|Ht];
    cbn [orb]; split; intros; try tauto; eauto.
Qed.

(** C7: with a missing choice or an empty text [validate] shows the warning
    and returns [False], and the tool edits nothing; whatever the host does,
    every namespace the tool writes is the convention, an underscore and the
    typed text, and it writes only when all three are given; with all three
    given, each targeted reference gets that namespace. *)
Theorem process_naming_convention_spec :
  (forall (H : host) (self : window) (h : list event),
      naming_convention self = "" \/ apply_option self = "" \/
      namespace_user_text self = "" ->
      exists text,
        validate self h = (Ok false, (h ++ [Warning "FWX Warning" text])%list) /\
        process_naming_convention H self h =
          (Ok tt, (h ++ [Warning "FWX Warning" text])%list)) /\
  (forall (H : host) (self : window) (h h' : list event) (r : result unit),
      process_naming_convention H self h = (r, h') ->
      exists evs, h' = (h ++ evs)%list /\
        Forall (edits_to (naming_convention self ++ "_" ++ namespace_user_text self))
               evs /\
        (Exists is_edit evs ->
         naming_convention self <> "" /\ apply_option self <> "" /\
         namespace_user_text self <> "")) /\
  (forall (H : host) (self : window) (h : list event) (files : list string),
      naming_convention self <> "" -> namespace_user_text self <> "" ->
      apply_option self = "All nodes" ->
      file_list H h = Ok files ->
      (forall h1 f, file_edit_namespace H h1 f
                      (naming_convention self ++ "_" ++ namespace_user_text self) = Ok tt) ->
      process_naming_convention H self h =
        (Ok tt,
         (h ++ map (fun f => FileEditNamespace f
                      (naming_convention self ++ "_" ++ namespace_user_text self))
                   (List.filter (fun f => negb (endswith ".ma" f)) files)
            ++ [WindowClose])%list)) /\
  (forall (H : host) (self : window) (h : list event) (nodes : list string)
          (reference_of : string -> string),
      naming_convention self <> "" -> namespace_user_text self <> "" ->
      apply_option self = "Only Selected Nodes" ->
      ls_selection H h = Ok nodes ->
      (forall h1 n, referenceQuery_filename H h1 n = Ok (reference_of n)) ->
      (forall h1 f, file_edit_namespace H h1 f
                      (naming_convention self ++ "_" ++ namespace_user_text self) = Ok tt) ->
      process_naming_convention H self h =
        (Ok tt,
         (h ++ map (fun n => FileEditNamespace (reference_of n)
                      (naming_convention self ++ "_" ++ namespace_user_text self))
                   nodes
            ++ [WindowClose])%list)).
Proof.
  split; [| split; [| split]].
  - intros H self h Hbad.
    destruct (proj1 (validate_spec self h) Hbad) as [text Hv].
    exists text. split; [exact Hv |].
    unfold process_naming_convention, mbind, M_bind. cbv beta.
    now rewrite (bind_ok _ _ _ _ _ Hv).
  - intros H self h h' r Hrun.
    set (name := naming_convention self ++ "_" ++ namespace_user_text self) in *.
    destruct (String.eqb_spec (naming_convention self) "") as [Hn|Hn];
      [| destruct (String.eqb_spec (apply_option self) "") as [Ha|Ha];
         [| destruct (String.eqb_spec (namespace_user_text self) "") as [Ht|Ht]]].
    1-3: (destruct (proj1 (validate_spec self h)) as [text Hv]; [tauto |];
          unfold process_naming_convention, mbind, M_bind in Hrun; cbv beta in Hrun;
          rewrite (bind_ok _ _ _ _ _ Hv) in Hrun; injection Hrun as <- <-;
          eexists; split; [reflexivity |]; split;
          [repeat constructor | intros Hex; inversion Hex as [? ? He | ? ? He]; inversion He]).
    assert (Hadds : adds (edits_to name) (process_naming_convention H self)).
    { unfold process_naming_convention, validate, mbind, mret, M_bind, M_ret.
      cbv beta. fold name.
      apply adds_bind.
      - repeat match goal with
               | |- adds _ (if ?b then _ else _) => destruct b
               | |- adds _ (bind _ _) => apply adds_bind; [| intros ?]
               | |- adds _ (ret _) => apply adds_ret
               | |- adds _ (emit _) => apply adds_emit; exact I
               end.
      - intros ok.
        repeat match goal with
               | |- adds _ (if ?b then _ else _) => destruct b
               | |- adds _ (bind _ _) => apply adds_bind; [| intros ?]
               | |- adds _ (for_each _ _) => apply adds_for_each; intros ?
               | |- adds _ (ret _) => apply adds_ret
               | |- adds _ (ask _) => apply adds_ask
               | |- adds _ (emit _) => apply adds_emit; exact I
               | |- adds _ (call _ _) => apply adds_call; reflexivity
               end. }
    destruct (Hadds _ _ _ Hrun) as (evs & -> & HP). exists evs. auto.
  - intros H self h files Hn Ht Ha Hfiles Hedit.
    assert (Hao : apply_option self <> "") by (rewrite Ha; discriminate).
    unfold process_naming_convention, mbind, M_bind. cbv beta.
    rewrite (bind_ok _ _ _ _ _ (proj2 (validate_spec self h) Hn Hao Ht)).
    rewrite Ha. cbn [String.eqb Ascii.eqb Bool.eqb].
    set (name := naming_convention self ++ "_" ++ namespace_user_text self) in *.
    unfold bind at 1. unfold bind at 1, ask. rewrite Hfiles.
    rewrite (for_each_all_ok files _
               (fun f => if negb (endswith ".ma" f)
                         then [FileEditNamespace f name] else [])).
    + unfold emit.
      rewrite (flat_map_filter (fun f => negb (endswith ".ma" f))
                 (fun f => FileEditNamespace f name)).
      now rewrite <- List.app_assoc.
    + intros f h0 _. destruct (negb (endswith ".ma" f)).
      * unfold call. now rewrite Hedit.
      * now rewrite List.app_nil_r.
  - intros H self h nodes reference_of Hn Ht Ha Hsel Href Hedit.
    assert (Hao : apply_option self <> "") by (rewrite Ha; discriminate).
    unfold process_naming_convention, mbind, M_bind. cbv beta.
    rewrite (bind_ok _ _ _ _ _ (proj2 (validate_spec self h) Hn Hao Ht)).
    rewrite Ha. cbn [String.eqb Ascii.eqb Bool.eqb].
    set (name := naming_convention self ++ "_" ++ namespace_user_text self) in *.
    unfold bind at 1. unfold bind at 1, ask. rewrite Hsel.
    rewrite (for_each_all_ok nodes _
               (fun n => [FileEditNamespace (reference_of n) name])).
    + unfold emit.
      rewrite (flat_map_single (fun n => FileEditNamespace (reference_of n) name)).
      now rewrite <- List.app_assoc.
    + intros n h0 _. unfold bind, ask, call. now rewrite Href, Hedit.
Qed.

(** The example scene: with the text missing only the warning appears; with
    all three given every file but the Maya scene gets [fxgeo_rock]. *)
Lemma process_naming_convention_spec_witness :
  (exists text,
     validate {| naming_convention := "fxgeo"; apply_option := "All nodes";
                 namespace_user_text := "" |} [] =
       (Ok false, [Warning "FWX Warning" text]) /\
     process_naming_convention example_host
       {| naming_convention := "fxgeo"; apply_option := "All nodes";
          namespace_user_text := "" |} [] =
       (Ok tt, [Warning "FWX Warning" text])) /\
  process_naming_convention example_host
    {| naming_convention := "fxgeo"; apply_option := "All nodes";
       namespace_user_text := "rock" |} [] =
    (Ok tt, [FileEditNamespace "/proj/rock.abc" "fxgeo_rock";
             FileEditNamespace "/proj/tree.abc" "fxgeo_rock"; WindowClose]).
Proof.
  split.
  - apply (proj1 process_naming_convention_spec example_host
             {| naming_convention := "fxgeo"; apply_option := "All nodes";
                namespace_user_text := "" |} []).
    right. right. reflexivity.
  - apply (proj1 (proj2 (proj2 process_naming_convention_spec)) example_host
             {| naming_convention := "fxgeo"; apply_option := "All nodes";
                namespace_user_text := "rock" |} []
             ["/proj/scene.ma"; "/proj/rock.abc"; "/proj/tree.abc"]);
      try reflexivity; discriminate.
Defined.

End NamespaceFacts.

(** ** The publish plugins: naming checks *)

Module NamingFacts.
Import PyStr Publish OffsetFacts NamespaceFacts.

#[local] Arguments String.append !s1 s2 : simpl nomatch.

(** A loop whose rounds all succeed: the value is a fold and the events are
    those of the rounds, in order. *)
Fixpoint fold_events {X S E} (f : S -> X -> S) (g : S -> X -> list E)
    (l : list X) (s : S) : list E :=
  match l with
  | [] => []
  | x :: l' => (g s x ++ fold_events f g l' (f s x))%list
  end.

Lemma for_fold_pure {X S E} (f : S -> X -> S) (g : S -> X -> list E)
    (body : S -> X -> M E S) (l : list X) :
  (forall s x h, In x l -> body s x h = (Ok (f s x), (h ++ g s x)%list)) ->
  forall s h, for_fold l body s h =
              (Ok (fold_left f l s), (h ++ fold_events f g l s)%list).
Proof.
  induction l as [|x l IH]; intros Hbody s h.
  - simpl. now rewrite List.app_nil_r.
  - cbn [for_fold fold_left fold_events].
    rewrite (bind_ok _ _ _ _ _ (Hbody s x h (or_introl eq_refl))).
    rewrite IH by (intros; apply Hbody; now right).
    now rewrite List.app_assoc.
Qed.

(** The dictionary only grows, and every value is the cross mark. *)
Definition grows (m m' : gmap string string) : Prop :=
  forall k, m !! k = Some cross_mark -> m' !! k = Some cross_mark.

Lemma grows_refl (m : gmap string string) : grows m m.
Proof. intros k Hk. exact Hk. Qed.

Lemma grows_trans (m1 m2 m3 : gmap string string) :
  grows m1 m2 -> grows m2 m3 -> grows m1 m3.
Proof. intros H12 H23 k Hk. auto. Qed.

Lemma grows_insert (m : gmap string string) (k : string) :
  grows m (<[k := cross_mark]> m).
Proof.
  intros k' Hk'. destruct (decide (k = k')) as [->|Hne].
  - apply lookup_insert_eq.
  - now rewrite lookup_insert_ne.
Qed.

Lemma grows_if (b : bool) (m : gmap string string) (k : string) :
  grows m (if b then <[k := cross_mark]> m else m).
Proof. destruct b; [apply grows_insert | apply grows_refl]. Qed.

Lemma grows_fold {X} (f : gmap string string -> X -> gmap string string)
    (l : list X) (m : gmap string string) :
  (forall m x, grows m (f m x)) -> grows m (fold_left f l m).
Proof.
  intros Hf. revert m; induction l as [|x l IH]; intros m; [apply grows_refl |].
  simpl. eapply grows_trans; [apply Hf | apply IH].
Qed.

(** A key written in some round of a fold is in the result. *)
Lemma fold_left_key {X} (f : gmap string string -> X -> gmap string string)
    (l : list X) (m : gmap string string) (x : X) (k : string) :
  (forall m x, grows m (f m x)) ->
  In x l -> (forall m, f m x !! k = Some cross_mark) ->
  fold_left f l m !! k = Some cross_mark.
Proof.
  intros Hf. revert m; induction l as [|y l IH]; intros m Hin Hk; [destruct Hin |].
  simpl. destruct Hin as [-> | Hin].
  - apply (grows_fold f l (f m x) Hf). apply Hk.
  - now apply IH.
Qed.

(** The host carries out every selection and lists the shapes and the
    descendants of the node. *)
Definition cooperative (H : host) (node : string) (shapes : option (list string))
    (descendants : list string) : Prop :=
  (forall h n, select H h n = Ok tt) /\
  (forall h, listRelatives_shapes H h node = Ok shapes) /\
  (forall h, listRelatives_ad H h node = Ok (Some descendants)).

Lemma flag_if (H : host) (b : bool) (m : gmap string string) (node txt : string)
    (h : list event) :
  (forall h n, select H h n = Ok tt) ->
  (if b then flag H m node txt else mret m) h =
  (Ok (if b then <[txt := cross_mark]> m else m),
   (h ++ (if b then [Select node] else []))%list).
Proof.
  intros Hsel. destruct b.
  - unfold flag, mbind, M_bind, mret, M_ret, bind, call, ret. now rewrite Hsel.
  - unfold mret, M_ret, ret. now rewrite List.app_nil_r.
Qed.

Definition prefix_message (cam_name : string) : string :=
  "Node name " ++ red cam_name ++ " not starting with any naming conventions ".

Definition underscore_message (name : string) : string :=
  "Camera Name starts or ends with underscore for " ++ red name ++ " ".

(** What the camera checks compute, as a function of the host's answers. *)
Definition camera_errors (cam_name : string) (shapes : option (list string))
    (descendants : list string) : gmap string string :=
  let m : gmap string string := ∅ in
  let m := if existsb (fun native_names => startswith native_names cam_name) grp_name
           then <["Maya native geometry name exists " ++ red cam_name ++ " " := cross_mark]> m
           else m in
  let m := if negb (existsb (fun name => startswith name cam_name) namings)
           then <[prefix_message cam_name := cross_mark]> m else m in
  let m := if underscored cam_name
           then <[underscore_message cam_name := cross_mark]> m else m in
  let m := if nothing shapes &&
              negb (existsb (fun entities => contains entities cam_name) namings)
           then <["Naming convetion not found for node  " ++ red cam_name := cross_mark]> m
           else m in
  fold_left
    (fun m names => if underscored names
                    then <[underscore_message names := cross_mark]> m else m)
    descendants m.

Definition camera_selects (cam_name : string) (shapes : option (list string))
    (descendants : list string) : list event :=
  ((if existsb (fun native_names => startswith native_names cam_name) grp_name
    then [Select cam_name] else []) ++
   (if negb (existsb (fun name => startswith name cam_name) namings)
    then [Select cam_name] else []) ++
   (if underscored cam_name then [Select cam_name] else []) ++
   (if nothing shapes &&
       negb (existsb (fun entities => contains entities cam_name) namings)
    then [Select cam_name] else []) ++
   flat_map (fun names => if underscored names then [Select names] else [])
            descendants)%list.

Lemma fold_events_flat_map {X S E} (f : S -> X -> S) (g : X -> list E)
    (l : list X) (s : S) :
  fold_events f (fun _ x => g x) l s = flat_map g l.
Proof.
  revert s; induction l as [|x l IH]; intros s; [reflexivity |].
  simpl. now rewrite IH.
Qed.

Lemma camera_checks_run (H : host) (cam_name : string)
    (shapes : option (list string)) (descendants : list string) (h : list event) :
  cooperative H cam_name shapes descendants ->
  camera_naming_checks H cam_name h =
  (Ok (camera_errors cam_name shapes descendants),
   (h ++ camera_selects cam_name shapes descendants)%list).
Proof.
  intros (Hsel & Hshapes & Had).
  unfold camera_naming_checks, mbind, M_bind. cbv beta zeta.
  rewrite (bind_ok _ _ _ _ _ (flag_if H _ _ _ _ h Hsel)).
  rewrite (bind_ok _ _ _ _ _ (flag_if H _ _ _ _ _ Hsel)).
  rewrite (bind_ok _ _ _ _ _ (flag_if H _ _ _ _ _ Hsel)).
  rewrite (bind_ok _ _ _ _ shapes) by (unfold ask; now rewrite Hshapes).
  match goal with
  | |- bind ?c _ _ = _ =>
      assert (Hfour : c = (if nothing shapes &&
                              negb (existsb (fun entities => contains entities cam_name)
                                            namings)
                           then flag H _ cam_name
                                  ("Naming convetion not found for node  " ++ red cam_name)
                           else mret _))
        by (destruct (nothing shapes); reflexivity);
      rewrite Hfour; clear Hfour
  end.
  rewrite (bind_ok _ _ _ _ _ (flag_if H _ _ _ _ _ Hsel)).
  rewrite (bind_ok _ _ _ _ (Some descendants)) by (unfold ask; now rewrite Had).
  rewrite (bind_ok _ _ _ _ descendants) by reflexivity.
  rewrite (for_fold_pure
             (fun m names => if underscored names
                             then <[underscore_message names := cross_mark]> m else m)
             (fun _ names => if underscored names then [Select names] else [])).
  - rewrite fold_events_flat_map. unfold camera_errors, camera_selects.
    cbv zeta. now rewrite <- !List.app_assoc.
  - intros m names h0 _. destruct (underscored names).
    + unfold mbind, M_bind, mret, M_ret, bind, call, ret. now rewrite Hsel.
    + unfold mret, M_ret, ret. now rewrite List.app_nil_r.
Qed.

(** The camera checks record what C4 names. *)
Lemma camera_errors_spec (cam_name : string) (shapes : option (list string))
    (descendants : list string) :
  (existsb (fun name => startswith name cam_name) namings = false ->
   camera_errors cam_name shapes descendants !! prefix_message cam_name =
     Some cross_mark) /\
  (underscored cam_name = true ->
   camera_errors cam_name shapes descendants !! underscore_message cam_name =
     Some cross_mark) /\
  (forall names, In names descendants -> underscored names = true ->
   camera_errors cam_name shapes descendants !! underscore_message names =
     Some cross_mark).
Proof.
  assert (Hstep : forall (m : gmap string string) (names : string),
             grows m (if underscored names
                      then <[underscore_message names := cross_mark]> m else m))
    by (intros; apply grows_if).
  unfold camera_errors. cbv zeta. split; [| split].
  - intros Hp. rewrite Hp. cbn [negb].
    apply grows_fold; [exact Hstep |].
    apply grows_if. apply grows_if. apply lookup_insert_eq.
  - intros Hu. rewrite Hu.
    apply grows_fold; [exact Hstep |].
    apply grows_if. apply lookup_insert_eq.
  - intros names Hin Hu.
    apply (fold_left_key _ descendants _ names); try assumption.
    intros m. rewrite Hu. apply lookup_insert_eq.
Qed.

Lemma adds_for_fold {E X S} (P : E -> Prop) (l : list X) (body : S -> X -> M E S)
    (s : S) :
  (forall s x, adds P (body s x)) -> adds P (for_fold l body s).
Proof.
  intros Hbody. revert s; induction l as [|x l IH]; intros s; cbn [for_fold].
  - apply adds_ret.
  - apply adds_bind; [apply Hbody | intros s'; apply IH].
Qed.

Definition any_event (e : event) : Prop := True.

Ltac adds_step :=
  match goal with
  | |- adds _ (bind _ _) => apply adds_bind; [| intros ?]
  | |- adds _ (for_fold _ _ _) => apply adds_for_fold; intros ? ?
  | |- adds _ (for_each _ _) => apply adds_for_each; intros ?
  | |- adds _ (ret _) => apply adds_ret
  | |- adds _ (raise _) => apply adds_raise
  | |- adds _ (ask _) => apply adds_ask
  | |- adds _ (lift _) => apply adds_lift
  | |- adds _ (emit _) => apply adds_emit; exact I
  | |- adds _ (call _ _) => apply adds_call; exact I
  | |- adds _ (if ?b then _ else _) => destruct b
  | |- adds _ (match ?x with _ => _ end) => destruct x
  end.

Ltac adds_auto :=
  unfold mbind, mret, M_bind, M_ret; cbv beta zeta; repeat adds_step.

Lemma set_version_adds (H : host) (publish_name : string) (item : Item) :
  adds any_event (set_version (re_search H) (shotgun_find H) publish_name item).
Proof.
  unfold set_version, extract_name. adds_auto.
  unfold extract_step. adds_auto.
Qed.

Lemma resolve_publish_path_adds (H : host) (item : Item) (path short : string) :
  adds any_event (resolve_publish_path H item path short).
Proof.
  unfold resolve_publish_path. adds_auto. apply set_version_adds.
Qed.

(** [c] always returns, with a value that satisfies [Q]. *)
Definition yields {A} (Q : A -> Prop) (c : M event A) : Prop :=
  forall h, exists r evs, c h = (Ok r, (h ++ evs)%list) /\ Q r.

Lemma yields_ret {A} (Q : A -> Prop) (a : A) : Q a -> yields Q (ret a).
Proof. intros Ha h. exists a, []. now rewrite List.app_nil_r. Qed.

Lemma yields_ask {A} (Q : A -> Prop) (f : list event -> result A) (a : A) :
  (forall h, f h = Ok a) -> Q a -> yields Q (ask f).
Proof.
  intros Hf Ha h. exists a, []. unfold ask. now rewrite Hf, List.app_nil_r.
Qed.

Lemma yields_call {A} (Q : A -> Prop) (e : event) (f : list event -> result A) :
  (forall h, exists a, f h = Ok a /\ Q a) -> yields Q (call e f).
Proof.
  intros Hf h. destruct (Hf h) as (a & Ha & HQ).
  exists a, [e]. unfold call. now rewrite Ha.
Qed.

Lemma yields_bind {A B} (Q1 : A -> Prop) (Q2 : B -> Prop) (c : M event A)
    (k : A -> M event B) :
  yields Q1 c -> (forall a, Q1 a -> yields Q2 (k a)) -> yields Q2 (bind c k).
Proof.
  intros Hc Hk h. destruct (Hc h) as (a & evs1 & Hrun1 & Ha).
  destruct (Hk a Ha (h ++ evs1)%list) as (b & evs2 & Hrun2 & Hb).
  exists b, (evs1 ++ evs2)%list. rewrite List.app_assoc.
  unfold bind. now rewrite Hrun1.
Qed.

Lemma yields_weaken {A} (Q Q' : A -> Prop) (c : M event A) :
  (forall a, Q a -> Q' a) -> yields Q c -> yields Q' c.
Proof.
  intros HQ Hc h. destruct (Hc h) as (a & evs & Hrun & Ha). exists a, evs. auto.
Qed.

Lemma yields_for_each {X} (l : list X) (body : X -> M event unit) :
  (forall x, In x l -> yields (fun _ => True) (body x)) ->
  yields (fun _ => True) (for_each l body).
Proof.
  induction l as [|x l IH]; intros Hbody; cbn [for_each].
  - now apply yields_ret.
  - eapply yields_bind; [apply Hbody; now left |].
    intros _ _. apply IH. intros; apply Hbody; now right.
Qed.

(** A loop over a dictionary that every round lets grow: it grows, and a key
    written in the round of [x] is there at the end. *)
Lemma yields_for_fold_grows {X} (l : list X)
    (body : gmap string string -> X -> M event (gmap string string))
    (key : X -> option string) (m : gmap string string) :
  (forall m x, In x l ->
     yields (fun r => grows m r /\
                      forall k, key x = Some k -> r !! k = Some cross_mark)
            (body m x)) ->
  yields (fun r => grows m r /\
                   forall x k, In x l -> key x = Some k -> r !! k = Some cross_mark)
         (for_fold l body m).
Proof.
  revert m; induction l as [|x l IH]; intros m Hbody; cbn [for_fold].
  - apply yields_ret. split; [apply grows_refl | intros ? ? []].
  - eapply yields_bind; [apply Hbody; now left |].
    intros m1 [Hg1 Hk1].
    eapply yields_weaken; [| apply IH; intros; apply Hbody; now right].
    intros r [Hg Hk]. split; [eapply grows_trans; eauto |].
    intros y k [<- | Hin] Hy; [apply Hg; auto | eauto].
Qed.

Lemma yields_flag_if (H : host) (b : bool) (m : gmap string string)
    (node txt : string) :
  (forall h n, select H h n = Ok tt) ->
  yields (fun r => grows m r /\ (b = true -> r !! txt = Some cross_mark))
         (if b then flag H m node txt else mret m).
Proof.
  intros Hsel h. eexists _, _. split; [apply (flag_if H b m node txt h Hsel) |].
  split; [apply grows_if |]. intros ->. apply lookup_insert_eq.
Qed.

(** The host of the mesh plugin: it also answers the questions of the
    check for native names among the descendants. *)
Definition cooperative_mesh (H : host) (node : string) (descendants : list string)
    : Prop :=
  (forall h n, select H h n = Ok tt) /\
  (forall h l, select_list H h l = Ok tt) /\
  (exists shapes, forall h, listRelatives_shapes H h node = Ok shapes) /\
  (exists shapes, forall h, listRelatives_shapes_mesh H h node = Ok shapes) /\
  (forall h, listRelatives_ad H h node = Ok (Some descendants)) /\
  (exists objects, forall h, listRelatives_ad_fullPath H h node = Ok (Some objects)) /\
  (forall obj, exists parent, forall h, listRelatives_parent H h obj = Ok parent).

Definition mesh_prefix_message (object_name : string) : string :=
  "Geometry name " ++ red object_name ++ " not starting with any naming conventions ".

Definition mesh_underscore_message (name : string) : string :=
  "Node Name starts or ends with underscore for " ++ red name ++ " ".

Lemma mesh_descendant_check_yields (H : host) (object_name : string)
    (descendants : list string) (m : gmap string string) (names : string) :
  cooperative_mesh H object_name descendants ->
  yields (fun r => grows m r /\
                   forall k, (if underscored names
                              then Some (mesh_underscore_message names) else None) = Some k ->
                             r !! k = Some cross_mark)
         (mesh_descendant_check H object_name m names).
Proof.
  intros (Hsel & Hsell & _ & _ & _ & (objects & Hobj) & Hparent).
  unfold mesh_descendant_check, mbind, M_bind. cbv beta.
  eapply yields_bind.
  - apply (yields_for_fold_grows maya_native_geo_names _ (fun _ => None) m).
    intros m0 name _.
    destruct (startswith name names).
    + cbv zeta. eapply yields_bind; [apply (yields_ask (fun o => o = Some objects) _ (Some objects)); auto |].
      intros o ->. eapply yields_bind; [apply (yields_ret (fun l => l = objects)); reflexivity |].
      intros l ->. eapply yields_bind.
      * apply yields_for_each. intros obj _.
        destruct (Hparent obj) as [parent Hp].
        eapply yields_bind; [apply (yields_ask (fun p => p = parent) _ parent); auto |].
        intros p ->. apply yields_call. intros h0. exists tt. auto.
      * intros _ _. apply yields_ret.
        split; [apply grows_insert | discriminate].
    + apply yields_ret. split; [apply grows_refl | discriminate].
  - intros m1 [Hg1 _]. destruct (underscored names).
    + eapply yields_bind.
      * apply (yields_call (fun _ => True)). intros h0. exists tt. auto.
      * intros _ _. apply yields_ret. split.
        -- eapply grows_trans; [exact Hg1 | apply grows_insert].
        -- intros k [= <-]. apply lookup_insert_eq.
    + apply yields_ret. split; [exact Hg1 | discriminate].
Qed.

Lemma mesh_checks_yield (H : host) (object_name : string)
    (descendants : list string) :
  cooperative_mesh H object_name descendants ->
  yields (fun r =>
            (existsb (fun name => startswith name object_name) namings = false ->
             r !! mesh_prefix_message object_name = Some cross_mark) /\
            (underscored object_name = true ->
             r !! mesh_underscore_message object_name = Some cross_mark) /\
            (forall names, In names descendants -> underscored names = true ->
             r !! mesh_underscore_message names = Some cross_mark))
         (mesh_naming_checks H object_name).
Proof.
  intros Hco.
  pose proof Hco as (Hsel & Hsell & (shapes & Hsh) & (mshapes & Hmsh) & Had & _ & _).
  unfold mesh_naming_checks, mbind, M_bind. cbv beta zeta.
  eapply yields_bind; [apply (yields_flag_if H); exact Hsel |]. intros m1 _.
  eapply yields_bind; [apply (yields_flag_if H); exact Hsel |]. intros m2 [_ H2].
  eapply yields_bind; [apply (yields_ask (fun o => True) _ mshapes); auto |]. intros ms _.
  eapply yields_bind; [apply (yields_flag_if H); exact Hsel |]. intros m3 [G3 _].
  eapply yields_bind; [apply (yields_flag_if H); exact Hsel |]. intros m4 [G4 _].
  eapply yields_bind; [apply (yields_ask (fun o => True) _ shapes); auto |]. intros sh _.
  eapply yields_bind.
  { instantiate (1 := fun r => grows m4 r).
    destruct (nothing sh); [| apply yields_ret, grows_refl].
    eapply yields_weaken; [| apply (yields_flag_if H); exact Hsel].
    intros r [Hg _]. exact Hg. }
  intros m5 G5.
  eapply yields_bind; [apply (yields_flag_if H); exact Hsel |]. intros m6 [G6 _].
  eapply yields_bind; [apply (yields_flag_if H); exact Hsel |]. intros m7 [G7 H7].
  eapply yields_bind; [apply (yields_ask (fun o => o = Some descendants) _ (Some descendants)); auto |].
  intros o ->.
  eapply yields_bind; [apply (yields_ret (fun l => l = descendants)); reflexivity |].
  intros l ->.
  eapply yields_weaken;
    [| apply (yields_for_fold_grows descendants _
                (fun names => if underscored names
                              then Some (mesh_underscore_message names) else None) m7);
       intros; now apply (mesh_descendant_check_yields H object_name descendants)].
  intros r [Gr Hr]. split; [| split].
  - intros Hp. apply Gr, G7, G6, G5, G4, G3, H2. now rewrite Hp.
  - intros Hu. apply Gr, H7, Hu.
  - intros names Hin Hu. apply (Hr names); [exact Hin | now rewrite Hu].
Qed.

End NamingFacts.

(** ** The publish plugins: [validate] shows the naming errors *)

Module ValidateFacts.
Import PyStr Publish OffsetFacts NamespaceFacts NamingFacts.

#[local] Arguments String.append !s1 s2 : simpl nomatch.

Lemma saved_session_path_saved (H : host) (h : list event) :
  session_path H h <> "" ->
  saved_session_path H h = (Ok (normalize H (session_path H h)), h).
Proof.
  intros Hs. unfold saved_session_path, mbind, M_bind, bind, ask.
  apply String.eqb_neq in Hs. now rewrite Hs.
Qed.

Lemma show_errors_shown (title : string) (error_msg : gmap string string)
    (k : string) (h : list event) :
  error_msg !! k = Some cross_mark ->
  show_errors title error_msg h = (Ok tt, (h ++ [ValidationUI title error_msg])%list).
Proof.
  intros Hk. unfold show_errors.
  destruct (bool_decide_reflect (error_msg = ∅)) as [->|Hne]; [| reflexivity].
  rewrite lookup_empty in Hk. discriminate.
Qed.

(** The node breaks the naming rules C4 names. *)
Definition badly_named (node : string) (descendants : list string) : Prop :=
  existsb (fun name => startswith name node) namings = false \/
  underscored node = true \/
  exists names, In names descendants /\ underscored names = true.

(** C4 as the specification words it, for the camera plugin: whenever the
    node is badly named, the history of [validate] holds the window with the
    errors. *)
Definition camera_errors_always_shown : Prop :=
  forall (H : host) (item : Item) (cam_name : string) (descendants : list string)
         (shapes : option (list string)),
    property item "camera_name" = Ok cam_name ->
    cooperative H cam_name shapes descendants ->
    badly_named cam_name descendants ->
    exists title error_msg,
      In (ValidationUI title error_msg) (snd (validate_camera H item [])).

(** C4, counterexample: the camera [shotcam_] has no prefix and ends with an
    underscore, but the session is not saved: [validate] raises at once, and
    neither checks the name nor shows the window. *)
Lemma validate_unsaved_session :
  validate_camera (example_host false true) (example_item "camera_name" "shotcam_") [] =
    (Raise (Exception "The Maya session has not been saved."),
     [Log "error" "The Maya session has not been saved."]) /\
  ~ camera_errors_always_shown.
Proof.
  split; [reflexivity |].
  intros Hclaim.
  destruct (Hclaim (example_host false true) (example_item "camera_name" "shotcam_")
              "shotcam_" ["shotcam_Shape"] None) as (title & msg & Hin).
  - reflexivity.
  - repeat split.
  - left. reflexivity.
  - vm_compute in Hin. destruct Hin as [Hin | []]. discriminate.
Qed.

(** C4, amended: with the session saved and the host answering the
    questions of the checks, a camera or mesh whose name starts with none of
    the seven prefixes, or whose name or a descendant's name starts or ends
    with an underscore, gets the matching entry in the error dictionary, and
    [validate] shows the dictionary in its window before it goes on. *)
Theorem validate_shows_naming_errors :
  (forall (H : host) (item : Item) (h : list event) (cam_name : string)
          (shapes : option (list string)) (descendants : list string),
      session_path H h <> "" ->
      property item "camera_name" = Ok cam_name ->
      cooperative H cam_name shapes descendants ->
      badly_named cam_name descendants ->
      exists error_msg evs r rest,
        camera_naming_checks H cam_name h = (Ok error_msg, (h ++ evs)%list) /\
        (existsb (fun name => startswith name cam_name) namings = false ->
         error_msg !! prefix_message cam_name = Some cross_mark) /\
        (underscored cam_name = true ->
         error_msg !! underscore_message cam_name = Some cross_mark) /\
        (forall names, In names descendants -> underscored names = true ->
         error_msg !! underscore_message names = Some cross_mark) /\
        validate_camera H item h =
          (r, (h ++ evs ++
               [ValidationUI ("FWX Publisher Warning: " ++ cam_name) error_msg] ++
               rest)%list)) /\
  (forall (H : host) (item : Item) (h : list event) (object_name : string)
          (descendants : list string),
      session_path H h <> "" ->
      property item "object" = Ok object_name ->
      cooperative_mesh H object_name descendants ->
      badly_named object_name descendants ->
      exists error_msg evs r rest,
        mesh_naming_checks H object_name h = (Ok error_msg, (h ++ evs)%list) /\
        (existsb (fun name => startswith name object_name) namings = false ->
         error_msg !! mesh_prefix_message object_name = Some cross_mark) /\
        (underscored object_name = true ->
         error_msg !! mesh_underscore_message object_name = Some cross_mark) /\
        (forall names, In names descendants -> underscored names = true ->
         error_msg !! mesh_underscore_message names = Some cross_mark) /\
        validate_mesh H item h =
          (r, (h ++ evs ++ [ValidationUI "FWX Publisher Warning " error_msg] ++
               rest)%list)).
Proof.
  split.
  - intros H item h cam shapes desc Hsaved Hprop Hco Hbad.
    destruct (camera_errors_spec cam shapes desc) as (Hp & Hu & Hd).
    pose proof (camera_checks_run H cam shapes desc h Hco) as Hrun.
    assert (Hkey : exists k, camera_errors cam shapes desc !! k = Some cross_mark).
    { destruct Hbad as [Hb | [Hb | (d & Hin & Hb)]]; eauto. }
    destruct Hkey as [k Hk].
    set (shown := (h ++ camera_selects cam shapes desc ++
                   [ValidationUI ("FWX Publisher Warning: " ++ cam)
                      (camera_errors cam shapes desc)])%list).
    assert (Hrest : adds any_event
              (bind (ask (fun h => ls H h cam))
                 (fun found =>
                    match found with
                    | [] =>
                        bind (emit (Log "error"
                                ("Validation failed because the collected camera (" ++
                                 cam ++
                                 ") is no longer in the scene. You can uncheck this plugin or create " ++
                                 "a camera with this name to export to avoid this error.")))
                          (fun _ => raise (Exception
                                ("Validation failed because the collected camera (" ++
                                 cam ++
                                 ") is no longer in the scene. You can uncheck this plugin or create " ++
                                 "a camera with this name to export to avoid this error.")))
                    | _ :: _ =>
                        bind (lift (py_split_first ":" cam))
                          (fun short => resolve_publish_path H item
                                          (normalize H (session_path H h)) short)
                    end))).
    { adds_auto. apply resolve_publish_path_adds. }
    match type of Hrest with adds _ ?c => destruct (c shown) as [r h'] eqn:Hc end.
    destruct (Hrest _ _ _ Hc) as (rest & -> & _).
    exists (camera_errors cam shapes desc), (camera_selects cam shapes desc), r, rest.
    repeat (split; [assumption |]).
    unfold validate_camera, mbind, M_bind. cbv beta.
    rewrite (bind_ok _ _ _ _ _ (saved_session_path_saved H h Hsaved)).
    rewrite (bind_ok _ _ h h cam) by (unfold lift; now rewrite Hprop).
    rewrite (bind_ok _ _ _ _ _ Hrun).
    rewrite (bind_ok _ _ _ _ _ (show_errors_shown _ _ k _ Hk)).
    rewrite <- List.app_assoc. fold shown. rewrite Hc.
    unfold shown. now rewrite <- !List.app_assoc.
  - intros H item h obj desc Hsaved Hprop Hco Hbad.
    destruct (mesh_checks_yield H obj desc Hco h) as (m & evs & Hrun & Hp & Hu & Hd).
    assert (Hkey : exists k, m !! k = Some cross_mark).
    { destruct Hbad as [Hb | [Hb | (d & Hin & Hb)]]; eauto. }
    destruct Hkey as [k Hk].
    set (shown := (h ++ evs ++ [ValidationUI "FWX Publisher Warning " m])%list).
    assert (Hrest : adds any_event
              (bind (lift (py_split_first ":" obj))
                 (fun short =>
                    bind (ask (fun h => ls_assemblies H h))
                      (fun assemblies =>
                         bind (match assemblies with
                               | [] => mret tt
                               | _ :: _ =>
                                   bind (ask (fun h => ls_dag_mesh H h short))
                                     (fun _ => mret tt)
                               end)
                           (fun _ => resolve_publish_path H item
                                       (normalize H (session_path H h)) short))))).
    { adds_auto. all: apply resolve_publish_path_adds. }
    match type of Hrest with adds _ ?c => destruct (c shown) as [r h'] eqn:Hc end.
    destruct (Hrest _ _ _ Hc) as (rest & -> & _).
    exists m, evs, r, rest.
    repeat (split; [assumption |]).
    unfold validate_mesh, mbind, M_bind. cbv beta.
    rewrite (bind_ok _ _ _ _ _ (saved_session_path_saved H h Hsaved)).
    rewrite (bind_ok _ _ h h obj) by (unfold lift; now rewrite Hprop).
    rewrite (bind_ok _ _ _ _ _ Hrun).
    rewrite (bind_ok _ _ _ _ _ (show_errors_shown _ _ k _ Hk)).
    rewrite <- List.app_assoc. fold shown.
    unfold mbind, M_bind in Hc. rewrite Hc.
    unfold shown. now rewrite <- !List.app_assoc.
Qed.

(** The camera [shotcam_] in a saved session: the window comes up with the
    entry for the missing prefix. *)
Lemma validate_shows_naming_errors_witness :
  exists error_msg evs r rest,
    camera_naming_checks (example_host true true) "shotcam_" [] =
      (Ok error_msg, ([] ++ evs)%list) /\
    error_msg !! prefix_message "shotcam_" = Some cross_mark /\
    validate_camera (example_host true true)
      (example_item "camera_name" "shotcam_") [] =
      (r, ([] ++ evs ++
           [ValidationUI ("FWX Publisher Warning: " ++ "shotcam_") error_msg] ++
           rest)%list).
Proof.
  destruct (proj1 validate_shows_naming_errors (example_host true true)
              (example_item "camera_name" "shotcam_") [] "shotcam_" None
              ["shotcam_Shape"])
    as (error_msg & evs & r & rest & Hrun & Hp & _ & _ & Hv).
  - discriminate.
  - reflexivity.
  - repeat split.
  - left. reflexivity.
  - exists error_msg, evs, r, rest. split; [exact Hrun |].
    split; [apply Hp; reflexivity | exact Hv].
Defined.

End ValidateFacts.

(** ** The publish step of both plugins *)

Module PublishFacts.
Import PyStr Publish PyStrFacts OffsetFacts NamespaceFacts NamingFacts.

#[local] Arguments String.append !s1 s2 : simpl nomatch.

(** *** Reading a successful run backwards *)

Lemma bind_inv {E A B} (m : M E A) (k : A -> M E B) (h h' : list E) (b : B) :
  bind m k h = (Ok b, h') ->
  exists a h1, m h = (Ok a, h1) /\ k a h1 = (Ok b, h').
Proof.
  unfold bind. destruct (m h) as [[a|e] h1]; [| discriminate].
  intros Hk. now exists a, h1.
Qed.

Lemma call_inv {E A} (e : E) (f : list E -> result A) (h h' : list E) (a : A) :
  call e f h = (Ok a, h') -> f h = Ok a /\ h' = (h ++ [e])%list.
Proof. unfold call. intros Hc. injection Hc as -> <-. now split. Qed.

Lemma ask_inv {E A} (f : list E -> result A) (h h' : list E) (a : A) :
  ask f h = (Ok a, h') -> f h = Ok a /\ h' = h.
Proof. unfold ask. intros Hc. injection Hc as -> <-. now split. Qed.

Lemma lift_inv {E A} (r : result A) (h h' : list E) (a : A) :
  lift r h = (Ok a, h') -> r = Ok a /\ h' = h.
Proof. unfold lift. intros Hc. injection Hc as -> <-. now split. Qed.

Lemma emit_inv {E} (e : E) (h h' : list E) (u : unit) :
  emit e h = (Ok u, h') -> h' = (h ++ [e])%list.
Proof. unfold emit. intros Hc. now injection Hc as <-. Qed.

Lemma ret_inv {E A} (a b : A) (h h' : list E) :
  ret a h = (Ok b, h') -> b = a /\ h' = h.
Proof. unfold ret. intros Hc. injection Hc as <- <-. now split. Qed.


Lemma adds_try_except {E A} (P : E -> Prop) (m : M E A) (handler : exn -> M E A) :
  adds P m -> (forall e, adds P (handler e)) -> adds P (try_except m handler).
Proof.
  intros Hm Hh h r h' Hrun. unfold try_except in Hrun.
  destruct (m h) as [[a|e] h1] eqn:E1; destruct (Hm _ _ _ E1) as (evs1 & -> & HP1).
  - injection Hrun as <- <-. now exists evs1.
  - destruct (Hh e _ _ _ Hrun) as (evs2 & -> & HP2).
    exists (evs1 ++ evs2)%list. rewrite List.app_assoc. split; [reflexivity |].
    apply Forall_app. now split.
Qed.

Lemma adds_for_until {E X} (P : E -> Prop) (l : list X) (body : X -> M E bool) :
  (forall x, adds P (body x)) -> adds P (for_until l body).
Proof.
  intros Hbody. induction l as [|x l IH]; cbn [for_until].
  - apply adds_ret.
  - apply adds_bind; [apply Hbody |]. intros [|]; [apply adds_ret | exact IH].
Qed.

(** *** The events of a publish *)

(** Events that neither rename a node, nor export, nor register. *)
Definition bystander (e : event) : Prop :=
  match e with
  | Rename _ _ | MelEval _ | BasePublish _ => False
  | _ => True
  end.

(** Events other than the hand-off to the base plugin. *)
Definition before_handoff (e : event) : Prop :=
  match e with
  | BasePublish _ => False
  | _ => True
  end.

(** Events that leave the names of the scene alone and export nothing. *)
Definition quiet (e : event) : Prop :=
  match e with
  | Rename _ _ | MelEval _ => False
  | _ => True
  end.

Lemma bystander_before_handoff (e : event) : bystander e -> before_handoff e.
Proof. now destruct e. Qed.

Lemma bystander_quiet (e : event) : bystander e -> quiet e.
Proof. now destruct e. Qed.

Ltac adds_more :=
  repeat first
    [ adds_step
    | apply adds_try_except; [| intros ?]
    | apply adds_for_until; intros ? ].

Lemma stamp_start_frame_adds (H : host) (node : string) (v : pyval) :
  adds bystander (stamp_start_frame H node v).
Proof. unfold stamp_start_frame. adds_auto. Qed.

Lemma adds_weaken {E A} (P Q : E -> Prop) (m : M E A) :
  (forall e, P e -> Q e) -> adds P m -> adds Q m.
Proof.
  intros HPQ Hm h r h' Hrun. destruct (Hm _ _ _ Hrun) as (evs & -> & HP).
  exists evs. split; [reflexivity |]. eapply List.Forall_impl; eauto.
Qed.


(** *** Renaming around the export *)

(** The name the plugins give a node that is not referenced while they
    export it: what follows the last occurrence of the first naming
    convention found in its name. *)
Definition stripped_name (node : string) : string :=
  match first_naming node with
  | Ok naming =>
      match split_last naming node with
      | Some stripped => stripped
      | None => node
      end
  | Raise _ => node
  end.

Lemma stripped_name_found (node naming stripped : string) :
  first_naming node = Ok naming ->
  py_split_last naming node = Ok stripped ->
  stripped = stripped_name node.
Proof.
  unfold stripped_name, py_split_last. intros ->.
  destruct (split_last naming node); congruence.
Qed.

(** The name a node bears once the host has carried out the events [todo],
    issued after [done]: renaming the node gives it the name the host
    answers, and a rename the host refuses leaves the name. *)
Fixpoint name_after (H : host) (done todo : list event) (name : string) : string :=
  match todo with
  | [] => name
  | e :: rest =>
      name_after H (done ++ [e])%list rest
        (match e with
         | Rename old new =>
             if String.eqb old name then
               match rename H done old new with
               | Ok given => given
               | Raise _ => name
               end
             else name
         | _ => name
         end)
  end.



Section RoundTrips.
Variable H : host.
Variables node stripped : string.
Variable exports : string -> Prop.



Lemma name_after_quiet (e : event) (evs done : list event) (name : string) :
  quiet e ->
  name_after H done (e :: evs) name = name_after H (done ++ [e])%list evs name.
Proof. now destruct e. Qed.


End RoundTrips.



Ltac inv_bind Hrun a h1 H1 :=
  apply bind_inv in Hrun; destruct Hrun as (a & h1 & H1 & Hrun).

Ltac inv_call H1 Hans :=
  apply call_inv in H1; destruct H1 as (Hans & ->).

Ltac inv_ask H1 Hans :=
  apply ask_inv in H1; destruct H1 as (Hans & ->).

Ltac inv_lift H1 Hans :=
  apply lift_inv in H1; destruct H1 as (Hans & ->).

Lemma not_handed_off (evs : list event) (it : Item) :
  Forall before_handoff evs -> ~ In (BasePublish it) evs.
Proof.
  intros Hall Hin. rewrite List.Forall_forall in Hall. exact (Hall _ Hin).
Qed.

Lemma stamp_start_frame_inv (H : host) (node : string) (v : pyval)
    (h h' : list event) (u : unit) :
  stamp_start_frame H node v h = (Ok u, h') ->
  exists evs, h' = (h ++ evs)%list /\ Forall bystander evs.
Proof. apply stamp_start_frame_adds. Qed.













(** *** Export and registration *)

Definition succeeds {A} (r : result A) : Prop := exists a, r = Ok a.

(** The host carries out what a publish of [node] asks of it. *)
Definition obliging (H : host) (node : string) : Prop :=
  (forall h, succeeds (ls_selection H h)) /\
  (forall h folder, ensure_folder_exists H h folder = Ok tt) /\
  (forall h, succeeds (attribute_exists H h "abc_start_frame" node)) /\
  (forall h, addAttr H h node "abc_start_frame" "float" = Ok tt) /\
  (forall h v, setAttr H h (node ++ ".abc_start_frame") v = Ok tt) /\
  (forall h old new, succeeds (rename H h old new)) /\
  (forall h cmd, mel_eval H h cmd = Ok tt) /\
  (forall h it, base_publish H h it = Ok tt) /\
  (forall h sel, select_list H h sel = Ok tt).

(** [node] is one of the top-level nodes of the scene, and holds meshes. *)
Definition top_level_mesh (H : host) (node : string) : Prop :=
  (forall h, exists assemblies, ls_assemblies H h = Ok assemblies /\ In node assemblies) /\
  (forall h meshes, succeeds (ls_dag_mesh H h meshes)) /\
  (forall h, ls_dag_mesh H h node <> Ok []).

(** The root the export command names. *)
Definition export_root (referenced : bool) (node : string) : string :=
  if referenced then node else stripped_name node.

(** The events [evs] hold the export command [cmd] and, after it, the
    hand-off of [published] to the base plugin. *)
Definition exported_then_handed_off (cmd : string) (published : Item)
    (evs : list event) : Prop :=
  exists pre post,
    evs = (pre ++ MelEval cmd :: post)%list /\ In (BasePublish published) post.

Lemma namings_nonempty (naming : string) : In naming namings -> naming <> "".
Proof. cbn. intuition (subst; discriminate). Qed.

Lemma first_naming_split (node naming : string) :
  first_naming node = Ok naming ->
  py_split_last naming node = Ok (stripped_name node).
Proof.
  intros Hnaming.
  assert (Hin : In naming namings).
  { unfold first_naming in Hnaming.
    destruct (List.filter (fun name => contains name node) namings) as [|x l] eqn:E;
      [discriminate |].
    injection Hnaming as ->.
    assert (Hx : In naming (List.filter (fun name => contains name node) namings))
      by (rewrite E; now left).
    apply List.filter_In in Hx. tauto. }
  destruct (split_last_total naming node (namings_nonempty _ Hin)) as (u & Hu).
  unfold stripped_name, py_split_last. now rewrite Hnaming, Hu.
Qed.

Ltac unfold_run Hrun :=
  unfold stamp_start_frame, mbind, mret, M_bind, M_ret,
    bind, ask, call, lift, emit, ret, try_except in Hrun;
  cbv beta iota zeta in Hrun.

(** The run of the camera plugin with an obliging host. *)
Lemma publish_camera_runs (H : host) (item : Item) (node path : string)
    (referenced : bool) (lo hi : float) (h : list event) :
  obliging H node ->
  (forall h0, playback_min H h0 = Ok lo) ->
  (forall h0, playback_max H h0 = Ok hi) ->
  (forall h0, is_referenced H h0 node = Ok referenced) ->
  (referenced = false -> exists naming, first_naming node = Ok naming) ->
  property item "camera_name" = Ok node ->
  property item "publish_path" = Ok path ->
  exists evs,
    publish_camera H item h =
      (Ok (set_property item "publish_type" (VStr "Alembic Cache")), (h ++ evs)%list) /\
    exported_then_handed_off
      (abc_export_cmd H lo hi (export_root referenced node) path)
      (set_property item "publish_type" (VStr "Alembic Cache")) evs.
Proof.
  intros (Hsel & Hfolder & Hattr & Hadd & Hset & Hrename & Hmel & Hbase & Hselect)
         Hlo Hhi Href Hnaming Hnode Hpath.
  destruct (publish_camera H item h) as [r h'] eqn:Hrun.
  unfold publish_camera in Hrun. unfold_run Hrun.
  destruct (Hsel h) as [sel Esel]. rewrite Esel, Hnode, Hpath in Hrun.
  cbv beta iota in Hrun.
  rewrite Hfolder, Hlo, Hhi in Hrun. cbv beta iota in Hrun.
  destruct (Hattr (h ++ [EnsureFolderExists (dirname H path)])%list) as [stamped Estamped].
  rewrite Estamped in Hrun. cbv beta iota in Hrun.
  set (stamps := if stamped then []
                 else [AddAttr node "abc_start_frame" "float";
                       SetAttr (node ++ ".abc_start_frame") (VFloat lo)]).
  set (published := set_property item "publish_type" (VStr "Alembic Cache")) in *.
  destruct referenced; cbn [export_root].
  - assert (Hgoal : (r, h') =
        (Ok published,
         (h ++ [EnsureFolderExists (dirname H path)] ++ stamps ++
          [Log "info" ("Executing command: " ++ abc_export_cmd H lo hi node path);
           MelEval (abc_export_cmd H lo hi node path);
           BasePublish published; SelectList sel])%list)).
    { rewrite <- Hrun. subst stamps. destruct stamped; cbn [negb];
        cbv beta iota; rewrite ?Hadd, ?Hset; cbv beta iota;
        rewrite Href; cbn [negb]; cbv beta iota;
        rewrite Hmel; cbv beta iota; rewrite Hbase, Hselect; cbv beta iota;
        rewrite <- !List.app_assoc; reflexivity. }
    injection Hgoal as -> ->. eexists. split; [reflexivity |].
    exists ([EnsureFolderExists (dirname H path)] ++ stamps ++
            [Log "info" ("Executing command: " ++ abc_export_cmd H lo hi node path)])%list,
           [BasePublish published; SelectList sel].
    split; [| now left]. rewrite <- !List.app_assoc. reflexivity.
  - destruct (Hnaming eq_refl) as (naming & Enaming).
    pose proof (first_naming_split _ _ Enaming) as Esplit.
    set (stripped := stripped_name node) in *.
    assert (Hgoal : (r, h') =
        (Ok published,
         (h ++ [EnsureFolderExists (dirname H path)] ++ stamps ++
          [Rename node stripped;
           Log "info" ("Executing command: " ++ abc_export_cmd H lo hi stripped path);
           MelEval (abc_export_cmd H lo hi stripped path);
           Rename stripped node;
           BasePublish published; SelectList sel])%list)).
    { rewrite <- Hrun. subst stamps. destruct stamped; cbn [negb];
        cbv beta iota; rewrite ?Hadd, ?Hset; cbv beta iota;
        rewrite Href; cbn [negb]; cbv beta iota;
        rewrite Enaming, Esplit; cbv beta iota;
        (match goal with
         | |- context [rename H ?h0 node stripped] =>
             destruct (Hrename h0 node stripped) as [given ->]
         end); cbv beta iota;
        rewrite Hmel; cbv beta iota;
        (match goal with
         | |- context [rename H ?h0 stripped node] =>
             destruct (Hrename h0 stripped node) as [back ->]
         end); cbv beta iota;
        rewrite Hbase, Hselect; cbv beta iota;
        rewrite <- !List.app_assoc; reflexivity. }
    injection Hgoal as -> ->. eexists. split; [reflexivity |].
    exists ([EnsureFolderExists (dirname H path)] ++ stamps ++
            [Rename node stripped;
             Log "info" ("Executing command: " ++ abc_export_cmd H lo hi stripped path)])%list,
           [Rename stripped node; BasePublish published; SelectList sel].
    split; [| right; now left]. rewrite <- !List.app_assoc. reflexivity.
Qed.

(** One round of the loop of the mesh plugin with an obliging host. *)
Lemma publish_mesh_round_runs (H : host) (node path meshes : string)
    (referenced : bool) (lo hi : float) (first last : Z) (h : list event) :
  obliging H node ->
  top_level_mesh H node ->
  (forall h0, playback_min H h0 = Ok lo) ->
  (forall h0, playback_max H h0 = Ok hi) ->
  (forall h0, is_referenced H h0 node = Ok referenced) ->
  (referenced = false -> exists naming, first_naming node = Ok naming) ->
  int_of_float lo = Ok first ->
  int_of_float hi = Ok last ->
  exists evs,
    publish_mesh_round H node path meshes h = (Ok false, (h ++ evs)%list) /\
    (meshes = node ->
     exists pre post,
       evs = (pre ++ MelEval (alembic_args first last (export_root referenced node) path)
                  :: post)%list).
Proof.
  intros (Hsel & Hfolder & Hattr & Hadd & Hset & Hrename & Hmel & Hbase & Hselect)
         (Hassemblies & Hdag & Hmeshes) Hlo Hhi Href Hnaming Hfirst Hlast.
  destruct (publish_mesh_round H node path meshes h) as [r h'] eqn:Hrun.
  unfold publish_mesh_round in Hrun. unfold_run Hrun.
  destruct (Hdag h meshes) as [dag Edag]. rewrite Edag in Hrun. cbv beta iota in Hrun.
  destruct dag as [|shape dag].
  { injection Hrun as <- <-. exists []. rewrite List.app_nil_r. split; [reflexivity |].
    intros ->. now apply Hmeshes in Edag. }
  destruct (String.eqb node meshes) eqn:Esame.
  2:{ injection Hrun as <- <-. exists []. rewrite List.app_nil_r. split; [reflexivity |].
      intros ->. now rewrite String.eqb_refl in Esame. }
  apply String.eqb_eq in Esame. subst meshes.
  rewrite Hlo, Hfirst, Hhi, Hlast in Hrun. cbv beta iota in Hrun.
  destruct (Hattr h) as [stamped Estamped].
  rewrite Estamped in Hrun. cbv beta iota in Hrun.
  set (stamps := if stamped then []
                 else [AddAttr node "abc_start_frame" "float";
                       SetAttr (node ++ ".abc_start_frame") (VInt first)]).
  destruct referenced; cbn [export_root].
  - assert (Hgoal : (r, h') =
        (Ok false,
         (h ++ stamps ++
          [Log "info" ("Executing command: " ++ alembic_args first last node path);
           MelEval (alembic_args first last node path)])%list)).
    { rewrite <- Hrun. subst stamps. destruct stamped; cbn [negb];
        cbv beta iota; rewrite ?Hadd, ?Hset; cbv beta iota;
        rewrite Href; cbn [negb]; cbv beta iota;
        rewrite Hmel; cbv beta iota;
        rewrite <- !List.app_assoc; reflexivity. }
    injection Hgoal as -> ->. eexists. split; [reflexivity |]. intros _.
    exists (stamps ++
            [Log "info" ("Executing command: " ++ alembic_args first last node path)])%list,
           [].
    rewrite <- !List.app_assoc. reflexivity.
  - destruct (Hnaming eq_refl) as (naming & Enaming).
    pose proof (first_naming_split _ _ Enaming) as Esplit.
    set (stripped := stripped_name node) in *.
    assert (Hgoal : (r, h') =
        (Ok false,
         (h ++ stamps ++
          [Rename node stripped;
           Log "info" ("Executing command: " ++ alembic_args first last stripped path);
           MelEval (alembic_args first last stripped path);
           Rename stripped node])%list)).
    { rewrite <- Hrun. subst stamps. destruct stamped; cbn [negb];
        cbv beta iota; rewrite ?Hadd, ?Hset; cbv beta iota;
        rewrite Href; cbn [negb]; cbv beta iota;
        rewrite Enaming, Esplit; cbv beta iota;
        (match goal with
         | |- context [rename H ?h0 node stripped] =>
             destruct (Hrename h0 node stripped) as [given ->]
         end); cbv beta iota;
        rewrite Hmel; cbv beta iota;
        (match goal with
         | |- context [rename H ?h0 stripped node] =>
             destruct (Hrename h0 stripped node) as [back ->]
         end); cbv beta iota;
        rewrite <- !List.app_assoc; reflexivity. }
    injection Hgoal as -> ->. eexists. split; [reflexivity |]. intros _.
    exists (stamps ++
            [Rename node stripped;
             Log "info" ("Executing command: " ++ alembic_args first last stripped path)])%list,
           [Rename stripped node].
    rewrite <- !List.app_assoc. reflexivity.
Qed.

(** The loop of the mesh plugin with an obliging host. *)
Lemma publish_mesh_loop_runs (H : host) (node path : string)
    (referenced : bool) (lo hi : float) (first last : Z) (assemblies : list string) :
  obliging H node ->
  top_level_mesh H node ->
  (forall h0, playback_min H h0 = Ok lo) ->
  (forall h0, playback_max H h0 = Ok hi) ->
  (forall h0, is_referenced H h0 node = Ok referenced) ->
  (referenced = false -> exists naming, first_naming node = Ok naming) ->
  int_of_float lo = Ok first ->
  int_of_float hi = Ok last ->
  forall h,
  exists evs,
    for_until assemblies (publish_mesh_round H node path) h = (Ok false, (h ++ evs)%list) /\
    (In node assemblies ->
     exists pre post,
       evs = (pre ++ MelEval (alembic_args first last (export_root referenced node) path)
                  :: post)%list).
Proof.
  intros Hobliging Htop Hlo Hhi Href Hnaming Hfirst Hlast.
  induction assemblies as [|meshes assemblies IH]; intros h; cbn [for_until].
  - exists []. rewrite List.app_nil_r. split; [reflexivity | intros []].
  - destruct (publish_mesh_round_runs H node path meshes referenced lo hi first last h
                Hobliging Htop Hlo Hhi Href Hnaming Hfirst Hlast)
      as (evs1 & Hround & Hexport1).
    destruct (IH (h ++ evs1)%list) as (evs2 & Hloop & Hexport2).
    exists (evs1 ++ evs2)%list. split.
    + rewrite (bind_ok _ _ _ _ _ Hround), List.app_assoc. exact Hloop.
    + intros [Hhere | Hlater].
      * destruct (Hexport1 Hhere) as (pre & post & ->).
        exists pre, (post ++ evs2)%list. now rewrite <- List.app_assoc.
      * destruct (Hexport2 Hlater) as (pre & post & ->).
        exists (evs1 ++ pre)%list, post. now rewrite <- List.app_assoc.
Qed.

(** The run of the mesh plugin with an obliging host. *)
Lemma publish_mesh_runs (H : host) (item : Item) (node path : string)
    (referenced : bool) (lo hi : float) (first last : Z) (h : list event) :
  obliging H node ->
  top_level_mesh H node ->
  (forall h0, playback_min H h0 = Ok lo) ->
  (forall h0, playback_max H h0 = Ok hi) ->
  (forall h0, is_referenced H h0 node = Ok referenced) ->
  (referenced = false -> exists naming, first_naming node = Ok naming) ->
  int_of_float lo = Ok first ->
  int_of_float hi = Ok last ->
  property item "object" = Ok node ->
  property item "path" = Ok path ->
  exists evs,
    publish_mesh H item h =
      (Ok (set_property item "publish_type" (VStr "Alembic Cache")), (h ++ evs)%list) /\
    exported_then_handed_off
      (alembic_args first last (export_root referenced node) path)
      (set_property item "publish_type" (VStr "Alembic Cache")) evs.
Proof.
  intros Hobliging Htop Hlo Hhi Href Hnaming Hfirst Hlast Hnode Hpath.
  pose proof Hobliging
    as (Hsel & Hfolder & Hattr & Hadd & Hset & Hrename & Hmel & Hbase & Hselect).
  pose proof Htop as (Hassemblies & Hdag & Hmeshes).
  destruct (Hassemblies (h ++ [EnsureFolderExists (dirname H path)])%list)
    as (assemblies & Eassemblies & Hin).
  destruct (publish_mesh_loop_runs H node path referenced lo hi first last assemblies
              Hobliging Htop Hlo Hhi Href Hnaming Hfirst Hlast
              (h ++ [EnsureFolderExists (dirname H path)])%list)
    as (evs & Hloop & Hexport).
  destruct (Hexport Hin) as (pre & post & ->).
  exists ([EnsureFolderExists (dirname H path)] ++
          (pre ++ MelEval (alembic_args first last (export_root referenced node) path)
               :: post) ++
          [BasePublish (set_property item "publish_type" (VStr "Alembic Cache"))])%list.
  split.
  - unfold publish_mesh, mbind, mret, M_bind, M_ret.
    unfold bind at 1, lift at 1. rewrite Hpath.
    unfold bind at 1, call at 1. rewrite Hfolder.
    unfold bind at 1, lift at 1. rewrite Hnode.
    unfold bind at 1, ask at 1. rewrite Eassemblies.
    rewrite (bind_ok _ _ _ _ _ Hloop).
    unfold bind, call, ret. rewrite Hbase.
    now rewrite <- !List.app_assoc.
  - exists ([EnsureFolderExists (dirname H path)] ++ pre)%list,
           (post ++
            [BasePublish (set_property item "publish_type" (VStr "Alembic Cache"))])%list.
    split.
    + now rewrite <- !List.app_assoc.
    + apply in_or_app. right. now left.
Qed.

(** C6 as the specification words it, for the camera plugin: the publish of
    an item that passed validation exports, sets the publish type and hands
    off to the base plugin. *)
Definition camera_always_published : Prop :=
  forall (H : host) (item validated : Item) (h0 h1 : list event),
    validate_camera H item h0 = (Ok (true, validated), h1) ->
    exists published cmd evs,
      publish_camera H validated h1 = (Ok published, (h1 ++ evs)%list) /\
      properties published !! "publish_type" = Some (VStr "Alembic Cache") /\
      exported_then_handed_off cmd published evs.

(** C6, counterexample: the camera [fxgeo_rock] passes validation, and the
    host then fails the [AbcExport] command.  The plugin logs the failure and
    returns: the item has no publish type and the base plugin is not called.
    Two more runs part from C6 with a host that carries out every command:
    the camera [shotcam], whose name holds no naming convention, passes
    validation and its publish raises [IndexError] before any export; the mesh
    [fxgeo_tree], which is not one of the top-level nodes, passes validation
    and is handed to the base plugin without any export. *)
Lemma publish_after_failed_export :
  (exists validated h1,
     validate_camera (example_host true false)
       (example_item "camera_name" "fxgeo_rock") [] = (Ok (true, validated), h1) /\
     property validated "publish_path" = Ok "/proj/publish/pub_fxgeo_rock_v001.abc" /\
     properties validated !! "publish_type" = None /\
     let cmd := abc_export_cmd (example_host true false)
                  (float_of_int 1001) (float_of_int 1100) "rock"
                  "/proj/publish/pub_fxgeo_rock_v001.abc" in
     publish_camera (example_host true false) validated h1 =
       (Ok validated,
        (h1 ++ [EnsureFolderExists "/proj/publish";
                AddAttr "fxgeo_rock" "abc_start_frame" "float";
                SetAttr "fxgeo_rock.abc_start_frame" (VFloat (float_of_int 1001));
                Rename "fxgeo_rock" "rock";
                Log "info" ("Executing command: " ++ cmd);
                MelEval cmd;
                Log "error" "Failed to export camera: AbcExport failed"])%list)) /\
  (exists validated h1,
     validate_camera (example_host true true)
       (example_item "camera_name" "shotcam") [] = (Ok (true, validated), h1) /\
     publish_camera (example_host true true) validated h1 =
       (Raise IndexError,
        (h1 ++ [EnsureFolderExists "/proj/publish";
                AddAttr "shotcam" "abc_start_frame" "float";
                SetAttr "shotcam.abc_start_frame" (VFloat (float_of_int 1001))])%list)) /\
  (exists validated h1,
     validate_mesh (example_host true true)
       (example_item "object" "fxgeo_tree") [] = (Ok (true, validated), h1) /\
     let published := set_property validated "publish_type" (VStr "Alembic Cache") in
     publish_mesh (example_host true true) validated h1 =
       (Ok published,
        (h1 ++ [EnsureFolderExists "/proj/publish"; BasePublish published])%list)) /\
  ~ camera_always_published.
Proof.
  pose (validated_of := fun (item : Item) (run : result (bool * Item) * list event) =>
          match run with
          | (Ok (_, validated), _) => validated
          | _ => item
          end).
  assert (Hfailed : exists validated h1,
     validate_camera (example_host true false)
       (example_item "camera_name" "fxgeo_rock") [] = (Ok (true, validated), h1) /\
     property validated "publish_path" = Ok "/proj/publish/pub_fxgeo_rock_v001.abc" /\
     properties validated !! "publish_type" = None /\
     let cmd := abc_export_cmd (example_host true false)
                  (float_of_int 1001) (float_of_int 1100) "rock"
                  "/proj/publish/pub_fxgeo_rock_v001.abc" in
     publish_camera (example_host true false) validated h1 =
       (Ok validated,
        (h1 ++ [EnsureFolderExists "/proj/publish";
                AddAttr "fxgeo_rock" "abc_start_frame" "float";
                SetAttr "fxgeo_rock.abc_start_frame" (VFloat (float_of_int 1001));
                Rename "fxgeo_rock" "rock";
                Log "info" ("Executing command: " ++ cmd);
                MelEval cmd;
                Log "error" "Failed to export camera: AbcExport failed"])%list)).
  { exists (validated_of (example_item "camera_name" "fxgeo_rock")
              (validate_camera (example_host true false)
                 (example_item "camera_name" "fxgeo_rock") [])),
           (snd (validate_camera (example_host true false)
                   (example_item "camera_name" "fxgeo_rock") [])).
    repeat split; vm_compute; reflexivity. }
  split; [exact Hfailed |].
  split.
  { exists (validated_of (example_item "camera_name" "shotcam")
              (validate_camera (example_host true true)
                 (example_item "camera_name" "shotcam") [])),
           (snd (validate_camera (example_host true true)
                   (example_item "camera_name" "shotcam") [])).
    split; vm_compute; reflexivity. }
  split.
  { exists (validated_of (example_item "object" "fxgeo_tree")
              (validate_mesh (example_host true true)
                 (example_item "object" "fxgeo_tree") [])),
           (snd (validate_mesh (example_host true true)
                   (example_item "object" "fxgeo_tree") [])).
    split; vm_compute; reflexivity. }
  intros Hclaim.
  destruct Hfailed as (validated & h1 & Hvalidate & _ & _ & Hpublish).
  destruct (Hclaim _ _ _ _ _ Hvalidate)
    as (published & cmd & evs' & Hpublish' & _ & pre & post & -> & Hin).
  cbv zeta in Hpublish.
  rewrite Hpublish in Hpublish'. injection Hpublish' as _ Hevs.
  apply List.app_inv_head in Hevs.
  assert (Hnone : ~ In (BasePublish published) (pre ++ MelEval cmd :: post)%list).
  { rewrite <- Hevs. apply not_handed_off. repeat constructor. }
  apply Hnone. apply in_or_app. right. now right.
Qed.

(** C6, amended: take an item that bears the node name and the publish path
    validation stores, a host that carries out the commands of the publish
    and answers the playback range, and a node that is referenced or bears
    one of the naming conventions in its name; for the mesh plugin the node
    is moreover one of the top-level nodes that hold meshes.  Then publish
    returns, having issued the [AbcExport] command over the playback range
    (the mesh plugin truncates both frames to integers) with the node, or
    its name without the convention, as root; the item it returns has the
    publish type [Alembic Cache], and this item is handed to the base plugin
    after the export. *)
Theorem publish_exports_and_registers :
  forall (H : host) (item : Item) (node path : string) (referenced : bool)
         (lo hi : float) (h : list event),
    obliging H node ->
    (forall h0, playback_min H h0 = Ok lo) ->
    (forall h0, playback_max H h0 = Ok hi) ->
    (forall h0, is_referenced H h0 node = Ok referenced) ->
    (referenced = false -> exists naming, first_naming node = Ok naming) ->
    (property item "camera_name" = Ok node ->
     property item "publish_path" = Ok path ->
     exists published evs,
       publish_camera H item h = (Ok published, (h ++ evs)%list) /\
       properties published !! "publish_type" = Some (VStr "Alembic Cache") /\
       exported_then_handed_off
         (abc_export_cmd H lo hi (export_root referenced node) path) published evs) /\
    (property item "object" = Ok node ->
     property item "path" = Ok path ->
     top_level_mesh H node ->
     forall first last,
       int_of_float lo = Ok first ->
       int_of_float hi = Ok last ->
       exists published evs,
         publish_mesh H item h = (Ok published, (h ++ evs)%list) /\
         properties published !! "publish_type" = Some (VStr "Alembic Cache") /\
         exported_then_handed_off
           (alembic_args first last (export_root referenced node) path) published evs).
Proof.
  intros H item node path referenced lo hi h Hobliging Hlo Hhi Href Hnaming. split.
  - intros Hnode Hpath.
    destruct (publish_camera_runs H item node path referenced lo hi h
                Hobliging Hlo Hhi Href Hnaming Hnode Hpath) as (evs & Hrun & Hevs).
    eexists _, evs. split; [exact Hrun |]. split; [| exact Hevs].
    cbn [set_property properties]. apply lookup_insert_eq.
  - intros Hnode Hpath Htop first last Hfirst Hlast.
    destruct (publish_mesh_runs H item node path referenced lo hi first last h
                Hobliging Htop Hlo Hhi Href Hnaming Hfirst Hlast Hnode Hpath)
      as (evs & Hrun & Hevs).
    eexists _, evs. split; [exact Hrun |]. split; [| exact Hevs].
    cbn [set_property properties]. apply lookup_insert_eq.
Qed.

Lemma publish_exports_and_registers_witness :
  (exists published evs,
     publish_camera (example_host true true)
       (example_item "camera_name" "fxgeo_rock") [] = (Ok published, ([] ++ evs)%list) /\
     properties published !! "publish_type" = Some (VStr "Alembic Cache") /\
     exported_then_handed_off
       (abc_export_cmd (example_host true true) (float_of_int 1001) (float_of_int 1100)
          (export_root false "fxgeo_rock") "/proj/publish/pub_fxgeorock_v001.abc")
       published evs) /\
  (exists published evs,
     publish_mesh (example_host true true)
       (example_item "object" "fxgeo_rock") [] = (Ok published, ([] ++ evs)%list) /\
     properties published !! "publish_type" = Some (VStr "Alembic Cache") /\
     exported_then_handed_off
       (alembic_args 1001 1100 (export_root false "fxgeo_rock")
          "/proj/publish/pub_fxgeorock_v001.abc")
       published evs).
Proof.
  assert (Hobliging : obliging (example_host true true) "fxgeo_rock").
  { repeat split; intros; try reflexivity; eexists; reflexivity. }
  assert (Hnaming : false = false -> exists naming, first_naming "fxgeo_rock" = Ok naming).
  { intros _. eexists. reflexivity. }
  split.
  - apply (proj1 (publish_exports_and_registers (example_host true true)
                    (example_item "camera_name" "fxgeo_rock") "fxgeo_rock"
                    "/proj/publish/pub_fxgeorock_v001.abc" false
                    (float_of_int 1001) (float_of_int 1100) []
                    Hobliging (fun _ => eq_refl) (fun _ => eq_refl) (fun _ => eq_refl)
                    Hnaming));
      reflexivity.
  - apply (proj2 (publish_exports_and_registers (example_host true true)
                    (example_item "object" "fxgeo_rock") "fxgeo_rock"
                    "/proj/publish/pub_fxgeorock_v001.abc" false
                    (float_of_int 1001) (float_of_int 1100) []
                    Hobliging (fun _ => eq_refl) (fun _ => eq_refl) (fun _ => eq_refl)
                    Hnaming)).
    + reflexivity.
    + reflexivity.
    + repeat split.
      * intros h. eexists. split; [reflexivity | now left].
      * intros h meshes. eexists. reflexivity.
      * intros h. discriminate.
    + reflexivity.
    + reflexivity.
Defined.

End PublishFacts.

(** ** Edges of the publish plugins *)

Module PublishEdgeFacts.
Import PyStr Re Publish PyStrFacts ReFacts ExtractFacts VersionFacts
       OffsetFacts NamespaceFacts NamingFacts PublishFacts.

#[local] Arguments String.append !s1 s2 : simpl nomatch.

(** *** Invariants of a run that depend on what the host answered *)

Lemma adds_bind_lift {E A B} (P : E -> Prop) (r : result A) (k : A -> M E B) :
  (forall a, r = Ok a -> adds P (k a)) -> adds P (bind (lift r) k).
Proof.
  intros Hk h r' h' Hrun. unfold bind, lift in Hrun.
  destruct r as [a|e].
  - exact (Hk a eq_refl _ _ _ Hrun).
  - injection Hrun as <- <-. exists []. rewrite List.app_nil_r. now split.
Qed.

Lemma adds_bind_ask {E A B} (P : E -> Prop) (f : list E -> result A)
    (k : A -> M E B) :
  (forall a, (exists h, f h = Ok a) -> adds P (k a)) -> adds P (bind (ask f) k).
Proof.
  intros Hk h r' h' Hrun. unfold bind, ask in Hrun.
  destruct (f h) as [a|e] eqn:Ef.
  - exact (Hk a (ex_intro _ h Ef) _ _ _ Hrun).
  - injection Hrun as <- <-. exists []. rewrite List.app_nil_r. now split.
Qed.

Lemma adds_bind_call {E A B} (P : E -> Prop) (e : E) (f : list E -> result A)
    (k : A -> M E B) :
  P e -> (forall a, (exists h, f h = Ok a) -> adds P (k a)) ->
  adds P (bind (call e f) k).
Proof.
  intros He Hk h r' h' Hrun. unfold bind, call in Hrun.
  destruct (f h) as [a|x] eqn:Ef.
  - destruct (Hk a (ex_intro _ h Ef) _ _ _ Hrun) as (evs & -> & Hevs).
    exists (e :: evs). rewrite <- List.app_assoc. split; [reflexivity |].
    now constructor.
  - injection Hrun as <- <-. exists [e]. split; [reflexivity |].
    now repeat constructor.
Qed.

(** *** The version number *)

(** The events of a query: a log line or a question to the tracking
    service. *)
Definition asks_only (e : event) : Prop :=
  match e with
  | Log _ _ | ShotgunFind _ => True
  | _ => False
  end.

Lemma set_version_asks (re_search : string -> string -> result (option string))
    (shotgun_find : list event -> string -> result (list PublishedFile))
    (publish_name : string) (item : Item) :
  adds asks_only (set_version re_search shotgun_find publish_name item).
Proof.
  unfold set_version, extract_name. adds_auto.
  unfold extract_step. adds_auto.
Qed.

Lemma next_version_floor (versions : list Z) (l : list PublishedFile) :
  Forall (fun x => 0 <= x) versions -> 1 <= next_version versions l.
Proof.
  intros Hpos. destruct l as [|p l]; [cbn; lia |].
  destruct versions as [|v vs]; [cbn; lia |].
  cbn [next_version]. cbv zeta.
  destruct (py_max_spec v vs) as [Hin _].
  assert (0 <= py_max v vs).
  { rewrite List.Forall_forall in Hpos. now apply Hpos. }
  destruct (Z.eqb_spec (py_max v vs + 1) 0); lia.
Qed.

Lemma set_version_floor (re_search : string -> string -> result (option string))
    (shotgun_find : list event -> string -> result (list PublishedFile))
    (publish_name : string) (item : Item) (h h' : list event) (v : Z) :
  set_version re_search shotgun_find publish_name item h = (Ok v, h') -> 1 <= v.
Proof.
  intros Hrun. unfold set_version, mbind, mret, M_bind, M_ret in Hrun.
  apply bind_inv in Hrun. destruct Hrun as (name & h1 & _ & Hrun).
  apply bind_inv in Hrun. destruct Hrun as (l & h2 & _ & Hrun).
  apply ret_inv in Hrun. destruct Hrun as (-> & _).
  apply next_version_floor. apply List.Forall_forall. intros x Hx.
  apply collect_versions_spec in Hx as (p & _ & Hp).
  now apply try_version_nonneg in Hp.
Qed.

(** X1: whatever the tracking service returns and whatever the run-time
    pattern matches, a version number that [set_version] returns is at least
    1, and all [set_version] does to the outside is to log and to query the
    tracking service. *)
Theorem set_version_at_least_one :
  forall (re_search : string -> string -> result (option string))
         (shotgun_find : list event -> string -> result (list PublishedFile))
         (publish_name : string) (item : Item) (h h' : list event) (r : result Z),
    set_version re_search shotgun_find publish_name item h = (r, h') ->
    (forall v, r = Ok v -> 1 <= v) /\
    exists evs, h' = (h ++ evs)%list /\ Forall asks_only evs.
Proof.
  intros re_search shotgun_find publish_name item h h' r Hrun. split.
  - intros v ->. exact (set_version_floor _ _ _ _ _ _ _ Hrun).
  - exact (set_version_asks re_search shotgun_find publish_name item _ _ _ Hrun).
Qed.

Lemma set_version_at_least_one_witness :
  (forall v,
     fst (set_version literal_search
            (fun _ _ => Ok [ {| code := Some "pub1_MMtrackalembic_boulder_v012.abc";
                                version_number := Some 12 |} ])
            "pub1_MMtrackalembic_boulder_v001.abc"
            (example_item "object" "MMtrackalembic_boulder") []) = Ok v ->
     1 <= v) /\
  fst (set_version literal_search
         (fun _ _ => Ok [ {| code := Some "pub1_MMtrackalembic_boulder_v012.abc";
                             version_number := Some 12 |} ])
         "pub1_MMtrackalembic_boulder_v001.abc"
         (example_item "object" "MMtrackalembic_boulder") []) = Ok 13.
Proof.
  split; [| reflexivity].
  exact (proj1 (set_version_at_least_one literal_search
                  (fun _ _ => Ok [ {| code := Some "pub1_MMtrackalembic_boulder_v012.abc";
                                      version_number := Some 12 |} ])
                  "pub1_MMtrackalembic_boulder_v001.abc"
                  (example_item "object" "MMtrackalembic_boulder") [] _ _
                  (surjective_pairing _))).
Defined.

Lemma collect_versions_untyped
    (re_search : string -> string -> result (option string))
    (l : list PublishedFile) :
  collect_versions re_search StrType l = [].
Proof.
  unfold collect_versions.
  assert (Hgen : forall acc,
             fold_left
               (fun versions publishes =>
                  match try_version re_search StrType publishes with
                  | Ok (Some version) => (versions ++ [version])%list
                  | _ => versions
                  end) l acc = acc).
  { induction l as [|p l IH]; intros acc; [reflexivity |]. cbn. apply IH. }
  apply Hgen.
Qed.

(** X2: a publish name that holds none of the seven entity tokens never
    versions up.  The extracted name stays the type [str], every search with
    it raises inside the [try], no version is collected, and [set_version]
    returns 1 whatever the tracking service lists for the task. *)
Theorem set_version_without_entity :
  forall (re_search : string -> string -> result (option string))
         (shotgun_find : list event -> string -> result (list PublishedFile))
         (publish_name : string) (item : Item) (h : list event)
         (l : list PublishedFile),
    (forall e, In e GEO_CONSTANT_ENTITIES -> contains e publish_name = false) ->
    shotgun_find h (context_task item) = Ok l ->
    set_version re_search shotgun_find publish_name item h =
      (Ok 1, (h ++ [ShotgunFind (context_task item)])%list).
Proof.
  intros re_search shotgun_find publish_name item h l Habsent Hfind.
  unfold set_version, extract_name, mbind, mret, M_bind, M_ret.
  rewrite (bind_ok _ _ _ _ _ (for_fold_absent publish_name _ StrType h Habsent)).
  unfold bind, call, ret. rewrite Hfind, collect_versions_untyped.
  now destruct l.
Qed.

Lemma set_version_without_entity_witness :
  set_version literal_search
    (fun _ _ => Ok [ {| code := Some "pub_shotcam_v007.abc";
                        version_number := Some 7 |} ])
    "pub_shotcam_v001.abc" (example_item "camera_name" "shotcam") [] =
    (Ok 1, [ShotgunFind "layout"]).
Proof.
  apply (set_version_without_entity literal_search
           (fun _ _ => Ok [ {| code := Some "pub_shotcam_v007.abc";
                               version_number := Some 7 |} ])
           "pub_shotcam_v001.abc" (example_item "camera_name" "shotcam") []
           [ {| code := Some "pub_shotcam_v007.abc"; version_number := Some 7 |} ]).
  - intros e He. cbn in He.
    repeat (destruct He as [<- | He]; [reflexivity |]). destruct He.
  - reflexivity.
Defined.

(** *** Validation *)

(** Events that leave the scene as it is, the selection apart: log lines,
    questions to the tracking service, selections, the window with the
    naming errors and the validation of the base plugin. *)
Definition leaves_scene (e : event) : Prop :=
  match e with
  | Log _ _ | ShotgunFind _ | Select _ | SelectList _ | ValidationUI _ _
  | BaseValidate _ => True
  | _ => False
  end.

Lemma asks_only_leaves_scene (e : event) : asks_only e -> leaves_scene e.
Proof. now destruct e. Qed.

Lemma resolve_publish_path_leaves_scene (H : host) (item : Item) (path short : string) :
  adds leaves_scene (resolve_publish_path H item path short).
Proof.
  unfold resolve_publish_path. adds_auto.
  eapply adds_weaken; [apply asks_only_leaves_scene | apply set_version_asks].
Qed.

Lemma camera_naming_checks_leave_scene (H : host) (cam_name : string) :
  adds leaves_scene (camera_naming_checks H cam_name).
Proof. unfold camera_naming_checks, flag. adds_auto. Qed.

Lemma mesh_naming_checks_leave_scene (H : host) (object_name : string) :
  adds leaves_scene (mesh_naming_checks H object_name).
Proof.
  unfold mesh_naming_checks, flag. adds_auto.
  unfold mesh_descendant_check. adds_auto.
Qed.

Lemma validate_camera_leaves_scene (H : host) (item : Item) :
  adds leaves_scene (validate_camera H item).
Proof.
  unfold validate_camera, saved_session_path, show_errors. adds_auto;
    first [ apply camera_naming_checks_leave_scene
          | apply resolve_publish_path_leaves_scene ].
Qed.

Lemma validate_mesh_leaves_scene (H : host) (item : Item) :
  adds leaves_scene (validate_mesh H item).
Proof.
  unfold validate_mesh, saved_session_path, show_errors. adds_auto;
    first [ apply mesh_naming_checks_leave_scene
          | apply resolve_publish_path_leaves_scene ].
Qed.

(** X3: whatever the host answers and however it ends, [validate] of either
    plugin changes nothing in the scene but the selection: it issues no
    rename, no export, no attribute command, creates no folder and registers
    nothing.  All it issues are log lines, selections, the window with the
    naming errors, the query of the tracking service and the validation of the
    base plugin. *)
Theorem validate_leaves_scene :
  forall (H : host) (item : Item) (h h' : list event) (r : result (bool * Item)),
    validate_camera H item h = (r, h') \/ validate_mesh H item h = (r, h') ->
    exists evs, h' = (h ++ evs)%list /\ Forall leaves_scene evs.
Proof.
  intros H item h h' r [Hrun | Hrun].
  - exact (validate_camera_leaves_scene H item _ _ _ Hrun).
  - exact (validate_mesh_leaves_scene H item _ _ _ Hrun).
Qed.

Lemma validate_leaves_scene_witness :
  exists evs,
    snd (validate_mesh (example_host true true) (example_item "object" "pCube1_") []) =
      ([] ++ evs)%list /\
    Forall leaves_scene evs.
Proof.
  exact (validate_leaves_scene (example_host true true)
           (example_item "object" "pCube1_") [] _ _
           (or_intror (surjective_pairing _))).
Defined.

(** The four properties [validate] writes. *)
Definition publish_keys : list string :=
  ["path"; "publish_path"; "publish_name"; "publish_version"].

(** What the end of [validate] leaves in the item. *)
Lemma resolve_publish_path_inv (H : host) (item validated : Item)
    (path short : string) (ok : bool) (h h' : list event) :
  resolve_publish_path H item path short h = (Ok (ok, validated), h') ->
  exists p v h1,
    properties validated !! "path" = Some (VStr p) /\
    properties validated !! "publish_path" = Some (VStr p) /\
    properties validated !! "publish_name" = Some (VStr (basename H p)) /\
    properties validated !! "publish_version" = Some (VInt v) /\
    1 <= v /\
    (forall k, ~ In k publish_keys -> properties validated !! k = properties item !! k) /\
    h' = (h1 ++ [BaseValidate validated])%list /\
    base_validate H h1 validated = Ok ok.
Proof.
  intros Hrun.
  unfold resolve_publish_path, mbind, mret, M_bind, M_ret in Hrun.
  cbv beta zeta in Hrun.
  inv_bind Hrun work_fields h1 H1. inv_lift H1 Hfields.
  inv_bind Hrun missing h1 H1. inv_lift H1 Hmissing.
  destruct missing as [|k ks].
  2:{ inv_bind Hrun u h1 H1. discriminate Hrun. }
  inv_bind Hrun publish_path h1 H1. inv_lift H1 Hpublish.
  inv_bind Hrun version h1 H1.
  pose proof (set_version_floor _ _ _ _ _ _ _ H1) as Hfloor.
  inv_bind Hrun versioned h2 H2. inv_lift H2 Hversioned.
  inv_bind Hrun ok' h2 H2. inv_call H2 Hbase.
  apply ret_inv in Hrun. destruct Hrun as (Hpair & ->).
  injection Hpair as -> ->.
  exists (PyStr.replace (alnum_only short) short versioned), version, h1.
  cbn [set_property properties].
  repeat split; try assumption.
  - rewrite lookup_insert_ne by discriminate.
    rewrite lookup_insert_ne by discriminate.
    rewrite lookup_insert_ne by discriminate.
    apply lookup_insert_eq.
  - rewrite lookup_insert_ne by discriminate.
    rewrite lookup_insert_ne by discriminate.
    apply lookup_insert_eq.
  - rewrite lookup_insert_ne by discriminate.
    apply lookup_insert_eq.
  - apply lookup_insert_eq.
  - intros k Hk. unfold publish_keys in Hk. cbn [In] in Hk.
    rewrite !lookup_insert_ne; [reflexivity | ..]; intros <-; tauto.
Qed.

(** X4: when [validate] of either plugin returns, its answer is the answer
    of the base plugin's validation, asked last and about the item as
    [validate] leaves it.  In that item [path] and [publish_path] hold the
    same path, [publish_name] is its base name, [publish_version] is a
    version number of at least 1, and every other property is as it was. *)
Theorem validate_stores_publish_data :
  forall (H : host) (item validated : Item) (ok : bool) (h h' : list event),
    validate_camera H item h = (Ok (ok, validated), h') \/
    validate_mesh H item h = (Ok (ok, validated), h') ->
    exists p v h1,
      properties validated !! "path" = Some (VStr p) /\
      properties validated !! "publish_path" = Some (VStr p) /\
      properties validated !! "publish_name" = Some (VStr (basename H p)) /\
      properties validated !! "publish_version" = Some (VInt v) /\
      1 <= v /\
      (forall k, ~ In k publish_keys ->
                 properties validated !! k = properties item !! k) /\
      h' = (h1 ++ [BaseValidate validated])%list /\
      base_validate H h1 validated = Ok ok.
Proof.
  intros H item validated ok h h' [Hrun | Hrun].
  - unfold validate_camera, mbind, mret, M_bind, M_ret in Hrun.
    inv_bind Hrun path h1 H1. inv_bind Hrun cam_name h2 H2.
    inv_bind Hrun error_msg h3 H3. inv_bind Hrun u h4 H4.
    inv_bind Hrun found h5 H5. destruct found as [|x found].
    { inv_bind Hrun u' h6 H6. discriminate Hrun. }
    inv_bind Hrun short h6 H6.
    exact (resolve_publish_path_inv _ _ _ _ _ _ _ _ Hrun).
  - unfold validate_mesh, mbind, mret, M_bind, M_ret in Hrun.
    inv_bind Hrun path h1 H1. inv_bind Hrun object_name h2 H2.
    inv_bind Hrun error_msg h3 H3. inv_bind Hrun u h4 H4.
    inv_bind Hrun short h5 H5. inv_bind Hrun assemblies h6 H6.
    inv_bind Hrun u' h7 H7.
    exact (resolve_publish_path_inv _ _ _ _ _ _ _ _ Hrun).
Qed.

Lemma validate_stores_publish_data_witness :
  exists validated h',
    validate_camera (example_host true true)
      (example_item "camera_name" "fxgeo_rock") [] = (Ok (true, validated), h') /\
    properties validated !! "publish_path" =
      Some (VStr "/proj/publish/pub_fxgeo_rock_v001.abc") /\
    properties validated !! "publish_name" = Some (VStr "pub_fxgeo_rock_v001.abc") /\
    properties validated !! "publish_version" = Some (VInt 1) /\
    properties validated !! "camera_name" = Some (VStr "fxgeo_rock").
Proof.
  pose (run := validate_camera (example_host true true)
                 (example_item "camera_name" "fxgeo_rock") []).
  pose (validated := match fst run with
                     | Ok (_, it) => it
                     | Raise _ => example_item "camera_name" "fxgeo_rock"
                     end).
  assert (Hrun : run = (Ok (true, validated), snd run)) by (vm_compute; reflexivity).
  destruct (validate_stores_publish_data (example_host true true)
              (example_item "camera_name" "fxgeo_rock") validated true [] (snd run)
              (or_introl Hrun))
    as (p & v & h1 & Hpath & Hpublish & Hname & Hversion & _ & Hframe & _ & _).
  exists validated, (snd run). split; [exact Hrun |].
  assert (Hp : properties validated !! "publish_path" =
               Some (VStr "/proj/publish/pub_fxgeo_rock_v001.abc"))
    by (vm_compute; reflexivity).
  assert (Hv : properties validated !! "publish_version" = Some (VInt 1))
    by (vm_compute; reflexivity).
  rewrite Hp in Hpublish. injection Hpublish as <-.
  rewrite Hv in Hversion. injection Hversion as <-.
  split; [exact Hp |]. split; [exact Hname |]. split; [exact Hv |].
  rewrite Hframe; [reflexivity |].
  cbn. intuition discriminate.
Defined.

(** Events before the publish path is resolved: anything but the query of
    the tracking service and the validation of the base plugin. *)
Definition unresolved (e : event) : Prop :=
  match e with
  | ShotgunFind _ | BaseValidate _ => False
  | _ => True
  end.

(** A computation that never returns a value. *)
Definition never_returns {E A} (m : M E A) : Prop :=
  forall h a h', m h <> (Ok a, h').

Lemma adds_bind_never {E A B} (P : E -> Prop) (m : M E A) (k : A -> M E B) :
  never_returns m -> adds P m -> adds P (bind m k).
Proof.
  intros Hnever Hm h r h' Hrun. unfold bind in Hrun.
  destruct (m h) as [[a|e] h1] eqn:E1.
  - now apply Hnever in E1.
  - injection Hrun as <- <-. exact (Hm _ _ _ E1).
Qed.

Lemma resolve_publish_path_missing (H : host) (item : Item) (path short : string) :
  (forall tmpl fields, missing_keys H tmpl fields <> Ok []) ->
  never_returns (resolve_publish_path H item path short) /\
  adds unresolved (resolve_publish_path H item path short).
Proof.
  intros Hmissing. split.
  - intros h [ok validated] h' Hrun.
    unfold resolve_publish_path, mbind, mret, M_bind, M_ret in Hrun.
    cbv beta zeta in Hrun.
    inv_bind Hrun work_fields h1 H1. inv_lift H1 Hfields.
    inv_bind Hrun missing h1 H1. inv_lift H1 Hm.
    destruct missing as [|k ks]; [now apply Hmissing in Hm |].
    inv_bind Hrun u h1 H1. discriminate Hrun.
  - unfold resolve_publish_path, mbind, mret, M_bind, M_ret. cbv beta zeta.
    apply adds_bind_lift. intros work_fields _.
    apply adds_bind_lift. intros missing Hm.
    destruct missing as [|k ks]; [now apply Hmissing in Hm |].
    adds_auto.
Qed.

Lemma camera_naming_checks_unresolved (H : host) (cam_name : string) :
  adds unresolved (camera_naming_checks H cam_name).
Proof. unfold camera_naming_checks, flag. adds_auto. Qed.

Lemma mesh_naming_checks_unresolved (H : host) (object_name : string) :
  adds unresolved (mesh_naming_checks H object_name).
Proof.
  unfold mesh_naming_checks, flag. adds_auto.
  unfold mesh_descendant_check. adds_auto.
Qed.

Lemma failed_run {E A B} (m : M E A) (k : A -> M E B) (h h' : list E) (b : B) :
  (forall a, never_returns (k a)) -> bind m k h <> (Ok b, h').
Proof.
  intros Hk Hrun. apply bind_inv in Hrun. destruct Hrun as (a & h1 & _ & Hrun).
  exact (Hk a _ _ _ Hrun).
Qed.

(** X5: when the publish template misses keys of the work file, [validate]
    of either plugin does not return: it raises.  It does so before the query
    of the tracking service and before the validation of the base plugin,
    neither of which is reached. *)
Theorem validate_missing_keys :
  forall (H : host) (item : Item) (h h' : list event) (r : result (bool * Item)),
    (forall tmpl fields, missing_keys H tmpl fields <> Ok []) ->
    validate_camera H item h = (r, h') \/ validate_mesh H item h = (r, h') ->
    (exists e, r = Raise e) /\
    exists evs, h' = (h ++ evs)%list /\ Forall unresolved evs.
Proof.
  intros H item h h' r Hmissing Hrun.
  assert (Hnever : forall path short,
             never_returns (resolve_publish_path H item path short))
    by (intros; now apply resolve_publish_path_missing).
  assert (Hadds : forall path short,
             adds unresolved (resolve_publish_path H item path short))
    by (intros; now apply resolve_publish_path_missing).
  destruct Hrun as [Hrun | Hrun]; split.
  - destruct r as [[ok validated]|e]; [exfalso | now exists e].
    unfold validate_camera, mbind, mret, M_bind, M_ret in Hrun.
    inv_bind Hrun path h1 H1. inv_bind Hrun cam_name h2 H2.
    inv_bind Hrun error_msg h3 H3. inv_bind Hrun u h4 H4.
    inv_bind Hrun found h5 H5. destruct found as [|x found].
    { inv_bind Hrun u' h6 H6. discriminate Hrun. }
    inv_bind Hrun short h6 H6. exact (Hnever _ _ _ _ _ Hrun).
  - revert Hrun. generalize h r h'.
    change (adds unresolved (validate_camera H item)).
    unfold validate_camera, saved_session_path, show_errors. adds_auto;
      first [ apply camera_naming_checks_unresolved | apply Hadds ].
  - destruct r as [[ok validated]|e]; [exfalso | now exists e].
    unfold validate_mesh, mbind, mret, M_bind, M_ret in Hrun.
    inv_bind Hrun path h1 H1. inv_bind Hrun object_name h2 H2.
    inv_bind Hrun error_msg h3 H3. inv_bind Hrun u h4 H4.
    inv_bind Hrun short h5 H5. inv_bind Hrun assemblies h6 H6.
    inv_bind Hrun u' h7 H7. exact (Hnever _ _ _ _ _ Hrun).
  - revert Hrun. generalize h r h'.
    change (adds unresolved (validate_mesh H item)).
    unfold validate_mesh, saved_session_path, show_errors. adds_auto;
      first [ apply mesh_naming_checks_unresolved | apply Hadds ].
Qed.

(** A scene to try the edges of the plugins: the scene of [example_host]
    with a publish template that misses the key [missing] (when there is
    one), nodes without descendants when [childless], the start frame
    stamped or not, the node referenced or not, and a host that carries out
    renames and exports or refuses them. *)
Definition edge_host (missing : list string) (childless stamped referenced : bool)
    (rename_works export_works : bool) : host := {|
  re_search := literal_search;
  shotgun_find := fun _ _ => Ok [];
  session_path := fun _ => "/proj/work/scene.ma";
  normalize := fun p => p;
  basename := posix_basename;
  dirname := posix_dirname;
  path_sep := "/"%char;
  str_float := str_float (example_host true true);
  select := fun _ _ => Ok tt;
  select_list := fun _ _ => Ok tt;
  listRelatives_shapes := fun _ _ => Ok None;
  listRelatives_shapes_mesh := fun _ _ => Ok None;
  listRelatives_ad := fun _ node =>
    Ok (if childless then None else Some [node ++ "Shape"]);
  listRelatives_ad_fullPath := fun _ node => Ok (Some ["|" ++ node ++ "|" ++ node ++ "Shape"]);
  listRelatives_parent := fun _ _ => Ok [];
  ls := fun _ node => Ok [node];
  ls_selection := fun _ => Ok ["persp"];
  ls_assemblies := fun _ => Ok ["fxgeo_rock"; "persp"];
  ls_dag_mesh := fun _ node =>
    Ok (if String.eqb node "persp" then [] else [node ++ "Shape"]);
  get_fields := fun _ _ => Ok ∅;
  missing_keys := fun _ _ => Ok missing;
  apply_fields := apply_fields (example_host true true);
  base_validate := fun _ _ => Ok true;
  base_publish := fun _ _ => Ok tt;
  ensure_folder_exists := fun _ _ => Ok tt;
  playback_min := fun _ => Ok (float_of_int 1001);
  playback_max := fun _ => Ok (float_of_int 1100);
  attribute_exists := fun _ _ _ => Ok stamped;
  addAttr := fun _ _ _ _ => Ok tt;
  setAttr := fun _ _ _ => Ok tt;
  is_referenced := fun _ _ => Ok referenced;
  rename := fun _ _ new =>
    if rename_works then Ok new else Raise (HostError "rename failed");
  mel_eval := fun _ _ =>
    if export_works then Ok tt else Raise (HostError "AbcExport failed")
|}.

Lemma validate_missing_keys_witness :
  exists e evs,
    validate_camera (edge_host ["Shot"] false false false true true)
      (example_item "camera_name" "fxgeo_rock") [] = (Raise e, ([] ++ evs)%list) /\
    Forall unresolved evs.
Proof.
  destruct (validate_missing_keys (edge_host ["Shot"] false false false true true)
              (example_item "camera_name" "fxgeo_rock") [] _ _
              (fun _ _ => ltac:(discriminate))
              (or_introl (surjective_pairing _)))
    as ((e & He) & evs & Hevs & Hall).
  exists e, evs. split; [| exact Hall].
  rewrite (surjective_pairing (validate_camera _ _ _)). now rewrite He, Hevs.
Defined.

(** Events before the naming errors are shown. *)
Definition unshown (e : event) : Prop :=
  match e with
  | ValidationUI _ _ | ShotgunFind _ | BaseValidate _ => False
  | _ => True
  end.

Lemma camera_naming_checks_childless (H : host) (node : string) :
  (forall h, listRelatives_ad H h node = Ok None) ->
  never_returns (camera_naming_checks H node).
Proof.
  intros Hnone h a h' Hrun.
  unfold camera_naming_checks, mbind, mret, M_bind, M_ret in Hrun.
  cbv beta zeta in Hrun.
  inv_bind Hrun e1 h1 H1. inv_bind Hrun e2 h2 H2. inv_bind Hrun e3 h3 H3.
  inv_bind Hrun shapes h4 H4. inv_bind Hrun e5 h5 H5.
  inv_bind Hrun descendants h6 H6. inv_ask H6 Hd. rewrite Hnone in Hd.
  injection Hd as <-.
  inv_bind Hrun l h7 H7. discriminate H7.
Qed.

Lemma mesh_naming_checks_childless (H : host) (node : string) :
  (forall h, listRelatives_ad H h node = Ok None) ->
  never_returns (mesh_naming_checks H node).
Proof.
  intros Hnone h a h' Hrun.
  unfold mesh_naming_checks, mbind, mret, M_bind, M_ret in Hrun.
  cbv beta zeta in Hrun.
  inv_bind Hrun e1 h1 H1. inv_bind Hrun e2 h2 H2.
  inv_bind Hrun mesh_shapes h3 H3. inv_bind Hrun e4 h4 H4.
  inv_bind Hrun e5 h5 H5. inv_bind Hrun shapes h6 H6.
  inv_bind Hrun e7 h7 H7. inv_bind Hrun e8 h8 H8. inv_bind Hrun e9 h9 H9.
  inv_bind Hrun descendants h10 H10. inv_ask H10 Hd. rewrite Hnone in Hd.
  injection Hd as <-.
  inv_bind Hrun l h11 H11. discriminate H11.
Qed.

Lemma camera_naming_checks_unshown (H : host) (cam_name : string) :
  adds unshown (camera_naming_checks H cam_name).
Proof. unfold camera_naming_checks, flag. adds_auto. Qed.

Lemma mesh_naming_checks_unshown (H : host) (object_name : string) :
  adds unshown (mesh_naming_checks H object_name).
Proof.
  unfold mesh_naming_checks, flag. adds_auto.
  unfold mesh_descendant_check. adds_auto.
Qed.

(** X6: a node for which [listRelatives(node, ad=True)] answers [None] (it
    has no descendants) cannot be validated.  The loop over the descendants
    raises before the naming errors found so far are shown, so [validate] of
    either plugin raises without showing its window, and reaches neither the
    tracking service nor the validation of the base plugin. *)
Theorem validate_childless_node :
  forall (H : host) (item : Item) (node : string) (h h' : list event)
         (r : result (bool * Item)),
    (forall h0, listRelatives_ad H h0 node = Ok None) ->
    (property item "camera_name" = Ok node /\ validate_camera H item h = (r, h')) \/
    (property item "object" = Ok node /\ validate_mesh H item h = (r, h')) ->
    (exists e, r = Raise e) /\
    exists evs, h' = (h ++ evs)%list /\ Forall unshown evs.
Proof.
  intros H item node h h' r Hnone [[Hnode Hrun] | [Hnode Hrun]]; split.
  - destruct r as [[ok validated]|e]; [exfalso | now exists e].
    unfold validate_camera, mbind, mret, M_bind, M_ret in Hrun.
    inv_bind Hrun path h1 H1. inv_bind Hrun cam_name h2 H2. inv_lift H2 Hcam.
    rewrite Hnode in Hcam. injection Hcam as <-.
    inv_bind Hrun error_msg h3 H3.
    exact (camera_naming_checks_childless H node Hnone _ _ _ H3).
  - revert Hrun. generalize h r h'.
    change (adds unshown (validate_camera H item)).
    unfold validate_camera, saved_session_path, mbind, mret, M_bind, M_ret.
    apply adds_bind; [adds_auto |]. intros path.
    apply adds_bind_lift. intros cam_name Hcam.
    rewrite Hnode in Hcam. injection Hcam as <-.
    apply adds_bind_never.
    + now apply camera_naming_checks_childless.
    + apply camera_naming_checks_unshown.
  - destruct r as [[ok validated]|e]; [exfalso | now exists e].
    unfold validate_mesh, mbind, mret, M_bind, M_ret in Hrun.
    inv_bind Hrun path h1 H1. inv_bind Hrun object_name h2 H2. inv_lift H2 Hobj.
    rewrite Hnode in Hobj. injection Hobj as <-.
    inv_bind Hrun error_msg h3 H3.
    exact (mesh_naming_checks_childless H node Hnone _ _ _ H3).
  - revert Hrun. generalize h r h'.
    change (adds unshown (validate_mesh H item)).
    unfold validate_mesh, saved_session_path, mbind, mret, M_bind, M_ret.
    apply adds_bind; [adds_auto |]. intros path.
    apply adds_bind_lift. intros object_name Hobj.
    rewrite Hnode in Hobj. injection Hobj as <-.
    apply adds_bind_never.
    + now apply mesh_naming_checks_childless.
    + apply mesh_naming_checks_unshown.
Qed.

Lemma validate_childless_node_witness :
  validate_camera (edge_host [] true false false true true)
    (example_item "camera_name" "shotcam_") [] =
    (Raise TypeError, [Select "shotcam_"; Select "shotcam_"; Select "shotcam_"]) /\
  exists evs,
    [Select "shotcam_"; Select "shotcam_"; Select "shotcam_"] = ([] ++ evs)%list /\
    Forall unshown evs.
Proof.
  assert (Hrun : validate_camera (edge_host [] true false false true true)
                   (example_item "camera_name" "shotcam_") [] =
                 (Raise TypeError,
                  [Select "shotcam_"; Select "shotcam_"; Select "shotcam_"]))
    by (vm_compute; reflexivity).
  split; [exact Hrun |].
  exact (proj2 (validate_childless_node (edge_host [] true false false true true)
                  (example_item "camera_name" "shotcam_") "shotcam_" [] _ _
                  (fun _ => eq_refl) (or_introl (conj eq_refl Hrun)))).
Defined.

(** *** The publish step *)

(** Events other than the stamping of the start frame. *)
Definition unstamped (e : event) : Prop :=
  match e with
  | AddAttr _ _ _ | SetAttr _ _ => False
  | _ => True
  end.

(** Events other than renames. *)
Definition unrenamed (e : event) : Prop :=
  match e with
  | Rename _ _ => False
  | _ => True
  end.

Lemma stamp_start_frame_stamped (H : host) (node : string) (v : pyval) :
  (forall h, attribute_exists H h "abc_start_frame" node <> Ok false) ->
  adds unstamped (stamp_start_frame H node v).
Proof.
  intros Hstamped. unfold stamp_start_frame, mbind, mret, M_bind, M_ret.
  apply adds_bind_ask. intros [|] [h Ha]; [| now apply Hstamped in Ha].
  cbn [negb]. apply adds_ret.
Qed.

Lemma stamp_start_frame_unrenamed (H : host) (node : string) (v : pyval) :
  adds unrenamed (stamp_start_frame H node v).
Proof. unfold stamp_start_frame. adds_auto. Qed.

Lemma publish_camera_stamped (H : host) (item : Item) (node : string) :
  (forall h, attribute_exists H h "abc_start_frame" node <> Ok false) ->
  property item "camera_name" = Ok node ->
  adds unstamped (publish_camera H item).
Proof.
  intros Hstamped Hnode.
  unfold publish_camera, mbind, mret, M_bind, M_ret. cbv beta zeta.
  apply adds_bind; [apply adds_ask |]. intros sel.
  apply adds_bind_lift. intros cam Hcam.
  rewrite Hnode in Hcam. injection Hcam as <-.
  adds_more. now apply stamp_start_frame_stamped.
Qed.

Lemma publish_mesh_stamped (H : host) (item : Item) (node : string) :
  (forall h, attribute_exists H h "abc_start_frame" node <> Ok false) ->
  property item "object" = Ok node ->
  adds unstamped (publish_mesh H item).
Proof.
  intros Hstamped Hnode.
  unfold publish_mesh, mbind, mret, M_bind, M_ret. cbv beta zeta.
  apply adds_bind; [apply adds_lift |]. intros path.
  apply adds_bind; [now apply adds_call |]. intros u.
  apply adds_bind_lift. intros mesh_object Hobj.
  rewrite Hnode in Hobj. injection Hobj as <-.
  apply adds_bind; [apply adds_ask |]. intros assemblies.
  apply adds_bind; [| intros [|]; adds_more].
  apply adds_for_until. intros meshes.
  unfold publish_mesh_round, mbind, mret, M_bind, M_ret. cbv beta zeta.
  apply adds_bind; [apply adds_ask |]. intros [|shape dag]; [apply adds_ret |].
  destruct (String.eqb node meshes) eqn:Esame; [| apply adds_ret].
  apply String.eqb_eq in Esame. subst meshes.
  adds_more. now apply stamp_start_frame_stamped.
Qed.

(** X7: [publish] never stamps a node twice.  When the host does not report
    the attribute [abc_start_frame] as missing on the node, neither plugin
    adds the attribute nor sets it, whatever else happens: a start frame
    stamped by an earlier publish is kept. *)
Theorem publish_keeps_start_frame :
  forall (H : host) (item : Item) (node : string) (h h' : list event)
         (r : result Item),
    (forall h0, attribute_exists H h0 "abc_start_frame" node <> Ok false) ->
    (property item "camera_name" = Ok node /\ publish_camera H item h = (r, h')) \/
    (property item "object" = Ok node /\ publish_mesh H item h = (r, h')) ->
    exists evs, h' = (h ++ evs)%list /\ Forall unstamped evs.
Proof.
  intros H item node h h' r Hstamped [[Hnode Hrun] | [Hnode Hrun]].
  - exact (publish_camera_stamped H item node Hstamped Hnode _ _ _ Hrun).
  - exact (publish_mesh_stamped H item node Hstamped Hnode _ _ _ Hrun).
Qed.

Lemma publish_keeps_start_frame_witness :
  exists evs,
    snd (publish_mesh (edge_host [] false true false true true)
           (example_item "object" "fxgeo_rock") []) = ([] ++ evs)%list /\
    Forall unstamped evs.
Proof.
  apply (publish_keeps_start_frame (edge_host [] false true false true true)
           (example_item "object" "fxgeo_rock") "fxgeo_rock" [] _
           (fst (publish_mesh (edge_host [] false true false true true)
                   (example_item "object" "fxgeo_rock") []))).
  - intros h0. discriminate.
  - right. split; [reflexivity | apply surjective_pairing].
Defined.

Lemma publish_camera_referenced (H : host) (item : Item) (node : string) :
  (forall h, is_referenced H h node <> Ok false) ->
  property item "camera_name" = Ok node ->
  adds unrenamed (publish_camera H item).
Proof.
  intros Href Hnode.
  unfold publish_camera, mbind, mret, M_bind, M_ret. cbv beta zeta.
  apply adds_bind; [apply adds_ask |]. intros sel.
  apply adds_bind_lift. intros cam Hcam.
  rewrite Hnode in Hcam. injection Hcam as <-.
  apply adds_bind; [apply adds_lift |]. intros path.
  apply adds_bind; [now apply adds_call |]. intros u.
  apply adds_bind; [apply adds_ask |]. intros lo.
  apply adds_bind; [apply adds_ask |]. intros hi.
  apply adds_bind; [apply stamp_start_frame_unrenamed |]. intros u'.
  apply adds_bind_ask. intros [|] [h Ha]; [| now apply Href in Ha].
  cbn [negb]. adds_more.
Qed.

Lemma publish_mesh_referenced (H : host) (item : Item) (node : string) :
  (forall h, is_referenced H h node <> Ok false) ->
  property item "object" = Ok node ->
  adds unrenamed (publish_mesh H item).
Proof.
  intros Href Hnode.
  unfold publish_mesh, mbind, mret, M_bind, M_ret. cbv beta zeta.
  apply adds_bind; [apply adds_lift |]. intros path.
  apply adds_bind; [now apply adds_call |]. intros u.
  apply adds_bind_lift. intros mesh_object Hobj.
  rewrite Hnode in Hobj. injection Hobj as <-.
  apply adds_bind; [apply adds_ask |]. intros assemblies.
  apply adds_bind; [| intros [|]; adds_more].
  apply adds_for_until. intros meshes.
  unfold publish_mesh_round, mbind, mret, M_bind, M_ret. cbv beta zeta.
  apply adds_bind; [apply adds_ask |]. intros [|shape dag]; [apply adds_ret |].
  destruct (String.eqb node meshes) eqn:Esame; [| apply adds_ret].
  apply String.eqb_eq in Esame. subst meshes.
  apply adds_bind; [apply adds_ask |]. intros minimum.
  apply adds_bind; [apply adds_lift |]. intros lo.
  apply adds_bind; [apply adds_ask |]. intros maximum.
  apply adds_bind; [apply adds_lift |]. intros hi.
  apply adds_bind; [apply stamp_start_frame_unrenamed |]. intros u'.
  apply adds_bind_ask. intros [|] [h Ha]; [| now apply Href in Ha].
  cbn [negb]. adds_more.
Qed.

(** X8: a referenced node is never renamed.  When the host does not report
    the node as free of a reference, neither plugin issues a rename, however
    the publish ends. *)
Theorem publish_never_renames_referenced :
  forall (H : host) (item : Item) (node : string) (h h' : list event)
         (r : result Item),
    (forall h0, is_referenced H h0 node <> Ok false) ->
    (property item "camera_name" = Ok node /\ publish_camera H item h = (r, h')) \/
    (property item "object" = Ok node /\ publish_mesh H item h = (r, h')) ->
    exists evs, h' = (h ++ evs)%list /\ Forall unrenamed evs.
Proof.
  intros H item node h h' r Href [[Hnode Hrun] | [Hnode Hrun]].
  - exact (publish_camera_referenced H item node Href Hnode _ _ _ Hrun).
  - exact (publish_mesh_referenced H item node Href Hnode _ _ _ Hrun).
Qed.

Lemma publish_never_renames_referenced_witness :
  exists evs,
    snd (publish_camera (edge_host [] false false true true true)
           (example_item "camera_name" "fxgeo_rock") []) = ([] ++ evs)%list /\
    Forall unrenamed evs.
Proof.
  apply (publish_never_renames_referenced (edge_host [] false false true true true)
           (example_item "camera_name" "fxgeo_rock") "fxgeo_rock" [] _
           (fst (publish_camera (edge_host [] false false true true true)
                   (example_item "camera_name" "fxgeo_rock") []))).
  - intros h0. discriminate.
  - left. split; [reflexivity | apply surjective_pairing].
Defined.

Lemma name_after_quiet_run (H : host) (evs1 evs2 done : list event)
    (name : string) :
  Forall quiet evs1 ->
  name_after H done (evs1 ++ evs2)%list name =
  name_after H (done ++ evs1)%list evs2 name.
Proof.
  revert done. induction evs1 as [|e evs1 IH]; intros done Hq.
  - now rewrite List.app_nil_r.
  - inversion Hq; subst. cbn [app].
    rewrite (name_after_quiet H e _ done name) by assumption.
    rewrite IH by assumption. now rewrite <- List.app_assoc.
Qed.

(** The end of a run whose export fails, after the node got its short
    name. *)
Lemma name_after_failed_export (H : host) (node stripped info cmd msg : string)
    (done : list event) :
  rename H done node stripped = Ok stripped ->
  name_after H done
    [Rename node stripped; Log "info" info; MelEval cmd; Log "error" msg] node =
  stripped.
Proof.
  intros Hrename. cbn [name_after]. now rewrite String.eqb_refl, Hrename.
Qed.

(** X9: a failed export leaves the node under its short name.  Take a node
    that the host does not report as referenced, a host that gives a renamed
    node the name asked for, and an [AbcExport] command that the host never
    carries out.  When [publish] of the camera plugin returns, or [publish]
    of the mesh plugin returns after having tried the export, the item is
    as it was, the base plugin has not been called, and the node bears its
    name without the naming convention: the plugins do not rename it back
    after the failure. *)
Theorem publish_failed_export_keeps_short_name :
  forall (H : host) (item item' : Item) (node : string) (h evs : list event),
    (forall h0, is_referenced H h0 node <> Ok true) ->
    (forall h0 old new, rename H h0 old new = Ok new) ->
    (forall h0 cmd, mel_eval H h0 cmd <> Ok tt) ->
    (property item "camera_name" = Ok node /\
     publish_camera H item h = (Ok item', (h ++ evs)%list)) \/
    (property item "object" = Ok node /\
     publish_mesh H item h = (Ok item', (h ++ evs)%list) /\
     exists cmd, In (MelEval cmd) evs) ->
    item' = item /\
    Forall before_handoff evs /\
    name_after H h evs node = stripped_name node.
Proof.
  intros H item item' node h evs Hnoref Hrename Hmel [[Hnode Hrun] | [Hnode [Hrun Htried]]].
  - unfold publish_camera, mbind, mret, M_bind, M_ret in Hrun. cbv beta zeta in Hrun.
    inv_bind Hrun sel h1 H1. inv_ask H1 Hsel.
    inv_bind Hrun cam h1 H1. inv_lift H1 Hcam.
    rewrite Hnode in Hcam. injection Hcam as <-.
    inv_bind Hrun path h1 H1. inv_lift H1 Hpath.
    inv_bind Hrun u1 h1 H1. inv_call H1 Hfolder.
    inv_bind Hrun lo h1 H1. inv_ask H1 Hlo.
    inv_bind Hrun hi h1 H1. inv_ask H1 Hhi.
    inv_bind Hrun u2 h1 H1.
    apply stamp_start_frame_inv in H1. destruct H1 as (stamps & -> & Hstamps).
    inv_bind Hrun referenced h1 H1. inv_ask H1 Href.
    destruct referenced; [now apply Hnoref in Href |]. cbn [negb] in Hrun.
    inv_bind Hrun exported h1 H1.
    inv_bind H1 naming h2 H2. inv_lift H2 Hnaming.
    inv_bind H1 stripped h2 H2. inv_lift H2 Hstripped.
    pose proof (stripped_name_found _ _ _ Hnaming Hstripped) as ->.
    unfold try_except, bind, call, emit, ret in H1. rewrite Hrename in H1.
    match type of H1 with
    | context [mel_eval H ?h0 ?cmd] =>
        destruct (mel_eval H h0 cmd) as [[]|e] eqn:Emel;
          [now apply Hmel in Emel |]
    end.
    injection H1 as <- <-.
    apply ret_inv in Hrun. destruct Hrun as (-> & Hevs).
    rewrite <- !List.app_assoc in Hevs. apply List.app_inv_head in Hevs. subst evs.
    split; [reflexivity |]. split.
    + cbn [app]. constructor; [exact I |]. apply Forall_app. split.
      * eapply List.Forall_impl; [apply bystander_before_handoff | exact Hstamps].
      * now repeat constructor.
    + rewrite (name_after_quiet_run H [_] _ h) by now repeat constructor.
      rewrite name_after_quiet_run
        by (eapply List.Forall_impl; [apply bystander_quiet | exact Hstamps]).
      cbn [app]. now apply name_after_failed_export.
  - destruct Htried as [tried Htried].
    unfold publish_mesh, mbind, mret, M_bind, M_ret in Hrun. cbv beta zeta in Hrun.
    inv_bind Hrun path h1 H1. inv_lift H1 Hpath.
    inv_bind Hrun u1 h1 H1. inv_call H1 Hfolder.
    inv_bind Hrun mesh_object h1 H1. inv_lift H1 Hobject.
    rewrite Hnode in Hobject. injection Hobject as <-.
    inv_bind Hrun assemblies h1 H1. inv_ask H1 Hassemblies.
    inv_bind Hrun returned h1 H1.
    assert (Hloop : forall l h0 h2 returned0,
              for_until l (publish_mesh_round H node path) h0 = (Ok returned0, h2) ->
              (returned0 = false /\ h2 = h0) \/
              (returned0 = true /\
               exists stamps info cmd msg,
                 Forall bystander stamps /\
                 h2 = (h0 ++ stamps ++
                       [Rename node (stripped_name node); Log "info" info;
                        MelEval cmd; Log "error" msg])%list)).
    { induction l as [|meshes l IH]; intros h0 h2 returned0 Hl; cbn [for_until] in Hl.
      - apply ret_inv in Hl. destruct Hl as (-> & ->). now left.
      - inv_bind Hl left_loop h3 H3.
        unfold publish_mesh_round, mbind, mret, M_bind, M_ret in H3.
        cbv beta zeta in H3.
        inv_bind H3 dag h4 H4. inv_ask H4 Hdag.
        assert (Hskip : (left_loop, h3) = (false, h0) ->
                        (returned0 = false /\ h2 = h0) \/
                        (returned0 = true /\
                         exists stamps info cmd msg,
                           Forall bystander stamps /\
                           h2 = (h0 ++ stamps ++
                                 [Rename node (stripped_name node); Log "info" info;
                                  MelEval cmd; Log "error" msg])%list)).
        { intros [= -> ->]. exact (IH _ _ _ Hl). }
        destruct dag as [|shape dag].
        { apply ret_inv in H3. destruct H3 as (-> & ->). now apply Hskip. }
        destruct (String.eqb node meshes) eqn:Esame.
        2:{ apply ret_inv in H3. destruct H3 as (-> & ->). now apply Hskip. }
        apply String.eqb_eq in Esame. subst meshes.
        inv_bind H3 minimum h4 H4. inv_ask H4 Hmin.
        inv_bind H3 lo h4 H4. inv_lift H4 Hlo.
        inv_bind H3 maximum h4 H4. inv_ask H4 Hmax.
        inv_bind H3 hi h4 H4. inv_lift H4 Hhi.
        inv_bind H3 u2 h4 H4.
        apply stamp_start_frame_inv in H4. destruct H4 as (stamps & -> & Hstamps).
        inv_bind H3 referenced h4 H4. inv_ask H4 Href.
        destruct referenced; [now apply Hnoref in Href |]. cbn [negb] in H3.
        inv_bind H3 naming h4 H4. inv_lift H4 Hnaming.
        inv_bind H3 stripped h4 H4. inv_lift H4 Hstripped.
        pose proof (stripped_name_found _ _ _ Hnaming Hstripped) as ->.
        inv_bind H3 given h4 H4. inv_call H4 Hgiven.
        unfold try_except, bind, call, emit, ret in H3.
        match type of H3 with
        | context [mel_eval H ?h5 ?cmd] =>
            destruct (mel_eval H h5 cmd) as [[]|e] eqn:Emel;
              [now apply Hmel in Emel |]
        end.
        injection H3 as <- <-.
        apply ret_inv in Hl. destruct Hl as (-> & ->).
        right. split; [reflexivity |].
        eexists stamps, _, _, _. split; [exact Hstamps |].
        rewrite <- !List.app_assoc. reflexivity. }
    destruct (Hloop _ _ _ _ H1) as [(-> & ->) | (-> & stamps & info & cmd & msg & Hstamps & ->)].
    + exfalso. inv_bind Hrun u2 h2 H2. inv_call H2 Hbase.
      apply ret_inv in Hrun. destruct Hrun as (_ & Hevs).
      rewrite <- !List.app_assoc in Hevs. apply List.app_inv_head in Hevs. subst evs.
      cbn in Htried. intuition discriminate.
    + apply ret_inv in Hrun. destruct Hrun as (-> & Hevs).
      rewrite <- !List.app_assoc in Hevs. apply List.app_inv_head in Hevs. subst evs.
      split; [reflexivity |]. split.
      * cbn [app]. constructor; [exact I |]. apply Forall_app. split.
        -- eapply List.Forall_impl; [apply bystander_before_handoff | exact Hstamps].
        -- now repeat constructor.
      * rewrite (name_after_quiet_run H [_] _ h) by now repeat constructor.
        rewrite name_after_quiet_run
          by (eapply List.Forall_impl; [apply bystander_quiet | exact Hstamps]).
        cbn [app]. now apply name_after_failed_export.
Qed.

Lemma publish_failed_export_keeps_short_name_witness :
  publish_camera (edge_host [] false false false true false)
    (example_item "camera_name" "fxgeo_rock") [] =
    (Ok (example_item "camera_name" "fxgeo_rock"),
     snd (publish_camera (edge_host [] false false false true false)
            (example_item "camera_name" "fxgeo_rock") [])) /\
  name_after (edge_host [] false false false true false) []
    (snd (publish_camera (edge_host [] false false false true false)
            (example_item "camera_name" "fxgeo_rock") [])) "fxgeo_rock" = "rock".
Proof.
  assert (Hrun : publish_camera (edge_host [] false false false true false)
                   (example_item "camera_name" "fxgeo_rock") [] =
                 (Ok (example_item "camera_name" "fxgeo_rock"),
                  ([] ++ snd (publish_camera (edge_host [] false false false true false)
                                (example_item "camera_name" "fxgeo_rock") []))%list))
    by (vm_compute; reflexivity).
  split; [exact Hrun |].
  destruct (publish_failed_export_keeps_short_name
              (edge_host [] false false false true false)
              (example_item "camera_name" "fxgeo_rock")
              (example_item "camera_name" "fxgeo_rock") "fxgeo_rock" []
              (snd (publish_camera (edge_host [] false false false true false)
                      (example_item "camera_name" "fxgeo_rock") [])))
    as (_ & _ & Hname).
  - intros h0. discriminate.
  - reflexivity.
  - intros h0 cmd. discriminate.
  - left. split; [reflexivity | exact Hrun].
  - exact Hname.
Defined.

(** X10: the camera plugin gives back the selection it found.  Whenever its
    [publish] returns after the hand-off to the base plugin, the last thing
    it did was to select the nodes that [cmds.ls(selection=True)] listed
    when it started. *)
Theorem publish_camera_restores_selection :
  forall (H : host) (item item' : Item) (h evs : list event),
    publish_camera H item h = (Ok item', (h ++ evs)%list) ->
    (exists it, In (BasePublish it) evs) ->
    exists sel,
      ls_selection H h = Ok sel /\
      last evs = Some (SelectList sel).
Proof.
  intros H item item' h evs Hrun Hhanded.
  unfold publish_camera, mbind, mret, M_bind, M_ret in Hrun. cbv beta zeta in Hrun.
  inv_bind Hrun sel h1 H1. inv_ask H1 Hsel.
  exists sel. split; [exact Hsel |].
  inv_bind Hrun cam h1 H1. inv_bind Hrun path h2 H2.
  inv_bind Hrun u1 h3 H3. inv_bind Hrun lo h4 H4. inv_bind Hrun hi h5 H5.
  inv_bind Hrun u2 h6 H6. inv_bind Hrun referenced h7 H7.
  inv_bind Hrun exported h8 H8.
  assert (Hall : exists evs', h8 = (h ++ evs')%list /\ Forall before_handoff evs').
  { apply ask_inv in H7. destruct H7 as (_ & ->).
    apply stamp_start_frame_inv in H6. destruct H6 as (stamps & -> & Hstamps).
    apply ask_inv in H5. destruct H5 as (_ & ->).
    apply ask_inv in H4. destruct H4 as (_ & ->).
    apply call_inv in H3. destruct H3 as (_ & ->).
    apply lift_inv in H2. destruct H2 as (_ & ->).
    apply lift_inv in H1. destruct H1 as (_ & ->).
    assert (Hadds : adds before_handoff
              (if negb referenced
               then bind (lift (first_naming cam))
                      (fun naming =>
                         bind (lift (py_split_last naming cam))
                           (fun stripped =>
                              try_except
                                (bind (call (Rename cam stripped)
                                         (fun h => rename H h cam stripped))
                                   (fun _ =>
                                      bind (emit (Log "info" ("Executing command: " ++
                                              abc_export_cmd H lo hi stripped path)))
                                        (fun _ =>
                                           bind (call (MelEval (abc_export_cmd H lo hi stripped path))
                                                   (fun h => mel_eval H h
                                                      (abc_export_cmd H lo hi stripped path)))
                                             (fun _ =>
                                                bind (call (Rename stripped cam)
                                                        (fun h => rename H h stripped cam))
                                                  (fun _ => ret true)))))
                                (fun e =>
                                   bind (emit (Log "error"
                                           ("Failed to export camera: " ++ exn_text e)))
                                     (fun _ => ret false))))
               else try_except
                      (bind (emit (Log "info" ("Executing command: " ++
                               abc_export_cmd H lo hi cam path)))
                         (fun _ =>
                            bind (call (MelEval (abc_export_cmd H lo hi cam path))
                                    (fun h => mel_eval H h (abc_export_cmd H lo hi cam path)))
                              (fun _ => ret true)))
                      (fun e =>
                         bind (emit (Log "error"
                                 ("Failed to export camera: " ++ exn_text e)))
                           (fun _ => ret false)))).
    { adds_more. }
    destruct (Hadds _ _ _ H8) as (tried & -> & Htried).
    exists ([EnsureFolderExists (dirname H path)] ++ stamps ++ tried)%list.
    split; [now rewrite <- !List.app_assoc |].
    cbn [app]. constructor; [exact I |]. apply Forall_app. split; [| exact Htried].
    eapply List.Forall_impl; [apply bystander_before_handoff | exact Hstamps]. }
  destruct Hall as (evs' & -> & Hall).
  destruct exported.
  - inv_bind Hrun u3 h9 H9. inv_call H9 Hbase.
    inv_bind Hrun u4 h10 H10. inv_call H10 Hselect.
    apply ret_inv in Hrun. destruct Hrun as (_ & Hevs).
    rewrite <- !List.app_assoc in Hevs. apply List.app_inv_head in Hevs. subst evs.
    rewrite List.app_assoc. apply last_snoc.
  - exfalso. apply ret_inv in Hrun. destruct Hrun as (_ & Hevs).
    destruct Hhanded as (it & Hin).
    apply List.app_inv_head in Hevs. subst evs'.
    exact (not_handed_off _ it Hall Hin).
Qed.

Lemma publish_camera_restores_selection_witness :
  last (snd (publish_camera (edge_host [] false true false true true)
               (example_item "camera_name" "fxgeo_rock") [])) =
  Some (SelectList ["persp"]).
Proof.
  destruct (publish_camera_restores_selection (edge_host [] false true false true true)
              (example_item "camera_name" "fxgeo_rock")
              (set_property (example_item "camera_name" "fxgeo_rock")
                 "publish_type" (VStr "Alembic Cache")) []
              (snd (publish_camera (edge_host [] false true false true true)
                      (example_item "camera_name" "fxgeo_rock") [])))
    as (sel & Hsel & Hlast).
  - vm_compute. reflexivity.
  - eexists. vm_compute. do 5 right. left. reflexivity.
  - injection Hsel as <-. exact Hlast.
Defined.

Lemma publish_mesh_loop_elsewhere (H : host) (node path : string)
    (l : list string) (h h' : list event) (returned : bool) :
  ~ In node l ->
  for_until l (publish_mesh_round H node path) h = (Ok returned, h') ->
  returned = false /\ h' = h.
Proof.
  revert h. induction l as [|meshes l IH]; intros h Hnot Hrun; cbn [for_until] in Hrun.
  - apply ret_inv in Hrun. now destruct Hrun as (-> & ->).
  - inv_bind Hrun left_loop h1 H1.
    assert (Hround : left_loop = false /\ h1 = h).
    { unfold publish_mesh_round, mbind, mret, M_bind, M_ret in H1.
      cbv beta zeta in H1.
      inv_bind H1 dag h2 H2. inv_ask H2 Hdag.
      destruct dag as [|shape dag].
      { apply ret_inv in H1. now destruct H1 as (-> & ->). }
      destruct (String.eqb_spec node meshes) as [-> | Hne].
      { exfalso. apply Hnot. now left. }
      apply ret_inv in H1. now destruct H1 as (-> & ->). }
    destruct Hround as (-> & ->).
    apply IH; [| exact Hrun]. intros Hin. apply Hnot. now right.
Qed.

(** X11: the mesh plugin registers a node it has not exported.  When the
    object of the item is not among the top-level nodes that
    [cmds.ls(assemblies=True)] lists, a [publish] that returns has issued no
    export, no rename and no attribute command: it has made the publish
    folder, set the publish type and handed the item to the base plugin. *)
Theorem publish_mesh_not_top_level :
  forall (H : host) (item item' : Item) (node : string) (h h' : list event),
    property item "object" = Ok node ->
    (forall h0 l, ls_assemblies H h0 = Ok l -> ~ In node l) ->
    publish_mesh H item h = (Ok item', h') ->
    exists path,
      property item "path" = Ok path /\
      item' = set_property item "publish_type" (VStr "Alembic Cache") /\
      h' = (h ++ [EnsureFolderExists (dirname H path); BasePublish item'])%list.
Proof.
  intros H item item' node h h' Hnode Hnot Hrun.
  unfold publish_mesh, mbind, mret, M_bind, M_ret in Hrun. cbv beta zeta in Hrun.
  inv_bind Hrun path h1 H1. inv_lift H1 Hpath.
  inv_bind Hrun u1 h1 H1. inv_call H1 Hfolder.
  inv_bind Hrun mesh_object h1 H1. inv_lift H1 Hobject.
  rewrite Hnode in Hobject. injection Hobject as <-.
  inv_bind Hrun assemblies h1 H1. inv_ask H1 Hassemblies.
  inv_bind Hrun returned h1 H1.
  destruct (publish_mesh_loop_elsewhere _ _ _ _ _ _ _ (Hnot _ _ Hassemblies) H1)
    as (-> & ->).
  inv_bind Hrun u2 h2 H2. inv_call H2 Hbase.
  apply ret_inv in Hrun. destruct Hrun as (-> & ->).
  exists path. split; [exact Hpath |]. split; [reflexivity |].
  now rewrite <- List.app_assoc.
Qed.

Lemma publish_mesh_not_top_level_witness :
  snd (publish_mesh (example_host true true) (example_item "object" "fxgeo_tree") []) =
  [EnsureFolderExists "/proj/publish";
   BasePublish (set_property (example_item "object" "fxgeo_tree")
                  "publish_type" (VStr "Alembic Cache"))].
Proof.
  destruct (publish_mesh_not_top_level (example_host true true)
              (example_item "object" "fxgeo_tree")
              (set_property (example_item "object" "fxgeo_tree")
                 "publish_type" (VStr "Alembic Cache"))
              "fxgeo_tree" []
              (snd (publish_mesh (example_host true true)
                      (example_item "object" "fxgeo_tree") [])))
    as (path & Hpath & _ & Hevs).
  - reflexivity.
  - intros h0 l [= <-]. cbn. intuition discriminate.
  - vm_compute. reflexivity.
  - injection Hpath as <-. exact Hevs.
Defined.

End PublishEdgeFacts.

(** ** Edges of the loader hook *)

Module LoaderEdgeFacts.
Import PyStr Re PyStrFacts ReFacts VersionFacts NamespaceFacts Loader LoaderBatch.

#[local] Arguments String.append !s1 s2 : simpl nomatch.

(** *** Running a computation whose first part is known *)

Lemma adds_bind_run {E A B} (P : E -> Prop) (m : M E A) (k : A -> M E B) :
  adds P m ->
  (forall a, (exists h h', m h = (Ok a, h')) -> adds P (k a)) ->
  adds P (bind m k).
Proof.
  intros Hm Hk h r h' Hrun. unfold bind in Hrun.
  destruct (m h) as [[a|e] h1] eqn:E1; destruct (Hm _ _ _ E1) as (evs1 & -> & HP1).
  - assert (Hex : exists h0 h0', m h0 = (Ok a, h0')) by eauto.
    destruct (Hk a Hex _ _ _ Hrun) as (evs2 & -> & HP2).
    exists (evs1 ++ evs2)%list. rewrite List.app_assoc. split; [reflexivity |].
    apply Forall_app. now split.
  - injection Hrun as <- <-. now exists evs1.
Qed.

(** *** The namespace holds no space *)

Definition spaceless (s : string) : Prop := contains " " s = false.

Lemma contains_space_cons (c : ascii) (s : string) :
  contains " " (String c s) = Ascii.eqb " " c || contains " " s.
Proof. cbn [contains startswith]. now rewrite andb_true_r. Qed.

Lemma contains_space_app (a b : string) :
  contains " " (a ++ b) = contains " " a || contains " " b.
Proof.
  induction a as [|c a IH].
  - reflexivity.
  - change (String c a ++ b) with (String c (a ++ b)).
    now rewrite !contains_space_cons, IH, orb_assoc.
Qed.

Lemma spaceless_app (a b : string) :
  spaceless (a ++ b) <-> spaceless a /\ spaceless b.
Proof. unfold spaceless. rewrite contains_space_app. apply orb_false_iff. Qed.

Lemma replace_char_spaceless (s : string) : spaceless (replace_char " " "_" s).
Proof.
  induction s as [|c s IH]; [reflexivity |].
  cbn [replace_char]. apply spaceless_app. split; [| exact IH].
  destruct (Ascii.eqb_spec c " ") as [->|Hc]; [reflexivity |].
  unfold spaceless. rewrite contains_space_cons.
  destruct (Ascii.eqb_spec " " c) as [<-|]; [congruence | reflexivity].
Qed.

(** The first piece of a split holds characters of the text only. *)
Lemma split_go_head_spaceless (sep s : string) (skip : nat) (cur : string) :
  spaceless cur -> spaceless s ->
  exists u, head (split_go sep s skip cur) = Some u /\ spaceless u.
Proof.
  revert skip cur; induction s as [|c s IH]; intros skip cur Hcur Hs.
  - now exists cur.
  - unfold spaceless in Hs. rewrite contains_space_cons in Hs.
    apply orb_false_iff in Hs as [Hc Hs].
    cbn [split_go]. destruct skip as [|k]; [| now apply IH].
    destruct (startswith sep (String c s)); [now exists cur |].
    apply IH; [| exact Hs]. apply spaceless_app. split; [exact Hcur |].
    unfold spaceless. now rewrite contains_space_cons, Hc.
Qed.

Lemma split_first_spaceless (sep s u : string) :
  spaceless s -> split_first sep s = Some u -> spaceless u.
Proof.
  unfold split_first, split. destruct sep as [|c sep']; [discriminate |].
  simpl mbind. intros Hs Hu.
  destruct (split_go_head_spaceless (String c sep') s 0 "" eq_refl Hs) as (u' & Hu' & Hsp).
  rewrite Hu in Hu'. now injection Hu' as <-.
Qed.

Lemma split_last_spaceless (sep s u : string) :
  spaceless s -> split_last sep s = Some u -> spaceless u.
Proof.
  intros Hs Hu. apply split_last_suffix in Hu as [x ->].
  now apply spaceless_app in Hs.
Qed.

Lemma entities_spaceless (e : string) : In e GEO_CONSTANT_ENTITIES -> spaceless e.
Proof. simpl. intuition (subst; reflexivity). Qed.

Lemma loader_entities_nonempty (e : string) : In e GEO_CONSTANT_ENTITIES -> e <> "".
Proof. simpl. intuition (subst; discriminate). Qed.

Lemma namespace_step_spaceless (namespace entities namespace' : string)
    (h h' : list event) :
  In entities GEO_CONSTANT_ENTITIES -> spaceless namespace ->
  namespace_step namespace entities h = (Ok namespace', h') ->
  spaceless namespace'.
Proof.
  intros Hin Hns. unfold namespace_step.
  destruct (contains entities namespace).
  - msimpl. unfold py_split_last, py_split_first.
    destruct (split_last entities namespace) as [after|] eqn:Hafter; [| discriminate].
    destruct (search_vplus after) as [get_version|]; [| discriminate].
    destruct (split_first get_version after) as [get_geo_name|] eqn:Hgeo;
      [| discriminate].
    intros [= <- <-]. apply spaceless_app. split.
    + now apply entities_spaceless.
    + eapply split_first_spaceless; [| exact Hgeo].
      eapply split_last_spaceless; [exact Hns | exact Hafter].
  - msimpl. now intros [= <- <-].
Qed.

Lemma namespace_loop_spaceless (l : list string) (namespace namespace' : string)
    (h h' : list event) :
  (forall e, In e l -> In e GEO_CONSTANT_ENTITIES) -> spaceless namespace ->
  for_fold l namespace_step namespace h = (Ok namespace', h') ->
  spaceless namespace'.
Proof.
  revert namespace h; induction l as [|e l IH]; intros namespace h Hl Hns.
  - cbn [for_fold]. unfold ret. now intros [= <- <-].
  - cbn [for_fold]. unfold bind.
    destruct (namespace_step namespace e h) as [[ns1|x] h1] eqn:Hstep; [| discriminate].
    apply IH.
    + intros e' He'. apply Hl. now right.
    + eapply namespace_step_spaceless; [| exact Hns | exact Hstep]. apply Hl. now left.
Qed.

Lemma make_namespace_spaceless (sg_publish_data : publish_data) (namespace : string)
    (h h' : list event) :
  make_namespace sg_publish_data h = (Ok namespace, h') -> spaceless namespace.
Proof.
  unfold make_namespace. destruct (entity sg_publish_data) as [entity_name|].
  - apply namespace_loop_spaceless; [auto |]. apply replace_char_spaceless.
  - discriminate.
Qed.

Lemma namespace_step_adds (P : event -> Prop) (namespace entities : string) :
  adds P (namespace_step namespace entities).
Proof.
  unfold namespace_step, mbind, mret, M_bind, M_ret.
  destruct (contains entities namespace); [| apply adds_ret].
  apply adds_bind; [apply adds_lift | intros after].
  destruct (search_vplus after); [| apply adds_raise].
  apply adds_bind; [apply adds_lift | intros geo; apply adds_ret].
Qed.

Lemma make_namespace_adds (P : event -> Prop) (sg_publish_data : publish_data) :
  adds P (make_namespace sg_publish_data).
Proof.
  unfold make_namespace. destruct (entity sg_publish_data); [| apply adds_raise].
  apply NamingFacts.adds_for_fold. intros s x. apply namespace_step_adds.
Qed.

(** A reference or an import is made under a name without a space. *)
Definition tidy (e : event) : Prop :=
  match e with
  | FileReference _ namespace | FileImport _ namespace => contains " " namespace = false
  | _ => True
  end.

Ltac loader_adds_step :=
  match goal with
  | |- adds _ (bind _ _) => apply adds_bind; [| intros ?]
  | |- adds _ (for_fold _ _ _) => apply NamingFacts.adds_for_fold; intros ? ?
  | |- adds _ (for_each _ _) => apply adds_for_each; intros ?
  | |- adds _ (ret _) => apply adds_ret
  | |- adds _ (raise _) => apply adds_raise
  | |- adds _ (ask _) => apply adds_ask
  | |- adds _ (lift _) => apply adds_lift
  | |- adds _ (emit _) => apply adds_emit; exact I
  | |- adds _ (call _ _) => apply adds_call; exact I
  | |- adds _ (if ?b then _ else _) => destruct b
  | |- adds _ (match ?x with _ => _ end) => destruct x
  end.

Ltac loader_adds_auto :=
  unfold mbind, mret, M_bind, M_ret; cbv beta zeta; repeat loader_adds_step.

Lemma abc_block_tidy (H : host) (file_path : string) : adds tidy (abc_block H file_path).
Proof.
  unfold abc_block, find_atrib, offset_from_archive, apply_offset, offset_round.
  loader_adds_auto.
Qed.

(** X12: the namespace under which a file is referenced or imported never
    holds a space.  Whatever the entity and the publish are called and
    whatever the host answers, every [cmds.file] command of
    [_create_reference] and of [_do_import] carries a namespace without a
    space. *)
Theorem namespace_never_holds_space :
  forall (H : host) (path : string) (sg_publish_data : publish_data)
         (h h' : list event) (r : result unit),
    _create_reference H path sg_publish_data h = (r, h') \/
    _do_import H path sg_publish_data h = (r, h') ->
    exists evs, h' = (h ++ evs)%list /\ Forall tidy evs.
Proof.
  intros H path sg_publish_data h h' r [Hrun | Hrun]; revert Hrun;
    generalize h r h'.
  - change (adds tidy (_create_reference H path sg_publish_data)).
    unfold _create_reference, mbind, mret, M_bind, M_ret.
    apply adds_bind; [apply adds_ask | intros on_disk].
    destruct (negb on_disk); [apply adds_raise |].
    apply adds_bind_run; [apply make_namespace_adds |].
    intros namespace (h0 & h0' & Hns). apply make_namespace_spaceless in Hns.
    apply adds_bind; [apply adds_call; exact Hns | intros file_path].
    apply adds_bind; [apply adds_lift | intros [is_abc fp]].
    destruct is_abc; [apply abc_block_tidy | apply adds_ret].
  - change (adds tidy (_do_import H path sg_publish_data)).
    unfold _do_import, mbind, mret, M_bind, M_ret.
    apply adds_bind; [apply adds_ask | intros on_disk].
    destruct (negb on_disk); [apply adds_raise |].
    apply adds_bind_run; [apply make_namespace_adds |].
    intros namespace (h0 & h0' & Hns). apply make_namespace_spaceless in Hns.
    apply adds_bind; [apply adds_call; exact Hns | intros file_path].
    apply adds_bind; [apply adds_lift | intros [is_abc fp]].
    destruct is_abc; [apply abc_block_tidy | apply adds_ret].
Qed.

Lemma namespace_never_holds_space_witness :
  exists evs,
    snd (_create_reference (example_host true 1001 1001)
           "/proj/pub_fxgeo_rock_v001.abc"
           {| entity := Some (Some "shot 010"); publish_name := Some "my rock" |} []) =
      ([] ++ evs)%list /\
    Forall tidy evs.
Proof.
  apply (namespace_never_holds_space (example_host true 1001 1001)
           "/proj/pub_fxgeo_rock_v001.abc"
           {| entity := Some (Some "shot 010"); publish_name := Some "my rock" |} []
           (snd (_create_reference (example_host true 1001 1001)
                   "/proj/pub_fxgeo_rock_v001.abc"
                   {| entity := Some (Some "shot 010");
                      publish_name := Some "my rock" |} []))
           (fst (_create_reference (example_host true 1001 1001)
                   "/proj/pub_fxgeo_rock_v001.abc"
                   {| entity := Some (Some "shot 010");
                      publish_name := Some "my rock" |} []))).
  left. apply surjective_pairing.
Defined.

(** *** Names without a version *)

Lemma search_vplus_suffix (x u : string) :
  search_vplus (x ++ u) = None -> search_vplus u = None.
Proof.
  induction x as [|c x IH]; [tauto |].
  intros Hx. change (String c x ++ u) with (String c (x ++ u)) in Hx.
  rewrite search_vplus_unfold in Hx.
  destruct (match_vplus (String c (x ++ u))); [discriminate | now apply IH].
Qed.

Lemma namespace_loop_unversioned (l : list string) (namespace : string)
    (h : list event) :
  (forall e, In e l -> e <> "") ->
  (exists e, In e l /\ contains e namespace = true) ->
  search_vplus namespace = None ->
  for_fold l namespace_step namespace h = (Raise AttributeError, h).
Proof.
  intros Hne Hex Hv. induction l as [|e l IH].
  - now destruct Hex as (e & [] & _).
  - cbn [for_fold]. unfold bind, namespace_step.
    destruct (contains e namespace) eqn:Hc.
    + destruct (split_last_total e namespace) as [after Hafter].
      { apply Hne. now left. }
      msimpl. unfold py_split_last. rewrite Hafter.
      apply split_last_suffix in Hafter as [x ->].
      now rewrite (search_vplus_suffix _ _ Hv).
    + msimpl. apply IH.
      * intros e' He'. apply Hne. now right.
      * destruct Hex as (e' & [<- | He'] & Hc'); [congruence | eauto].
Qed.

(** The namespace before it is shortened: entity name, a space and publish
    name, with every space turned into an underscore. *)
Definition long_namespace (entity_name : option string)
    (sg_publish_data : publish_data) : string :=
  replace_char " " "_"
    (py_str_opt entity_name ++ " " ++ py_str_opt (publish_name sg_publish_data)).

(** X13: a publish that cannot be given a namespace is not loaded.  When the
    publish has no entity, or when the long namespace holds one of the seven
    entity tokens and no [_v] followed by a digit, [_create_reference] and
    [_do_import] of a file that is on disk raise [AttributeError] before any
    command is issued: nothing is referenced or imported. *)
Theorem load_unversioned_name_fails :
  forall (H : host) (path : string) (sg_publish_data : publish_data)
         (h : list event),
    os_path_exists H h path = true ->
    entity sg_publish_data = None \/
    (exists entity_name tok,
       entity sg_publish_data = Some entity_name /\
       In tok GEO_CONSTANT_ENTITIES /\
       contains tok (long_namespace entity_name sg_publish_data) = true /\
       search_vplus (long_namespace entity_name sg_publish_data) = None) ->
    _create_reference H path sg_publish_data h = (Raise AttributeError, h) /\
    _do_import H path sg_publish_data h = (Raise AttributeError, h).
Proof.
  intros H path sg_publish_data h Hdisk Hcase.
  assert (Hns : make_namespace sg_publish_data h = (Raise AttributeError, h)).
  { unfold make_namespace.
    destruct Hcase as [-> | (entity_name & tok & -> & Hin & Hc & Hv)]; [reflexivity |].
    apply namespace_loop_unversioned; [apply loader_entities_nonempty | eauto | exact Hv]. }
  split.
  - unfold _create_reference, mbind, mret, M_bind, M_ret.
    unfold bind at 1. unfold ask. rewrite Hdisk. cbn [negb].
    unfold bind at 1. now rewrite Hns.
  - unfold _do_import, mbind, mret, M_bind, M_ret.
    unfold bind at 1. unfold ask. rewrite Hdisk. cbn [negb].
    unfold bind at 1. now rewrite Hns.
Qed.

Lemma load_unversioned_name_fails_witness :
  _create_reference (example_host true 1001 1001) "/proj/pub_fxgeo_rock.abc"
    {| entity := Some (Some "shot010"); publish_name := Some "pub_fxgeo_rock" |} [] =
    (Raise AttributeError, []) /\
  _do_import (example_host true 1001 1001) "/proj/pub_fxgeo_rock.abc"
    {| entity := Some (Some "shot010"); publish_name := Some "pub_fxgeo_rock" |} [] =
    (Raise AttributeError, []).
Proof.
  apply (load_unversioned_name_fails (example_host true 1001 1001)
           "/proj/pub_fxgeo_rock.abc"
           {| entity := Some (Some "shot010"); publish_name := Some "pub_fxgeo_rock" |}
           []).
  - reflexivity.
  - right. exists (Some "shot010"), "fxgeo".
    split; [reflexivity |]. split; [simpl; tauto |]. split; reflexivity.
Defined.

(** *** Names with a version *)

Lemma match_vplus_straddle (c : ascii) (b : string) (d : ascii) (rest : string) :
  match_vplus (String c b) = None ->
  match_vplus (String c b ++ "_v" ++ String d rest) = None.
Proof.
  assert (E1 : Ascii.eqb "_" "v" = false) by reflexivity.
  assert (E2 : is_digit "_" = false) by reflexivity.
  assert (E3 : is_digit "v" = false) by reflexivity.
  destruct b as [|c2 [|c3 b3]]; intros Hm;
    cbn [match_vplus append] in *;
    rewrite ?E1, ?E2, ?E3, ?andb_false_r; cbn [andb];
    try reflexivity.
  destruct (Ascii.eqb c "_" && Ascii.eqb c2 "v" && is_digit c3); [discriminate |].
  reflexivity.
Qed.

Lemma search_vplus_first (base : string) (d : ascii) (rest : string) :
  is_digit d = true ->
  search_vplus base = None ->
  search_vplus (base ++ "_v" ++ String d rest) =
    Some ("_v" ++ String d (take_digits rest)).
Proof.
  intros Hd. induction base as [|c b IH]; intros Hb.
  - rewrite search_vplus_unfold. simpl. now rewrite Hd.
  - rewrite search_vplus_unfold in Hb.
    destruct (match_vplus (String c b)) eqn:Hm; [discriminate |].
    rewrite search_vplus_unfold, match_vplus_straddle by exact Hm.
    simpl. apply IH. exact Hb.
Qed.

Lemma take_digits_prefix (s : string) : exists t, s = take_digits s ++ t.
Proof.
  induction s as [|c s [t IH]]; [now exists "" |].
  cbn [take_digits]. destruct (is_digit c).
  - exists t. simpl. now rewrite <- IH.
  - now exists (String c s).
Qed.

Lemma no_start_vplus (base : string) (d : ascii) (ds rest : string) :
  is_digit d = true ->
  search_vplus base = None ->
  no_start ("_v" ++ String d ds) base ("_v" ++ String d rest).
Proof.
  intros Hd. induction base as [|c b IH]; intros Hb; [exact I |].
  rewrite search_vplus_unfold in Hb.
  destruct (match_vplus (String c b)) eqn:Hm; [discriminate |].
  split; [| now apply IH].
  destruct (startswith _ _) eqn:Hs; [| reflexivity].
  apply startswith_true in Hs as [t Ht].
  pose proof (match_vplus_straddle c b d rest Hm) as Hnone.
  rewrite Ht in Hnone. simpl in Hnone. rewrite Hd in Hnone. discriminate.
Qed.

Lemma namespace_step_absent (namespace entities : string) (h : list event) :
  contains entities namespace = false ->
  namespace_step namespace entities h = (Ok namespace, h).
Proof. intros Hc. unfold namespace_step. now rewrite Hc. Qed.

Lemma namespace_loop_absent (l : list string) (namespace : string) (h : list event) :
  (forall e, In e l -> contains e namespace = false) ->
  for_fold l namespace_step namespace h = (Ok namespace, h).
Proof.
  intros Hl. induction l as [|e l IH]; [reflexivity |].
  cbn [for_fold]. unfold bind.
  rewrite namespace_step_absent by (apply Hl; now left).
  apply IH. intros e' He'. apply Hl. now right.
Qed.

Lemma namespace_step_token (tok pre base : string) (d : ascii) (rest : string)
    (h : list event) :
  tok <> "" ->
  occurrences tok (pre ++ tok ++ base ++ "_v" ++ String d rest) = 1%nat ->
  is_digit d = true ->
  search_vplus base = None ->
  namespace_step (pre ++ tok ++ base ++ "_v" ++ String d rest) tok h =
    (Ok (tok ++ base), h).
Proof.
  intros Hne Hocc Hd Hb. unfold namespace_step.
  rewrite contains_app. msimpl. unfold py_split_last.
  rewrite split_last_unique by assumption.
  rewrite search_vplus_first by assumption.
  unfold py_split_first.
  destruct (take_digits_prefix rest) as [t Ht].
  assert (Hsplit : base ++ "_v" ++ String d rest =
                   base ++ ("_v" ++ String d (take_digits rest)) ++ t).
  { simpl. now rewrite <- Ht. }
  rewrite Hsplit at 1.
  rewrite split_first_before; [reflexivity | discriminate |].
  replace (("_v" ++ String d (take_digits rest)) ++ t) with ("_v" ++ String d rest)
    by (simpl; now rewrite <- Ht).
  now apply no_start_vplus.
Qed.

Lemma startswith_app_l (p a b : string) :
  startswith p a = true -> startswith p (a ++ b) = true.
Proof.
  revert a; induction p as [|x p IH]; intros a Hp; [reflexivity |].
  destruct a as [|y a]; [discriminate |].
  cbn [startswith] in *. change (String y a ++ b) with (String y (a ++ b)).
  cbn [startswith]. apply andb_true_iff in Hp as [-> Hp]. now rewrite IH.
Qed.

Lemma contains_app_l (sub a b : string) :
  contains sub (a ++ b) = false -> contains sub a = false.
Proof.
  induction a as [|c a IH].
  - intros Hc. destruct (contains sub "") eqn:E; [| reflexivity].
    simpl in E. rewrite orb_false_r in E.
    rewrite contains_unfold in Hc. apply orb_false_iff in Hc as [Hs _].
    now rewrite (startswith_app_l sub "" b E) in Hs.
  - change (String c a ++ b) with (String c (a ++ b)).
    rewrite (contains_unfold sub (String c (a ++ b))), (contains_unfold sub (String c a)).
    intros Hc. apply orb_false_iff in Hc as [Hs Hc].
    rewrite (IH Hc), orb_false_r.
    destruct (startswith sub (String c a)) eqn:E; [| reflexivity].
    apply (startswith_app_l sub (String c a) b) in E.
    change (String c a ++ b) with (String c (a ++ b)) in E. congruence.
Qed.

Lemma contains_app_r (sub a b : string) :
  contains sub (a ++ b) = false -> contains sub b = false.
Proof.
  induction a as [|c a IH]; [tauto |].
  change (String c a ++ b) with (String c (a ++ b)).
  rewrite contains_unfold. intros Hc. apply orb_false_iff in Hc as [_ Hc]. auto.
Qed.

Lemma entities_NoDup : List.NoDup GEO_CONSTANT_ENTITIES.
Proof.
  unfold GEO_CONSTANT_ENTITIES.
  repeat (constructor; [simpl; intuition discriminate |]). constructor.
Qed.

Lemma make_namespace_token (sg_publish_data : publish_data)
    (entity_name : option string) (tok pre base : string) (d : ascii)
    (rest : string) (h : list event) :
  entity sg_publish_data = Some entity_name ->
  long_namespace entity_name sg_publish_data =
    pre ++ tok ++ base ++ "_v" ++ String d rest ->
  In tok GEO_CONSTANT_ENTITIES ->
  occurrences tok (pre ++ tok ++ base ++ "_v" ++ String d rest) = 1%nat ->
  (forall e, In e GEO_CONSTANT_ENTITIES -> e <> tok ->
             contains e (pre ++ tok ++ base ++ "_v" ++ String d rest) = false) ->
  is_digit d = true ->
  search_vplus base = None ->
  make_namespace sg_publish_data h = (Ok (tok ++ base), h).
Proof.
  intros Hentity Hlong Hin Hocc Hothers Hd Hb.
  unfold make_namespace. rewrite Hentity.
  change (replace_char " " "_" _) with (long_namespace entity_name sg_publish_data).
  rewrite Hlong.
  pose proof entities_NoDup as Hnodup.
  destruct (in_split _ _ Hin) as (before & after & HG).
  rewrite HG in Hnodup. apply List.NoDup_remove_2 in Hnodup.
  assert (Hbefore : forall e, In e before ->
            contains e (pre ++ tok ++ base ++ "_v" ++ String d rest) = false).
  { intros e He. apply Hothers.
    - rewrite HG. apply in_or_app. now left.
    - intros ->. apply Hnodup, in_or_app. now left. }
  assert (Hafter : forall e, In e after -> contains e (tok ++ base) = false).
  { intros e He.
    assert (Hc : contains e (pre ++ (tok ++ base) ++ "_v" ++ String d rest) = false).
    { rewrite app_assoc. apply Hothers.
      - rewrite HG. apply in_or_app. right. now right.
      - intros ->. apply Hnodup, in_or_app. now right. }
    apply contains_app_r in Hc. now apply contains_app_l in Hc. }
  rewrite HG, ExtractFacts.for_fold_app, namespace_loop_absent by exact Hbefore.
  cbn [for_fold]. unfold bind.
  rewrite namespace_step_token; try assumption.
  - now apply namespace_loop_absent.
  - now apply loader_entities_nonempty.
Qed.

Lemma abc_block_adds (H : host) (file_path : string) :
  adds (fun _ => True) (abc_block H file_path).
Proof.
  unfold abc_block, find_atrib, offset_from_archive, apply_offset, offset_round.
  loader_adds_auto.
Qed.

(** X14: the namespace of a versioned geometry publish is the entity token
    and the base name.  When the long namespace holds one entity token, once,
    followed by a base name without [_v] and a digit, by [_v] and by a digit,
    and holds no other entity token, a file on disk is referenced, and
    imported, under the token followed by the base name; that command is the
    first one issued. *)
Theorem namespace_of_versioned_name :
  forall (H : host) (path : string) (sg_publish_data : publish_data)
         (entity_name : option string) (tok pre base : string) (d : ascii)
         (rest : string) (h : list event),
    os_path_exists H h path = true ->
    entity sg_publish_data = Some entity_name ->
    long_namespace entity_name sg_publish_data =
      pre ++ tok ++ base ++ "_v" ++ String d rest ->
    In tok GEO_CONSTANT_ENTITIES ->
    occurrences tok (pre ++ tok ++ base ++ "_v" ++ String d rest) = 1%nat ->
    (forall e, In e GEO_CONSTANT_ENTITIES -> e <> tok ->
               contains e (pre ++ tok ++ base ++ "_v" ++ String d rest) = false) ->
    is_digit d = true ->
    search_vplus base = None ->
    (exists r evs,
       _create_reference H path sg_publish_data h =
         (r, (h ++ FileReference path (tok ++ base) :: evs)%list)) /\
    (exists r evs,
       _do_import H path sg_publish_data h =
         (r, (h ++ FileImport path (tok ++ base) :: evs)%list)).
Proof.
  intros H path sg_publish_data entity_name tok pre base d rest h
    Hdisk Hentity Hlong Hin Hocc Hothers Hd Hb.
  pose proof (make_namespace_token sg_publish_data entity_name tok pre base d rest h
                Hentity Hlong Hin Hocc Hothers Hd Hb) as Hns.
  assert (Hrest : forall file_path : pyval,
            adds (fun _ : event => True)
              ('(is_abc, file_path) ← lift (py_endswith file_path ".abc");
               if (is_abc : bool) then abc_block H file_path else mret tt)).
  { intros file_path. unfold mbind, mret, M_bind, M_ret.
    apply adds_bind; [apply adds_lift | intros [is_abc fp]].
    destruct is_abc; [apply abc_block_adds | apply adds_ret]. }
  split.
  - unfold _create_reference, mbind, mret, M_bind, M_ret.
    unfold bind at 1. unfold ask. rewrite Hdisk. cbn [negb].
    unfold bind at 1. rewrite Hns.
    unfold bind at 1. unfold call.
    destruct (cmds_file_reference H h path (tok ++ base)) as [file_path|e].
    + match goal with |- exists r evs, ?m ?h0 = _ =>
        destruct (m h0) as [r h'] eqn:Hrun end.
      destruct (Hrest file_path _ _ _ Hrun) as (evs & -> & _).
      exists r, evs. now rewrite <- List.app_assoc.
    + now exists (Raise e), [].
  - unfold _do_import, mbind, mret, M_bind, M_ret.
    unfold bind at 1. unfold ask. rewrite Hdisk. cbn [negb].
    unfold bind at 1. rewrite Hns.
    unfold bind at 1. unfold call.
    destruct (cmds_file_import H h path (tok ++ base)) as [file_path|e].
    + match goal with |- exists r evs, ?m ?h0 = _ =>
        destruct (m h0) as [r h'] eqn:Hrun end.
      destruct (Hrest file_path _ _ _ Hrun) as (evs & -> & _).
      exists r, evs. now rewrite <- List.app_assoc.
    + now exists (Raise e), [].
Qed.

Lemma namespace_of_versioned_name_witness :
  (exists r evs,
     _create_reference (example_host true 1001 1001) "/proj/pub_fxgeo_rock_v001.abc"
       example_publish [] =
       (r, ([] ++ FileReference "/proj/pub_fxgeo_rock_v001.abc" ("fxgeo" ++ "_rock")
               :: evs)%list)) /\
  (exists r evs,
     _do_import (example_host true 1001 1001) "/proj/pub_fxgeo_rock_v001.abc"
       example_publish [] =
       (r, ([] ++ FileImport "/proj/pub_fxgeo_rock_v001.abc" ("fxgeo" ++ "_rock")
               :: evs)%list)).
Proof.
  apply (namespace_of_versioned_name (example_host true 1001 1001)
           "/proj/pub_fxgeo_rock_v001.abc" example_publish (Some "shot010")
           "fxgeo" "shot010_pub_" "_rock" "0"%char "01" []).
  - reflexivity.
  - reflexivity.
  - reflexivity.
  - simpl. tauto.
  - reflexivity.
  - intros e He Hne. simpl in He.
    repeat (destruct He as [<- | He]; [try reflexivity; congruence |]). destruct He.
  - reflexivity.
  - reflexivity.
Defined.

(** *** Which commands an action issues *)

Definition known_actions : list string :=
  ["reference"; "import"; "texture_node"; "udim_texture_node"; "image_plane"].

(** The commands of the action called [name]; log lines belong to every
    action. *)
Definition belongs (name : string) (e : event) : Prop :=
  match e with
  | LogDebug _ | LogError _ => True
  | FileReference _ _ => name = "reference"
  | FileImport _ _ => name = "import"
  | PrintOffset _ _ => name = "reference" \/ name = "import"
  | SetAttr _ _ => In name known_actions
  | ShadingNode => name = "texture_node" \/ name = "udim_texture_node"
  | MelEval _ => name = "udim_texture_node"
  | ImagePlane _ => name = "image_plane"
  end.

Ltac belongs_step :=
  match goal with
  | |- adds _ (bind _ _) => apply adds_bind; [| intros ?]
  | |- adds _ (for_fold _ _ _) => apply NamingFacts.adds_for_fold; intros ? ?
  | |- adds _ (for_each _ _) => apply adds_for_each; intros ?
  | |- adds _ (ret _) => apply adds_ret
  | |- adds _ (raise _) => apply adds_raise
  | |- adds _ (ask _) => apply adds_ask
  | |- adds _ (lift _) => apply adds_lift
  | |- adds _ (emit _) => apply adds_emit; simpl; tauto
  | |- adds _ (call _ _) => apply adds_call; simpl; tauto
  | |- adds _ (make_namespace _) => apply make_namespace_adds
  | |- adds _ (if ?b then _ else _) => destruct b
  | |- adds _ (match ?x with _ => _ end) => destruct x
  end.

Ltac belongs_auto :=
  unfold mbind, mret, M_bind, M_ret; cbv beta zeta; repeat belongs_step.

Lemma abc_block_belongs (H : host) (name file_path : string) :
  name = "reference" \/ name = "import" ->
  adds (belongs name) (abc_block H file_path).
Proof.
  intros Hname.
  assert (Hin : In name known_actions) by (destruct Hname as [-> | ->]; simpl; tauto).
  unfold abc_block, find_atrib, offset_from_archive, apply_offset, offset_round.
  belongs_auto.
Qed.

Lemma _create_reference_belongs (H : host) (path : string)
    (sg_publish_data : publish_data) :
  adds (belongs "reference") (_create_reference H path sg_publish_data).
Proof.
  unfold _create_reference. belongs_auto.
  apply abc_block_belongs. now left.
Qed.

Lemma _do_import_belongs (H : host) (path : string) (sg_publish_data : publish_data) :
  adds (belongs "import") (_do_import H path sg_publish_data).
Proof.
  unfold _do_import. belongs_auto.
  apply abc_block_belongs. now right.
Qed.

Lemma _create_texture_node_belongs (H : host) (name path : string) :
  name = "texture_node" \/ name = "udim_texture_node" ->
  adds (belongs name) (_create_texture_node H path).
Proof.
  intros Hname.
  assert (Hin : In name known_actions) by (destruct Hname as [-> | ->]; simpl; tauto).
  unfold _create_texture_node. belongs_auto.
Qed.

Lemma _create_udim_texture_node_belongs (H : host) (path : string) :
  adds (belongs "udim_texture_node") (_create_udim_texture_node H path).
Proof.
  unfold _create_udim_texture_node, mbind, mret, M_bind, M_ret.
  apply adds_bind; [apply _create_texture_node_belongs; now right | intros file_node].
  belongs_auto.
Qed.

Lemma _create_image_plane_belongs (H : host) (path : string) :
  adds (belongs "image_plane") (_create_image_plane H path).
Proof. unfold _create_image_plane. belongs_auto. Qed.

Lemma execute_action_belongs (H : host) (name : string) (params : pyval)
    (sg_publish_data : publish_data) :
  adds (belongs name) (execute_action H name params sg_publish_data).
Proof.
  unfold execute_action, mbind, mret, M_bind, M_ret.
  apply adds_bind; [apply adds_emit; exact I | intros _].
  apply adds_bind; [apply adds_lift | intros path].
  apply adds_bind; [| intros _].
  { destruct (String.eqb_spec name "reference") as [-> |];
      [apply _create_reference_belongs | apply adds_ret]. }
  apply adds_bind; [| intros _].
  { destruct (String.eqb_spec name "import") as [-> |];
      [apply _do_import_belongs | apply adds_ret]. }
  apply adds_bind; [| intros _].
  { destruct (String.eqb_spec name "texture_node") as [-> |]; [| apply adds_ret].
    apply adds_bind; [| intros ?; apply adds_ret].
    apply _create_texture_node_belongs. now left. }
  apply adds_bind; [| intros _].
  { destruct (String.eqb_spec name "udim_texture_node") as [-> |]; [| apply adds_ret].
    apply adds_bind; [| intros ?; apply adds_ret].
    apply _create_udim_texture_node_belongs. }
  destruct (String.eqb_spec name "image_plane") as [-> |];
    [apply _create_image_plane_belongs | apply adds_ret].
Qed.

Lemma execute_action_unknown (H : host) (name : string) (params : pyval)
    (sg_publish_data : publish_data) (h : list event) :
  ~ In name known_actions ->
  exists r msg,
    execute_action H name params sg_publish_data h = (r, (h ++ [LogDebug msg])%list) /\
    (forall path, get_publish_path H sg_publish_data = Ok path -> r = Ok tt).
Proof.
  intros Hname. unfold execute_action. msimpl.
  assert (E1 : String.eqb name "reference" = false)
    by (apply String.eqb_neq; intros ->; apply Hname; simpl; tauto).
  assert (E2 : String.eqb name "import" = false)
    by (apply String.eqb_neq; intros ->; apply Hname; simpl; tauto).
  assert (E3 : String.eqb name "texture_node" = false)
    by (apply String.eqb_neq; intros ->; apply Hname; simpl; tauto).
  assert (E4 : String.eqb name "udim_texture_node" = false)
    by (apply String.eqb_neq; intros ->; apply Hname; simpl; tauto).
  assert (E5 : String.eqb name "image_plane" = false)
    by (apply String.eqb_neq; intros ->; apply Hname; simpl; tauto).
  rewrite E1, E2, E3, E4, E5.
  destruct (get_publish_path H sg_publish_data) as [path|e].
  - exists (Ok tt), "Execute action called". split; [reflexivity | auto].
  - exists (Raise e), "Execute action called". split; [reflexivity | discriminate].
Qed.

(** X15: [execute_action] issues the commands of the action it is asked for
    and of no other.  However the run ends, a reference is created only for
    the name [reference], an import made only for [import], a shading node
    only for the two texture actions, a MEL command only for
    [udim_texture_node], an image plane only for [image_plane], and an
    attribute set only for one of the five names.  A name that is none of the
    five gives one debug line and nothing else, and [execute_action] returns
    when the publish path resolves. *)
Theorem execute_action_dispatch :
  forall (H : host) (name : string) (params : pyval)
         (sg_publish_data : publish_data) (h h' : list event) (r : result unit),
    execute_action H name params sg_publish_data h = (r, h') ->
    exists evs,
      h' = (h ++ evs)%list /\
      Forall (belongs name) evs /\
      (~ In name known_actions ->
       (exists msg, evs = [LogDebug msg]) /\
       (forall path, get_publish_path H sg_publish_data = Ok path -> r = Ok tt)).
Proof.
  intros H name params sg_publish_data h h' r Hrun.
  destruct (execute_action_belongs H name params sg_publish_data _ _ _ Hrun)
    as (evs & -> & Hevs).
  exists evs. split; [reflexivity |]. split; [exact Hevs |].
  intros Hname.
  destruct (execute_action_unknown H name params sg_publish_data h Hname)
    as (r' & msg & Hrun' & Hok).
  rewrite Hrun in Hrun'. injection Hrun' as -> Hh.
  apply List.app_inv_head in Hh. subst evs. split; [now exists msg | exact Hok].
Qed.

Lemma execute_action_dispatch_witness :
  exists evs,
    snd (execute_action (example_host true 1001 1001) "udim_texture_node" VNone
           example_publish []) = ([] ++ evs)%list /\
    Forall (belongs "udim_texture_node") evs /\
    (~ In "udim_texture_node" known_actions ->
     (exists msg, evs = [LogDebug msg]) /\
     (forall path, get_publish_path (example_host true 1001 1001) example_publish =
                     Ok path ->
                   fst (execute_action (example_host true 1001 1001)
                          "udim_texture_node" VNone example_publish []) = Ok tt)).
Proof.
  apply (execute_action_dispatch (example_host true 1001 1001) "udim_texture_node"
           VNone example_publish []).
  apply surjective_pairing.
Defined.

(** *** A batch of actions *)

Lemma for_each_app {E X} (l1 l2 : list X) (body : X -> M E unit) (h h1 : list E) :
  for_each l1 body h = (Ok tt, h1) ->
  for_each (l1 ++ l2) body h = for_each l2 body h1.
Proof.
  revert h; induction l1 as [|x l1 IH]; intros h.
  - cbn [for_each app]. unfold ret. now intros [= <-].
  - cbn [for_each app]. unfold bind.
    destruct (body x h) as [[[]|e] h0]; [apply IH | discriminate].
Qed.

Lemma execute_multiple_actions_app (H : host) (done rest : list single_action)
    (h h1 : list event) :
  execute_multiple_actions H done h = (Ok tt, h1) ->
  execute_multiple_actions H (done ++ rest) h = execute_multiple_actions H rest h1.
Proof. apply for_each_app. Qed.

Lemma for_each_raise {E X} (x : X) (l : list X) (body : X -> M E unit)
    (h h' : list E) (e : exn) :
  for_each [x] body h = (Raise e, h') ->
  for_each (x :: l) body h = (Raise e, h').
Proof.
  cbn [for_each]. unfold bind, ret.
  destruct (body x h) as [[[]|e'] h0]; [discriminate | tauto].
Qed.

(** X16: a batch of actions stops at the first one that fails, and keeps what
    was done before.  When the actions [done] have run and the next action
    raises, [execute_multiple_actions] raises the same exception with the
    commands of [done] and of the failed action issued and none of the
    actions after it; and a batch whose first part has run goes on with the
    rest from where that part ended. *)
Theorem execute_multiple_actions_stops_at_error :
  forall (H : host) (done rest : list single_action) (failing : single_action)
         (h h1 h2 : list event) (e : exn),
    execute_multiple_actions H done h = (Ok tt, h1) ->
    execute_multiple_actions H [failing] h1 = (Raise e, h2) ->
    execute_multiple_actions H (done ++ failing :: rest) h = (Raise e, h2) /\
    execute_multiple_actions H (done ++ rest) h = execute_multiple_actions H rest h1.
Proof.
  intros H done rest failing h h1 h2 e Hdone Hfail. split.
  - rewrite (execute_multiple_actions_app H done (failing :: rest) h h1 Hdone).
    apply for_each_raise. exact Hfail.
  - exact (execute_multiple_actions_app H done rest h h1 Hdone).
Qed.

Definition example_action (name : string) : single_action :=
  {| action_name := Some name;
     action_sg_publish_data := Some example_publish;
     action_params := Some VNone |}.

Lemma execute_multiple_actions_stops_at_error_witness :
  execute_multiple_actions (example_host false 1001 1001)
    ([example_action "texture_node"] ++
     example_action "reference" :: [example_action "image_plane"]) [] =
    (Raise (Exception "File not found on disk - '/proj/pub_fxgeo_rock_v001.abc'"),
     [LogDebug "Execute action called"; ShadingNode;
      SetAttr "file1.fileTextureName" (VStr "/proj/pub_fxgeo_rock_v001.abc");
      LogDebug "Execute action called"]) /\
  execute_multiple_actions (example_host false 1001 1001)
    ([example_action "texture_node"] ++ [example_action "image_plane"]) [] =
  execute_multiple_actions (example_host false 1001 1001)
    [example_action "image_plane"]
    [LogDebug "Execute action called"; ShadingNode;
     SetAttr "file1.fileTextureName" (VStr "/proj/pub_fxgeo_rock_v001.abc")].
Proof.
  apply (execute_multiple_actions_stops_at_error (example_host false 1001 1001)
           [example_action "texture_node"] [example_action "image_plane"]
           (example_action "reference") []).
  - reflexivity.
  - reflexivity.
Defined.

(** *** The Maya version *)

Lemma no_start_digits (c : ascii) (ds t : string) :
  is_digit c = false -> all_digits ds = true -> no_start (String c "") ds t.
Proof.
  intros Hc. induction ds as [|x ds IH]; intros Hds; [exact I |].
  cbn [all_digits] in Hds. apply andb_true_iff in Hds as [Hx Hds].
  split; [| now apply IH].
  change (String x ds ++ t) with (String x (ds ++ t)). cbn [startswith].
  destruct (Ascii.eqb_spec c x) as [->|]; [congruence | reflexivity].
Qed.

Lemma split_go_pass (sep a s cur : string) :
  no_start sep a s -> split_go sep (a ++ s) 0 cur = split_go sep s 0 (cur ++ a).
Proof.
  revert cur; induction a as [|x a IH]; intros cur Ha.
  - now rewrite app_nil_r.
  - destruct Ha as [Hs Ha].
    change (String x a ++ s) with (String x (a ++ s)) in *.
    cbn [split_go]. rewrite Hs, IH by exact Ha. now rewrite app_assoc.
Qed.

Lemma split_go_head_extends (sep s : string) (skip : nat) (cur : string) :
  exists x, head (split_go sep s skip cur) = Some (cur ++ x).
Proof.
  revert skip cur; induction s as [|c s IH]; intros skip cur.
  - exists "". now rewrite app_nil_r.
  - cbn [split_go]. destruct skip as [|k]; [| apply IH].
    destruct (startswith sep (String c s)).
    + exists "". now rewrite app_nil_r.
    + destruct (IH 0%nat (cur ++ String c "")) as [x ->].
      exists (String c x). now rewrite app_assoc.
Qed.

(** The number at the head of a text that goes on with a space or a dot. *)
Definition ends_number (tail : string) : Prop :=
  match tail with
  | EmptyString => True
  | String c _ => c = " "%char \/ c = "."%char
  end.

Lemma leading_number (ds tail : string) :
  all_digits ds = true -> ends_number tail ->
  exists first, py_split_first " " (ds ++ tail) = Ok first /\
                py_split_first "." first = Ok ds.
Proof.
  intros Hds Htail. unfold py_split_first, split_first, split. simpl mbind.
  assert (Hsp : no_start " " ds tail) by now apply no_start_digits.
  rewrite (split_go_pass " " ds tail "" Hsp).
  change ("" ++ ds) with ds.
  assert (Hdot : forall x, head (split_go "." (ds ++ x) 0 "") = Some ds ->
                           match head (split_go "." (ds ++ x) 0 "") with
                           | Some u => Ok u
                           | None => Raise ValueError
                           end = Ok ds) by (intros x ->; reflexivity).
  destruct tail as [|c t].
  - exists ds. split; [reflexivity |].
    rewrite <- (app_nil_r ds) at 1. apply Hdot.
    rewrite (split_go_pass "." ds "" ""); [reflexivity |].
    now apply no_start_digits.
  - destruct Htail as [-> | ->].
    + exists ds. split; [reflexivity |].
      rewrite <- (app_nil_r ds) at 1. apply Hdot.
      rewrite (split_go_pass "." ds "" ""); [reflexivity |].
      now apply no_start_digits.
    + cbn [split_go startswith Ascii.eqb Bool.eqb andb].
      destruct (split_go_head_extends " " t 0 (ds ++ ".")) as [x ->].
      exists ((ds ++ ".") ++ x). split; [reflexivity |].
      rewrite app_assoc. apply Hdot.
      exact (split_go_head "."%char "" ds x ""
               (no_start_digits "."%char ds ("." ++ x) eq_refl Hds)).
Qed.

Lemma isdigit_all (ds : string) :
  isdigit ds = true -> all_digits ds = true /\ ds <> "".
Proof. destruct ds; [discriminate |]. intros Hd. now split. Qed.

Lemma startswith_maya_digits (ds tail : string) :
  isdigit ds = true -> startswith "Maya " (ds ++ tail) = false.
Proof.
  destruct ds as [|x ds]; [discriminate |].
  cbn [isdigit all_digits]. intros Hx. apply andb_true_iff in Hx as [Hx _].
  change (String x ds ++ tail) with (String x (ds ++ tail)). cbn [startswith].
  destruct (Ascii.eqb_spec "M" x) as [<-|]; [discriminate | reflexivity].
Qed.

(** X17: the Maya version is the number at the head of what
    [cmds.about(version=True)] answers, after the word [Maya] if it is
    there.  When the answer is a run of digits, with or without [Maya ]
    before it, followed by nothing, by a space or by a dot, a hook that has
    not asked before returns that number and keeps it. *)
Theorem maya_version_is_leading_number :
  forall (H : host) (self : self_state) (h : list event) (ds tail : string),
    _maya_major_version self = None ->
    isdigit ds = true ->
    ends_number tail ->
    about_version H h = "Maya " ++ ds ++ tail \/ about_version H h = ds ++ tail ->
    _get_maya_version H self h =
      (Ok (int_of_digits ds, {| _maya_major_version := Some (int_of_digits ds) |}), h).
Proof.
  intros H self h ds tail Hnone Hds Htail Hver.
  destruct (isdigit_all ds Hds) as [Hall Hne].
  destruct (leading_number ds tail Hall Htail) as (first & Hfirst & Hmajor).
  unfold _get_maya_version. rewrite Hnone. msimpl.
  assert (Hmaya : (if startswith "Maya " (about_version H h)
                   then PyStr.tail (PyStr.tail (PyStr.tail (PyStr.tail
                          (PyStr.tail (about_version H h)))))
                   else about_version H h) = ds ++ tail).
  { destruct Hver as [-> | ->].
    - reflexivity.
    - now rewrite startswith_maya_digits. }
  rewrite Hmaya, Hfirst, Hmajor, Hds.
  destruct (String.eqb_spec ds "") as [->|]; [congruence | reflexivity].
Qed.

Lemma maya_version_is_leading_number_witness :
  _get_maya_version
    {| get_publish_path := get_publish_path (example_host true 1 1);
       os_path_exists := os_path_exists (example_host true 1 1);
       cmds_file_reference := cmds_file_reference (example_host true 1 1);
       cmds_file_import := cmds_file_import (example_host true 1 1);
       playback_minTime := playback_minTime (example_host true 1 1);
       referenceQuery_nodes := referenceQuery_nodes (example_host true 1 1);
       attributeQuery_exists := attributeQuery_exists (example_host true 1 1);
       getAttr := getAttr (example_host true 1 1);
       setAttr := setAttr (example_host true 1 1);
       ls_long := ls_long (example_host true 1 1);
       open_archive := open_archive (example_host true 1 1);
       about_version := fun _ => "Maya 2016.5 Extension 2";
       shadingNode := shadingNode (example_host true 1 1);
       mel_eval := mel_eval (example_host true 1 1);
       glob := glob (example_host true 1 1);
       imagePlane := imagePlane (example_host true 1 1) |}
    {| _maya_major_version := None |} [] =
    (Ok (int_of_digits "2016",
         {| _maya_major_version := Some (int_of_digits "2016") |}), []).
Proof.
  apply (maya_version_is_leading_number _ {| _maya_major_version := None |} []
           "2016" ".5 Extension 2").
  - reflexivity.
  - reflexivity.
  - right. reflexivity.
  - left. reflexivity.
Defined.

(** X18: Maya is asked for its version once.  Whatever [_get_maya_version]
    returns, it issues no command, and every later call on the hook as it
    left it returns the same number without looking at the host, even a host
    that would now answer otherwise. *)
Theorem maya_version_asked_once :
  forall (H H' : host) (self self' : self_state) (v : Z) (h h' h2 : list event),
    _get_maya_version H self h = (Ok (v, self'), h') ->
    h' = h /\
    _maya_major_version self' = Some v /\
    _get_maya_version H' self' h2 = (Ok (v, self'), h2).
Proof.
  intros H H' self self' v h h' h2. unfold _get_maya_version at 1.
  destruct (_maya_major_version self) as [cached|] eqn:Hcache.
  - msimpl. intros [= <- <- <-]. repeat split; [exact Hcache |].
    unfold _get_maya_version. now rewrite Hcache.
  - msimpl.
    destruct (py_split_first " " _) as [first|]; [| discriminate].
    destruct (py_split_first "." first) as [major|]; [| discriminate].
    intros [= <- <- <-]. repeat split.
Qed.

Lemma maya_version_asked_once_witness :
  [] = ([] : list event) /\
  _maya_major_version {| _maya_major_version := Some 2018 |} = Some 2018 /\
  _get_maya_version (example_host false 1 1) {| _maya_major_version := Some 2018 |}
    [ShadingNode] =
    (Ok (2018, {| _maya_major_version := Some 2018 |}), [ShadingNode]).
Proof.
  apply (maya_version_asked_once (example_host true 1 1) (example_host false 1 1)
           {| _maya_major_version := None |} {| _maya_major_version := Some 2018 |}
           2018 [] [] [ShadingNode]).
  reflexivity.
Defined.

(** *** An image sequence without frames *)

Lemma search_frame_spec_unfold (s : string) :
  search_frame_spec s =
  match match_frame_spec s with
  | Some m => Some m
  | None =>
      match s with
      | EmptyString => None
      | String _ s' => search_frame_spec s'
      end
  end.
Proof. destruct s; reflexivity. Qed.

Lemma search_frame_spec_found (pre : string) (d : ascii) (post : string) :
  is_digit d = true ->
  exists frame_spec,
    search_frame_spec (pre ++ "%0" ++ String d ("d" ++ post)) = Some frame_spec.
Proof.
  intros Hd. induction pre as [|c pre IH].
  - rewrite search_frame_spec_unfold. simpl. rewrite Hd. eauto.
  - change (String c pre ++ "%0" ++ String d ("d" ++ post))
      with (String c (pre ++ "%0" ++ String d ("d" ++ post))).
    rewrite search_frame_spec_unfold.
    destruct (match_frame_spec _); eauto.
Qed.

(** X19: an image sequence of which no frame is on disk gives no image
    plane and no error to the caller.  When the publish path holds a frame
    specification ([%0], a digit and [d]) and [glob] finds no file, the
    action [image_plane] logs an error and returns: no image plane is
    created and nothing is raised. *)
Theorem image_plane_without_frames :
  forall (H : host) (params : pyval) (sg_publish_data : publish_data)
         (pre : string) (d : ascii) (post : string) (h : list event),
    get_publish_path H sg_publish_data = Ok (pre ++ "%0" ++ String d ("d" ++ post)) ->
    is_digit d = true ->
    (forall h0 pattern, glob H h0 pattern = []) ->
    exists debug error,
      execute_action H "image_plane" params sg_publish_data h =
        (Ok tt, (h ++ [LogDebug debug; LogError error])%list).
Proof.
  intros H params sg_publish_data pre d post h Hpath Hd Hglob.
  destruct (search_frame_spec_found pre d post Hd) as [frame_spec Hspec].
  unfold execute_action. msimpl. rewrite Hpath.
  cbn [String.eqb Ascii.eqb Bool.eqb].
  unfold _create_image_plane. rewrite Hspec. msimpl. rewrite Hglob.
  do 2 eexists. rewrite <- List.app_assoc. reflexivity.
Qed.

Lemma image_plane_without_frames_witness :
  exists debug error,
    execute_action
      {| get_publish_path := fun _ => Ok ("/proj/plate." ++ "%0" ++ String "4" ("d" ++ ".exr"));
         os_path_exists := os_path_exists (example_host true 1 1);
         cmds_file_reference := cmds_file_reference (example_host true 1 1);
         cmds_file_import := cmds_file_import (example_host true 1 1);
         playback_minTime := playback_minTime (example_host true 1 1);
         referenceQuery_nodes := referenceQuery_nodes (example_host true 1 1);
         attributeQuery_exists := attributeQuery_exists (example_host true 1 1);
         getAttr := getAttr (example_host true 1 1);
         setAttr := setAttr (example_host true 1 1);
         ls_long := ls_long (example_host true 1 1);
         open_archive := open_archive (example_host true 1 1);
         about_version := about_version (example_host true 1 1);
         shadingNode := shadingNode (example_host true 1 1);
         mel_eval := mel_eval (example_host true 1 1);
         glob := fun _ _ => [];
         imagePlane := imagePlane (example_host true 1 1) |}
      "image_plane" VNone example_publish [] =
      (Ok tt, ([] ++ [LogDebug debug; LogError error])%list).
Proof.
  apply (image_plane_without_frames _ VNone example_publish "/proj/plate." "4"%char
           ".exr" []).
  - reflexivity.
  - reflexivity.
  - reflexivity.
Defined.

End LoaderEdgeFacts.

(** ** Failures before the export *)

Module PublishFailFacts.
Import PyStr Publish PyStrFacts NamespaceFacts NamingFacts PublishFacts
       PublishEdgeFacts.

#[local] Arguments String.append !s1 s2 : simpl nomatch.

(** *** A node whose name holds no naming convention *)

(** None of the seven naming conventions occurs in the name. *)
Definition plain (node : string) : Prop :=
  forall naming, In naming namings -> contains naming node = false.

Lemma filter_none {X} (f : X -> bool) (l : list X) :
  (forall x, In x l -> f x = false) -> List.filter f l = [].
Proof.
  induction l as [|x l IH]; intros Hl; [reflexivity |].
  cbn [List.filter]. rewrite (Hl x) by now left.
  apply IH. intros y Hy. apply Hl. now right.
Qed.

Lemma first_naming_plain (node : string) :
  plain node -> first_naming node = Raise IndexError.
Proof.
  intros Hplain. unfold first_naming.
  now rewrite (filter_none (fun name => contains name node) namings Hplain).
Qed.

Lemma never_lift_raise {E A B} (e : exn) (k : A -> M E B) :
  never_returns (bind (lift (Raise e)) k).
Proof. intros h b h'. unfold bind, lift. discriminate. Qed.

Lemma adds_lift_raise {E A B} (P : E -> Prop) (e : exn) (k : A -> M E B) :
  adds P (bind (lift (Raise e)) k).
Proof. apply adds_bind_lift. discriminate. Qed.

Lemma publish_camera_plain (H : host) (item : Item) (node : string) :
  plain node ->
  (forall h0, is_referenced H h0 node <> Ok true) ->
  property item "camera_name" = Ok node ->
  never_returns (publish_camera H item) /\ adds bystander (publish_camera H item).
Proof.
  intros Hplain Hnoref Hnode. split.
  - intros h item' h' Hrun.
    unfold publish_camera, mbind, mret, M_bind, M_ret in Hrun. cbv beta zeta in Hrun.
    inv_bind Hrun sel h1 H1. inv_bind Hrun cam h2 H2. inv_lift H2 Hcam.
    rewrite Hnode in Hcam. injection Hcam as <-.
    inv_bind Hrun path h2 H2. inv_bind Hrun u1 h3 H3.
    inv_bind Hrun lo h4 H4. inv_bind Hrun hi h5 H5. inv_bind Hrun u2 h6 H6.
    inv_bind Hrun referenced h7 H7. inv_ask H7 Href.
    destruct referenced; [now apply Hnoref in Href |]. cbn [negb] in Hrun.
    inv_bind Hrun exported h8 H8.
    inv_bind H8 naming h9 H9. inv_lift H9 Hnaming.
    rewrite (first_naming_plain node Hplain) in Hnaming. discriminate.
  - unfold publish_camera, mbind, mret, M_bind, M_ret. cbv beta zeta.
    apply adds_bind; [apply adds_ask |]. intros sel.
    apply adds_bind_lift. intros cam Hcam.
    rewrite Hnode in Hcam. injection Hcam as <-.
    apply adds_bind; [apply adds_lift |]. intros path.
    apply adds_bind; [now apply adds_call |]. intros u.
    apply adds_bind; [apply adds_ask |]. intros lo.
    apply adds_bind; [apply adds_ask |]. intros hi.
    apply adds_bind; [apply stamp_start_frame_adds |]. intros u'.
    apply adds_bind_ask. intros [|] [h Ha]; [now apply Hnoref in Ha |].
    cbn [negb]. rewrite (first_naming_plain node Hplain).
    apply adds_bind_never; [apply never_lift_raise | apply adds_lift_raise].
Qed.

Lemma publish_mesh_round_elsewhere (H : host) (node path meshes : string)
    (h h' : list event) (b : bool) :
  node <> meshes ->
  publish_mesh_round H node path meshes h = (Ok b, h') -> b = false /\ h' = h.
Proof.
  intros Hne Hrun.
  unfold publish_mesh_round, mbind, mret, M_bind, M_ret in Hrun. cbv beta zeta in Hrun.
  inv_bind Hrun dag h1 H1. inv_ask H1 Hdag.
  destruct dag as [|shape dag].
  { apply ret_inv in Hrun. now destruct Hrun as (-> & ->). }
  destruct (String.eqb_spec node meshes) as [-> | _]; [congruence |].
  apply ret_inv in Hrun. now destruct Hrun as (-> & ->).
Qed.

(** The loop of the mesh plugin does not end when the round of the object
    does not. *)
Lemma publish_mesh_loop_never (H : host) (node path : string) (l : list string) :
  never_returns (publish_mesh_round H node path node) ->
  In node l ->
  never_returns (for_until l (publish_mesh_round H node path)).
Proof.
  intros Hround. induction l as [|meshes l IH]; intros Hin h b h' Hrun; [destruct Hin |].
  cbn [for_until] in Hrun. inv_bind Hrun left_loop h1 H1.
  destruct (String.eqb_spec node meshes) as [<- | Hne].
  - exact (Hround _ _ _ H1).
  - destruct (publish_mesh_round_elsewhere _ _ _ _ _ _ _ Hne H1) as (-> & ->).
    destruct Hin as [-> | Hin]; [congruence |].
    exact (IH Hin _ _ _ Hrun).
Qed.

Lemma publish_mesh_never (H : host) (item : Item) (node : string) :
  top_level_mesh H node ->
  property item "object" = Ok node ->
  (forall path, never_returns (publish_mesh_round H node path node)) ->
  never_returns (publish_mesh H item).
Proof.
  intros (Hassemblies & _ & _) Hnode Hround h item' h' Hrun.
  unfold publish_mesh, mbind, mret, M_bind, M_ret in Hrun. cbv beta zeta in Hrun.
  inv_bind Hrun path h1 H1. inv_bind Hrun u1 h2 H2.
  inv_bind Hrun mesh_object h3 H3. inv_lift H3 Hobject.
  rewrite Hnode in Hobject. injection Hobject as <-.
  inv_bind Hrun assemblies h3 H3. inv_ask H3 Hl.
  inv_bind Hrun returned h4 H4.
  destruct (Hassemblies h2) as (l & Hl' & Hin).
  rewrite Hl in Hl'. injection Hl' as <-.
  exact (publish_mesh_loop_never H node path assemblies (Hround path) Hin _ _ _ H4).
Qed.

Lemma publish_mesh_adds (P : event -> Prop) (H : host) (item : Item) (node : string) :
  top_level_mesh H node ->
  property item "object" = Ok node ->
  P (EnsureFolderExists
       (dirname H match property item "path" with Ok p => p | Raise _ => "" end)) ->
  (forall path, never_returns (publish_mesh_round H node path node)) ->
  (forall path meshes, adds P (publish_mesh_round H node path meshes)) ->
  adds P (publish_mesh H item).
Proof.
  intros Htop Hnode Hfolder Hnever Hround.
  pose proof Htop as (Hassemblies & _ & _).
  unfold publish_mesh, mbind, mret, M_bind, M_ret. cbv beta zeta.
  apply adds_bind_lift. intros path Hpath. rewrite Hpath in Hfolder.
  apply adds_bind; [now apply adds_call |]. intros u.
  apply adds_bind_lift. intros mesh_object Hobject.
  rewrite Hnode in Hobject. injection Hobject as <-.
  apply adds_bind_ask. intros assemblies (h0 & Hl).
  destruct (Hassemblies h0) as (l & Hl' & Hin).
  rewrite Hl in Hl'. injection Hl' as <-.
  apply adds_bind_never.
  - now apply publish_mesh_loop_never.
  - apply adds_for_until. intros meshes. apply Hround.
Qed.

Lemma publish_mesh_round_plain (H : host) (node path : string) :
  plain node ->
  (forall h0, is_referenced H h0 node <> Ok true) ->
  (forall h0, ls_dag_mesh H h0 node <> Ok []) ->
  never_returns (publish_mesh_round H node path node) /\
  (forall meshes, adds bystander (publish_mesh_round H node path meshes)).
Proof.
  intros Hplain Hnoref Hmeshes. split.
  - intros h b h' Hrun.
    unfold publish_mesh_round, mbind, mret, M_bind, M_ret in Hrun.
    cbv beta zeta in Hrun.
    inv_bind Hrun dag h1 H1. inv_ask H1 Hdag.
    destruct dag as [|shape dag]; [now apply Hmeshes in Hdag |].
    rewrite String.eqb_refl in Hrun.
    inv_bind Hrun lo h1 H1. inv_bind Hrun first_frame h2 H2.
    inv_bind Hrun hi h3 H3. inv_bind Hrun last_frame h4 H4.
    inv_bind Hrun u h5 H5.
    inv_bind Hrun referenced h6 H6. inv_ask H6 Href.
    destruct referenced; [now apply Hnoref in Href |]. cbn [negb] in Hrun.
    inv_bind Hrun naming h7 H7. inv_lift H7 Hnaming.
    rewrite (first_naming_plain node Hplain) in Hnaming. discriminate.
  - intros meshes.
    unfold publish_mesh_round, mbind, mret, M_bind, M_ret. cbv beta zeta.
    apply adds_bind; [apply adds_ask |]. intros [|shape dag]; [apply adds_ret |].
    destruct (String.eqb_spec node meshes) as [<- | _]; [| apply adds_ret].
    apply adds_bind; [apply adds_ask |]. intros lo.
    apply adds_bind; [apply adds_lift |]. intros first_frame.
    apply adds_bind; [apply adds_ask |]. intros hi.
    apply adds_bind; [apply adds_lift |]. intros last_frame.
    apply adds_bind; [apply stamp_start_frame_adds |]. intros u.
    apply adds_bind_ask. intros [|] [h Ha]; [now apply Hnoref in Ha |].
    cbn [negb]. rewrite (first_naming_plain node Hplain).
    apply adds_bind_lift. discriminate.
Qed.

(** X20: a node that is not referenced and whose name holds none of the
    seven naming conventions cannot be published, although [validate] only
    warns about such a name.  [publish] of the camera plugin, and [publish]
    of the mesh plugin for a top-level node that holds meshes, raise: they
    never return, and they issue no rename, no export and no hand-off to the
    base plugin. *)
Theorem publish_unconventional_name_fails :
  forall (H : host) (item : Item) (node : string) (h h' : list event)
         (r : result Item),
    plain node ->
    (forall h0, is_referenced H h0 node <> Ok true) ->
    (property item "camera_name" = Ok node /\ publish_camera H item h = (r, h')) \/
    (property item "object" = Ok node /\ top_level_mesh H node /\
     publish_mesh H item h = (r, h')) ->
    (exists e, r = Raise e) /\
    exists evs, h' = (h ++ evs)%list /\ Forall bystander evs.
Proof.
  intros H item node h h' r Hplain Hnoref [(Hnode & Hrun) | (Hnode & Htop & Hrun)].
  - destruct (publish_camera_plain H item node Hplain Hnoref Hnode) as (Hnever & Hadds).
    split; [| exact (Hadds _ _ _ Hrun)].
    destruct r as [item'|e]; [now apply Hnever in Hrun | now exists e].
  - pose proof Htop as (_ & _ & Hmeshes).
    assert (Hround : forall path,
               never_returns (publish_mesh_round H node path node) /\
               (forall meshes, adds bystander (publish_mesh_round H node path meshes)))
      by (intros path; now apply publish_mesh_round_plain).
    split.
    + destruct r as [item'|e]; [| now exists e].
      exfalso. revert Hrun. apply publish_mesh_never with (node := node); try assumption.
      intros path. apply Hround.
    + revert Hrun. generalize h r h'.
      change (adds bystander (publish_mesh H item)).
      apply publish_mesh_adds with (node := node); try assumption.
      * exact I.
      * intros path. apply Hround.
      * intros path meshes. apply Hround.
Qed.

(** A scene like that of [edge_host] whose top-level nodes are [assemblies]. *)
Definition host_with_assemblies (H : host) (assemblies : list string) : host := {|
  re_search := re_search H;
  shotgun_find := shotgun_find H;
  session_path := session_path H;
  normalize := normalize H;
  basename := basename H;
  dirname := dirname H;
  path_sep := path_sep H;
  str_float := str_float H;
  select := select H;
  select_list := select_list H;
  listRelatives_shapes := listRelatives_shapes H;
  listRelatives_shapes_mesh := listRelatives_shapes_mesh H;
  listRelatives_ad := listRelatives_ad H;
  listRelatives_ad_fullPath := listRelatives_ad_fullPath H;
  listRelatives_parent := listRelatives_parent H;
  ls := ls H;
  ls_selection := ls_selection H;
  ls_assemblies := fun _ => Ok assemblies;
  ls_dag_mesh := ls_dag_mesh H;
  get_fields := get_fields H;
  missing_keys := missing_keys H;
  apply_fields := apply_fields H;
  base_validate := base_validate H;
  base_publish := base_publish H;
  ensure_folder_exists := ensure_folder_exists H;
  playback_min := playback_min H;
  playback_max := playback_max H;
  attribute_exists := attribute_exists H;
  addAttr := addAttr H;
  setAttr := setAttr H;
  is_referenced := is_referenced H;
  rename := rename H;
  mel_eval := mel_eval H
|}.

Lemma plain_rock : plain "rock".
Proof.
  intros naming Hin. cbn in Hin.
  repeat (destruct Hin as [<- | Hin]; [reflexivity |]). destruct Hin.
Qed.

Lemma publish_unconventional_name_fails_witness :
  publish_camera (edge_host [] false false false true true)
    (example_item "camera_name" "rock") [] =
    (Raise IndexError,
     [EnsureFolderExists "/proj/publish";
      AddAttr "rock" "abc_start_frame" "float";
      SetAttr "rock.abc_start_frame" (VFloat (float_of_int 1001))]) /\
  (exists e, fst (publish_mesh
                    (host_with_assemblies (edge_host [] false false false true true)
                       ["rock"])
                    (example_item "object" "rock") []) = Raise e) /\
  (exists evs,
     snd (publish_mesh
            (host_with_assemblies (edge_host [] false false false true true) ["rock"])
            (example_item "object" "rock") []) = ([] ++ evs)%list /\
     Forall bystander evs).
Proof.
  split; [vm_compute; reflexivity |].
  apply (publish_unconventional_name_fails
           (host_with_assemblies (edge_host [] false false false true true) ["rock"])
           (example_item "object" "rock") "rock" []).
  - exact plain_rock.
  - intros h0. discriminate.
  - right. split; [reflexivity |]. split.
    + repeat split.
      * intros h0. exists ["rock"]. split; [reflexivity | now left].
      * intros h0 meshes. now eexists.
      * intros h0. discriminate.
    + apply surjective_pairing.
Defined.

(** *** A rename that the host refuses *)

(** Events other than an export and the hand-off to the base plugin. *)
Definition unexported (e : event) : Prop :=
  match e with
  | MelEval _ | BasePublish _ => False
  | _ => True
  end.

Lemma bystander_unexported (e : event) : bystander e -> unexported e.
Proof. now destruct e. Qed.

Lemma stamp_start_frame_unexported (H : host) (node : string) (v : pyval) :
  adds unexported (stamp_start_frame H node v).
Proof.
  eapply adds_weaken; [apply bystander_unexported | apply stamp_start_frame_adds].
Qed.

(** The host refuses every rename. *)
Definition refuses_rename (H : host) : Prop :=
  forall h old new given, rename H h old new <> Ok given.

(** The export block of the camera plugin for a node that is not referenced
    ends in the handler when the rename is refused. *)
Lemma camera_export_refused (H : host) (node path : string) (lo hi : float)
    (h h' : list event) (r : result bool) :
  refuses_rename H ->
  (naming ← lift (first_naming node);
   stripped ← lift (py_split_last naming node);
   try_except
     (call (Rename node stripped) (fun h => rename H h node stripped);;
      let cmd := abc_export_cmd H lo hi stripped path in
      emit (Log "info" ("Executing command: " ++ cmd));;
      call (MelEval cmd) (fun h => mel_eval H h cmd);;
      call (Rename stripped node) (fun h => rename H h stripped node);;
      mret true)
     (fun e => emit (Log "error" ("Failed to export camera: " ++ exn_text e));;
              mret false)) h = (r, h') ->
  (r = Raise IndexError \/ r = Raise ValueError) /\ h' = h \/
  exists stripped e,
    r = Ok false /\
    h' = (h ++ [Rename node stripped;
                Log "error" ("Failed to export camera: " ++ exn_text e)])%list.
Proof.
  intros Hrefuse. unfold mbind, mret, M_bind, M_ret. cbv beta zeta.
  unfold bind at 1, lift at 1. unfold first_naming.
  destruct (List.filter _ namings) as [|naming l].
  { intros [= <- <-]. left. split; [now left | reflexivity]. }
  unfold bind at 1, lift at 1. unfold py_split_last.
  destruct (split_last naming node) as [stripped|].
  2: { intros [= <- <-]. left. split; [now right | reflexivity]. }
  unfold try_except, bind at 1, call at 1.
  destruct (rename H h node stripped) as [given|e] eqn:Hrename;
    [now apply Hrefuse in Hrename |].
  unfold bind, emit, ret. intros [= <- <-].
  right. exists stripped, e. split; [reflexivity |].
  now rewrite <- List.app_assoc.
Qed.

Lemma publish_camera_refused (H : host) (item : Item) (node : string)
    (h h' : list event) (r : result Item) :
  refuses_rename H ->
  (forall h0, is_referenced H h0 node <> Ok true) ->
  property item "camera_name" = Ok node ->
  publish_camera H item h = (r, h') ->
  exists evs,
    h' = (h ++ evs)%list /\ Forall unexported evs /\
    (forall item', r = Ok item' ->
       item' = item /\
       exists e, last evs = Some (Log "error" ("Failed to export camera: " ++
                                               exn_text e))).
Proof.
  intros Hrefuse Hnoref Hnode Hrun.
  unfold publish_camera, mbind, mret, M_bind, M_ret in Hrun. cbv beta zeta in Hrun.
  unfold bind at 1, ask at 1 in Hrun.
  destruct (ls_selection H h) as [sel|e0].
  2: { injection Hrun as <- <-. exists []. rewrite List.app_nil_r.
       split; [reflexivity |]. split; [constructor | discriminate]. }
  unfold bind at 1, lift at 1 in Hrun. rewrite Hnode in Hrun.
  unfold bind at 1, lift at 1 in Hrun.
  destruct (property item "publish_path") as [path|e0].
  2: { injection Hrun as <- <-. exists []. rewrite List.app_nil_r.
       split; [reflexivity |]. split; [constructor | discriminate]. }
  unfold bind at 1, call at 1 in Hrun.
  destruct (ensure_folder_exists H h (dirname H path)) as [[]|e0].
  2: { injection Hrun as <- <-. exists [EnsureFolderExists (dirname H path)].
       split; [reflexivity |]. split; [now repeat constructor | discriminate]. }
  unfold bind at 1, ask at 1 in Hrun.
  destruct (playback_min H _) as [lo|e0].
  2: { injection Hrun as <- <-. exists [EnsureFolderExists (dirname H path)].
       split; [reflexivity |]. split; [now repeat constructor | discriminate]. }
  unfold bind at 1, ask at 1 in Hrun.
  destruct (playback_max H _) as [hi|e0].
  2: { injection Hrun as <- <-. exists [EnsureFolderExists (dirname H path)].
       split; [reflexivity |]. split; [now repeat constructor | discriminate]. }
  unfold bind at 1 in Hrun.
  destruct (stamp_start_frame H node (VFloat lo) _) as [[[]|e0] h1] eqn:Hstamp;
    destruct (stamp_start_frame_unexported H node (VFloat lo) _ _ _ Hstamp)
      as (stamps & -> & Hstamps).
  2: { injection Hrun as <- <-.
       exists ([EnsureFolderExists (dirname H path)] ++ stamps)%list.
       rewrite List.app_assoc. split; [reflexivity |]. split; [| discriminate].
       constructor; [exact I | exact Hstamps]. }
  unfold bind at 1, ask at 1 in Hrun.
  destruct (is_referenced H _ node) as [[|]|e0] eqn:Href.
  { now apply Hnoref in Href. }
  2: { injection Hrun as <- <-.
       exists ([EnsureFolderExists (dirname H path)] ++ stamps)%list.
       rewrite List.app_assoc. split; [reflexivity |]. split; [| discriminate].
       constructor; [exact I | exact Hstamps]. }
  cbn [negb] in Hrun. unfold bind at 1 in Hrun.
  match type of Hrun with
  | (let (r0, h0) := ?m ?h0' in _) = _ =>
      destruct (m h0') as [exported h2] eqn:Hexport
  end.
  apply (camera_export_refused H node path lo hi _ _ _ Hrefuse) in Hexport.
  destruct Hexport as [([-> | ->] & ->) | (stripped & e & -> & ->)].
  - injection Hrun as <- <-.
    exists ([EnsureFolderExists (dirname H path)] ++ stamps)%list.
    rewrite List.app_assoc. split; [reflexivity |]. split; [| discriminate].
    constructor; [exact I | exact Hstamps].
  - injection Hrun as <- <-.
    exists ([EnsureFolderExists (dirname H path)] ++ stamps)%list.
    rewrite List.app_assoc. split; [reflexivity |]. split; [| discriminate].
    constructor; [exact I | exact Hstamps].
  - unfold ret in Hrun. injection Hrun as <- <-.
    exists (([EnsureFolderExists (dirname H path)] ++ stamps) ++
            [Rename node stripped;
             Log "error" ("Failed to export camera: " ++ exn_text e)])%list.
    split; [now rewrite !List.app_assoc |]. split.
    + apply Forall_app. split; [| now repeat constructor].
      constructor; [exact I | exact Hstamps].
    + intros item' [= <-]. split; [reflexivity |]. exists e.
      change [Rename node stripped;
              Log "error" ("Failed to export camera: " ++ exn_text e)]
        with ([Rename node stripped] ++
              [Log "error" ("Failed to export camera: " ++ exn_text e)])%list.
      rewrite List.app_assoc. apply last_snoc.
Qed.

Lemma publish_mesh_round_refused (H : host) (node path : string) :
  refuses_rename H ->
  (forall h0, is_referenced H h0 node <> Ok true) ->
  (forall h0, ls_dag_mesh H h0 node <> Ok []) ->
  never_returns (publish_mesh_round H node path node) /\
  (forall meshes, adds unexported (publish_mesh_round H node path meshes)).
Proof.
  intros Hrefuse Hnoref Hmeshes. split.
  - intros h b h' Hrun.
    unfold publish_mesh_round, mbind, mret, M_bind, M_ret in Hrun.
    cbv beta zeta in Hrun.
    inv_bind Hrun dag h1 H1. inv_ask H1 Hdag.
    destruct dag as [|shape dag]; [now apply Hmeshes in Hdag |].
    rewrite String.eqb_refl in Hrun.
    inv_bind Hrun lo h1 H1. inv_bind Hrun first_frame h2 H2.
    inv_bind Hrun hi h3 H3. inv_bind Hrun last_frame h4 H4.
    inv_bind Hrun u h5 H5.
    inv_bind Hrun referenced h6 H6. inv_ask H6 Href.
    destruct referenced; [now apply Hnoref in Href |]. cbn [negb] in Hrun.
    inv_bind Hrun naming h7 H7. inv_bind Hrun stripped h8 H8.
    inv_bind Hrun given h9 H9. inv_call H9 Hrename.
    now apply Hrefuse in Hrename.
  - intros meshes.
    unfold publish_mesh_round, mbind, mret, M_bind, M_ret. cbv beta zeta.
    apply adds_bind; [apply adds_ask |]. intros [|shape dag]; [apply adds_ret |].
    destruct (String.eqb_spec node meshes) as [<- | _]; [| apply adds_ret].
    apply adds_bind; [apply adds_ask |]. intros lo.
    apply adds_bind; [apply adds_lift |]. intros first_frame.
    apply adds_bind; [apply adds_ask |]. intros hi.
    apply adds_bind; [apply adds_lift |]. intros last_frame.
    apply adds_bind; [apply stamp_start_frame_unexported |]. intros u.
    apply adds_bind_ask. intros [|] [h Ha]; [now apply Hnoref in Ha |].
    cbn [negb].
    apply adds_bind; [apply adds_lift |]. intros naming.
    apply adds_bind; [apply adds_lift |]. intros stripped.
    apply adds_bind_call; [exact I |].
    intros given (h0 & Hrename). now apply Hrefuse in Hrename.
Qed.

(** X21: when Maya refuses to rename the node, the two plugins part ways.
    In both, nothing is exported and the base plugin is not called.  The
    camera plugin renames inside its [try]: a [publish] that returns gives
    back the item as it was, its last act being the error line of the failed
    export.  The mesh plugin renames before its [try]: for a top-level node
    that holds meshes, [publish] raises. *)
Theorem publish_rename_refused :
  forall (H : host) (item : Item) (node : string) (h h' : list event)
         (r : result Item),
    refuses_rename H ->
    (forall h0, is_referenced H h0 node <> Ok true) ->
    (property item "camera_name" = Ok node ->
     publish_camera H item h = (r, h') ->
     exists evs,
       h' = (h ++ evs)%list /\ Forall unexported evs /\
       (forall item', r = Ok item' ->
          item' = item /\
          exists e, last evs = Some (Log "error" ("Failed to export camera: " ++
                                                  exn_text e)))) /\
    (property item "object" = Ok node ->
     top_level_mesh H node ->
     publish_mesh H item h = (r, h') ->
     (exists e, r = Raise e) /\
     exists evs, h' = (h ++ evs)%list /\ Forall unexported evs).
Proof.
  intros H item node h h' r Hrefuse Hnoref. split.
  - intros Hnode Hrun.
    exact (publish_camera_refused H item node h h' r Hrefuse Hnoref Hnode Hrun).
  - intros Hnode Htop Hrun.
    pose proof Htop as (_ & _ & Hmeshes).
    assert (Hround : forall path,
               never_returns (publish_mesh_round H node path node) /\
               (forall meshes, adds unexported (publish_mesh_round H node path meshes)))
      by (intros path; now apply publish_mesh_round_refused).
    split.
    + destruct r as [item'|e]; [| now exists e].
      exfalso. revert Hrun. apply publish_mesh_never with (node := node); try assumption.
      intros path. apply Hround.
    + revert Hrun. generalize h r h'.
      change (adds unexported (publish_mesh H item)).
      apply publish_mesh_adds with (node := node); try assumption.
      * exact I.
      * intros path. apply Hround.
      * intros path meshes. apply Hround.
Qed.

Lemma publish_rename_refused_witness :
  (exists evs,
     [EnsureFolderExists "/proj/publish";
      AddAttr "fxgeo_rock" "abc_start_frame" "float";
      SetAttr "fxgeo_rock.abc_start_frame" (VFloat (float_of_int 1001));
      Rename "fxgeo_rock" "rock";
      Log "error" "Failed to export camera: rename failed"] = ([] ++ evs)%list /\
     Forall unexported evs /\
     (forall item',
        Ok (example_item "camera_name" "fxgeo_rock") = Ok item' ->
        item' = example_item "camera_name" "fxgeo_rock" /\
        exists e, last evs = Some (Log "error" ("Failed to export camera: " ++
                                                exn_text e)))) /\
  ((exists e, fst (publish_mesh (edge_host [] false false false false true)
                     (example_item "object" "fxgeo_rock") []) = Raise e) /\
   exists evs,
     snd (publish_mesh (edge_host [] false false false false true)
            (example_item "object" "fxgeo_rock") []) = ([] ++ evs)%list /\
     Forall unexported evs).
Proof.
  assert (Hrefuse : refuses_rename (edge_host [] false false false false true))
    by (intros h old new given; discriminate).
  split.
  - apply (proj1 (publish_rename_refused (edge_host [] false false false false true)
                    (example_item "camera_name" "fxgeo_rock") "fxgeo_rock" [] _ _
                    Hrefuse (fun _ => ltac:(discriminate))));
      [reflexivity | vm_compute; reflexivity].
  - apply (proj2 (publish_rename_refused (edge_host [] false false false false true)
                    (example_item "object" "fxgeo_rock") "fxgeo_rock" [] _ _
                    Hrefuse (fun _ => ltac:(discriminate)))).
    + reflexivity.
    + repeat split.
      * intros h0. exists ["fxgeo_rock"; "persp"]. split; [reflexivity | now left].
      * intros h0 meshes. now eexists.
      * intros h0. discriminate.
    + apply surjective_pairing.
Defined.

End PublishFailFacts.

(** ** The namespace manager when the scene does not cooperate *)

Module NamespaceEdgeFacts.
Import PyStr NamespaceManager NamespaceFacts.

#[local] Arguments String.append !s1 s2 : simpl nomatch.

(** A loop stops at the first round that raises; the rounds before it have
    been carried out. *)
Lemma for_each_stops {E X} (before after : list X) (x : X) (body : X -> M E unit)
    (evs : X -> list E) (e : exn) (last_evs : list E) :
  (forall y h, In y before -> body y h = (Ok tt, (h ++ evs y)%list)) ->
  (forall h, body x h = (Raise e, (h ++ last_evs)%list)) ->
  forall h,
    for_each (before ++ x :: after) body h =
      (Raise e, (h ++ flat_map evs before ++ last_evs)%list).
Proof.
  intros Hbefore Hx. induction before as [|y before IH]; intros h.
  - cbn [app for_each flat_map]. unfold bind. now rewrite Hx.
  - cbn [app for_each flat_map]. unfold bind.
    rewrite (Hbefore y h (or_introl eq_refl)).
    rewrite IH by (intros; apply Hbefore; now right).
    now rewrite <- !List.app_assoc.
Qed.

(** X22: the tool stops at the first selected node it cannot treat, and
    leaves the window open.  With a convention, a text and [Only Selected
    Nodes], when a selected node has no reference ([referenceQuery] raises)
    or Maya refuses the new namespace for its file, the references of the
    nodes selected before it have got the namespace, those of the nodes after
    it have not, the exception goes to the caller and the window is not
    closed. *)
Theorem process_naming_convention_stops_midway :
  forall (H : host) (self : window) (h : list event)
         (before after : list string) (node : string)
         (reference_of : string -> string) (e : exn),
    naming_convention self <> "" -> namespace_user_text self <> "" ->
    apply_option self = "Only Selected Nodes" ->
    ls_selection H h = Ok (before ++ node :: after)%list ->
    (forall h1 n, In n before ->
       referenceQuery_filename H h1 n = Ok (reference_of n) /\
       file_edit_namespace H h1 (reference_of n)
         (naming_convention self ++ "_" ++ namespace_user_text self) = Ok tt) ->
    ((forall h1, referenceQuery_filename H h1 node = Raise e) ->
     process_naming_convention H self h =
       (Raise e,
        (h ++ map (fun n => FileEditNamespace (reference_of n)
                     (naming_convention self ++ "_" ++ namespace_user_text self))
                  before)%list)) /\
    ((forall h1, referenceQuery_filename H h1 node = Ok (reference_of node)) ->
     (forall h1, file_edit_namespace H h1 (reference_of node)
                   (naming_convention self ++ "_" ++ namespace_user_text self) =
                 Raise e) ->
     process_naming_convention H self h =
       (Raise e,
        (h ++ map (fun n => FileEditNamespace (reference_of n)
                     (naming_convention self ++ "_" ++ namespace_user_text self))
                  (before ++ [node]))%list)).
Proof.
  intros H self h before after node reference_of e Hn Ht Ha Hsel Hbefore.
  assert (Hao : apply_option self <> "") by (rewrite Ha; discriminate).
  set (name := naming_convention self ++ "_" ++ namespace_user_text self) in *.
  assert (Hrounds : forall n h0, In n before ->
            (file_reference ← ask (fun h => referenceQuery_filename H h n);
             call (FileEditNamespace file_reference name)
                  (fun h => file_edit_namespace H h file_reference name)) h0 =
            (Ok tt, (h0 ++ [FileEditNamespace (reference_of n) name])%list)).
  { intros n h0 Hin. unfold mbind, M_bind, bind, ask, call.
    now destruct (Hbefore h0 n Hin) as (-> & ->). }
  split.
  - intros Hquery.
    unfold process_naming_convention, mbind, M_bind. cbv beta.
    rewrite (OffsetFacts.bind_ok _ _ _ _ _ (proj2 (validate_spec self h) Hn Hao Ht)).
    rewrite Ha. cbn [String.eqb Ascii.eqb Bool.eqb]. fold name.
    unfold bind at 1. unfold bind at 1, ask at 1. rewrite Hsel.
    rewrite (for_each_stops before after node _
               (fun n => [FileEditNamespace (reference_of n) name]) e []).
    + rewrite (flat_map_single (fun n => FileEditNamespace (reference_of n) name)).
      now rewrite List.app_nil_r.
    + exact Hrounds.
    + intros h0. unfold bind, ask. rewrite Hquery. now rewrite List.app_nil_r.
  - intros Hquery Hedit.
    unfold process_naming_convention, mbind, M_bind. cbv beta.
    rewrite (OffsetFacts.bind_ok _ _ _ _ _ (proj2 (validate_spec self h) Hn Hao Ht)).
    rewrite Ha. cbn [String.eqb Ascii.eqb Bool.eqb]. fold name.
    unfold bind at 1. unfold bind at 1, ask at 1. rewrite Hsel.
    rewrite (for_each_stops before after node _
               (fun n => [FileEditNamespace (reference_of n) name]) e
               [FileEditNamespace (reference_of node) name]).
    + rewrite (flat_map_single (fun n => FileEditNamespace (reference_of n) name)).
      now rewrite List.map_app.
    + exact Hrounds.
    + intros h0. unfold bind, ask, call. now rewrite Hquery, Hedit.
Qed.

(** A selection whose second node is a locator without a reference. *)
Definition stubborn_host : host := {|
  ls_selection := fun _ => Ok ["old:rock"; "locator1"; "old:tree"];
  referenceQuery_filename := fun _ node =>
    if String.eqb node "locator1" then Raise (HostError "not a referenced node")
    else Ok "/proj/rock.abc";
  file_list := fun _ => Ok ["/proj/scene.ma"; "/proj/rock.abc"];
  file_edit_namespace := fun _ _ _ => Ok tt
|}.

Lemma process_naming_convention_stops_midway_witness :
  process_naming_convention stubborn_host
    {| naming_convention := "fxgeo"; apply_option := "Only Selected Nodes";
       namespace_user_text := "rock" |} [] =
    (Raise (HostError "not a referenced node"),
     ([] ++ map (fun n => FileEditNamespace ((fun _ => "/proj/rock.abc") n)
                   ("fxgeo" ++ "_" ++ "rock")) ["old:rock"])%list).
Proof.
  apply (proj1 (process_naming_convention_stops_midway stubborn_host
                  {| naming_convention := "fxgeo";
                     apply_option := "Only Selected Nodes";
                     namespace_user_text := "rock" |} []
                  ["old:rock"] ["old:tree"] "locator1" (fun _ => "/proj/rock.abc")
                  (HostError "not a referenced node")
                  ltac:(discriminate) ltac:(discriminate) eq_refl eq_refl
                  (fun h1 n Hin =>
                     match Hin with
                     | or_introl Heq =>
                         eq_ind "old:rock"
                           (fun n => referenceQuery_filename stubborn_host h1 n =
                                       Ok "/proj/rock.abc" /\
                                     file_edit_namespace stubborn_host h1 "/proj/rock.abc"
                                       ("fxgeo" ++ "_" ++ "rock") = Ok tt)
                           (conj eq_refl eq_refl) n Heq
                     | or_intror Hfalse => match Hfalse with end
                     end))).
  intros h1. reflexivity.
Defined.

End NamespaceEdgeFacts.

(** ** [accept]: which items the plugins take *)

Module AcceptFacts.
Import PyStr Publish Accept PublishFacts.

#[local] Arguments String.append !s1 s2 : simpl nomatch.

(** The question [accept] of the camera plugin puts to MEL. *)
Definition abc_export_exists : string := "exists " ++ dquote ++ "AbcExport" ++ dquote.

Lemma accepted_yes :
  (<["checked" := true]> {["accepted" := true]} : gmap string bool) !! "accepted" =
    Some true.
Proof. reflexivity. Qed.

Lemma accepted_no :
  ({["accepted" := false]} : gmap string bool) !! "accepted" = Some false.
Proof. reflexivity. Qed.

(** X23: the camera plugin accepts an item exactly when the session has a
    work template, the publisher knows the publish template named in the
    settings and MEL has the [AbcExport] command.  An accepted item is
    checked, carries that publish template and no longer allows a context
    change, and nothing is logged; an item that is not accepted gets the
    verdict [accepted: False] alone and one debug line, and is left untouched
    when it is the work template that is missing. *)
Theorem accept_camera_verdict :
  forall (P : publisher) (settings : gmap string (option string))
         (it it' : accept_item) (verdict : gmap string bool) (h h' : list event),
    accept_camera P settings it h = (Ok (verdict, it'), h') ->
    let work_template := get_or_none (parent_properties (item it)) "work_template" in
    (verdict !! "accepted" = Some true <->
     truthy work_template = true /\
     exists template_name publish_template available,
       settings !! "Publish Template" = Some template_name /\
       get_template_by_name P h template_name = Ok publish_template /\
       truthy publish_template = true /\
       mel_exists P h abc_export_exists = Ok available /\
       truthy available = true) /\
    (verdict !! "accepted" = Some true ->
     verdict = <["checked" := true]> {["accepted" := true]} /\
     h' = h /\
     context_change_allowed it' = false /\
     exists publish_template,
       item it' = set_property (item it) "publish_template" publish_template /\
       truthy publish_template = true) /\
    (verdict !! "accepted" <> Some true ->
     verdict = {["accepted" := false]} /\
     (exists msg, h' = (h ++ [Log "debug" msg])%list) /\
     (truthy work_template = false -> it' = it)).
Proof.
  intros P settings it it' verdict h h' Hrun work_template.
  unfold accept_camera, mbind, mret, M_bind, M_ret in Hrun. cbv beta zeta in Hrun.
  fold work_template in Hrun. fold abc_export_exists in Hrun.
  inv_bind Hrun template_name h1 H1. inv_lift H1 Hname.
  unfold setting_value in Hname.
  destruct (settings !! "Publish Template") as [name|] eqn:Hsetting; [| discriminate].
  injection Hname as ->.
  destruct (truthy work_template) eqn:Hwork; cbn [negb] in Hrun.
  - inv_bind Hrun publish_template h1 H1. inv_ask H1 Htemplate.
    destruct (truthy publish_template) eqn:Hpublish.
    + inv_bind Hrun available h1 H1. inv_ask H1 Havailable.
      destruct (truthy available) eqn:Hmel; cbn [negb] in Hrun.
      * apply ret_inv in Hrun. destruct Hrun as (Hv & ->).
        injection Hv as -> ->.
        split; [| split].
        -- split; [| intros _; exact accepted_yes].
           intros _. split; [reflexivity |].
           now exists template_name, publish_template, available.
        -- intros _. repeat split. now exists publish_template.
        -- intros Hno. now rewrite accepted_yes in Hno.
      * inv_bind Hrun u h1 H1. apply emit_inv in H1. subst h1.
        apply ret_inv in Hrun. destruct Hrun as (Hv & ->).
        injection Hv as -> ->.
        split; [| split].
        -- split; [rewrite accepted_no; discriminate |].
           intros (_ & n & t & a & _ & _ & _ & Ha & Hta).
           rewrite Havailable in Ha. injection Ha as <-. congruence.
        -- rewrite accepted_no. discriminate.
        -- intros _. split; [reflexivity |]. split; [now eexists | discriminate].
    + inv_bind Hrun u h1 H1. apply emit_inv in H1. subst h1.
      apply ret_inv in Hrun. destruct Hrun as (Hv & ->).
      injection Hv as -> ->.
      split; [| split].
      * split; [rewrite accepted_no; discriminate |].
        intros (_ & n & t & a & Hn & Ht & Htt & _).
        injection Hn as <-. rewrite Htemplate in Ht. injection Ht as <-. congruence.
      * rewrite accepted_no. discriminate.
      * intros _. split; [reflexivity |]. split; [now eexists | discriminate].
  - inv_bind Hrun u h1 H1. apply emit_inv in H1. subst h1.
    apply ret_inv in Hrun. destruct Hrun as (Hv & ->).
    injection Hv as -> ->.
    split; [| split].
    + split; [rewrite accepted_no; discriminate |]. intros (Hw & _). discriminate.
    + rewrite accepted_no. discriminate.
    + intros _. split; [reflexivity |]. split; [now eexists | reflexivity].
Qed.

(** A session with a work template, a publisher that knows one template and
    a Maya with or without the Alembic plug-in. *)
Definition example_publisher (abc_loaded : bool) : publisher := {|
  get_template_by_name := fun _ name =>
    Ok (match name with
        | Some "maya_asset_publish" => VObj "maya_asset_publish"
        | _ => VNone
        end);
  mel_exists := fun _ _ => Ok (VInt (if abc_loaded then 1 else 0))
|}.

Definition example_settings : gmap string (option string) :=
  {[ "Publish Template" := Some "maya_asset_publish" ]}.

Definition example_accept_item : accept_item :=
  {| item := {| properties := {[ "camera_name" := VStr "fxgeo_shotcam" ]};
                context_task := "layout";
                parent_properties := {[ "work_template" := VObj "maya_asset_work" ]} |};
     context_change_allowed := true |}.

Lemma accept_camera_verdict_witness :
  accept_camera (example_publisher true) example_settings example_accept_item [] =
    (Ok (<["checked" := true]> {["accepted" := true]},
         {| item := set_property (item example_accept_item) "publish_template"
                      (VObj "maya_asset_publish");
            context_change_allowed := false |}), []) /\
  (<["checked" := true]> {["accepted" := true]} : gmap string bool) !! "accepted" =
    Some true /\
  (({["accepted" := false]} : gmap string bool) !! "accepted" <> Some true ->
   ({["accepted" := false]} : gmap string bool) = {["accepted" := false]} /\
   (exists msg,
      [Log "debug"
         ("Item not accepted because fbx export command 'FBXExport' " ++
          "is not available. Perhaps the plugin is not enabled?")] =
      ([] ++ [Log "debug" msg])%list) /\
   (truthy (get_or_none (parent_properties (item example_accept_item))
              "work_template") = false ->
    {| item := set_property (item example_accept_item) "publish_template"
                 (VObj "maya_asset_publish");
       context_change_allowed := false |} = example_accept_item)).
Proof.
  split; [vm_compute; reflexivity |].
  split; [reflexivity |].
  apply (accept_camera_verdict (example_publisher false) example_settings
           example_accept_item _ _ [] _).
  vm_compute. reflexivity.
Defined.

(** X24: the mesh plugin tags every item it is shown, accepted or not.
    Whenever its [accept] returns, the verdict is checked, the item carries
    under [publish_template] whatever the publisher answered for the name in
    the settings, be it [None], and no longer allows a context change; the
    item is accepted exactly when the work template and that answer are
    both true.  MEL is not asked whether [AbcExport] exists. *)
Theorem accept_mesh_always_tags :
  forall (P : publisher) (settings : gmap string (option string))
         (it it' : accept_item) (verdict : gmap string bool) (h h' : list event),
    accept_mesh P settings it h = (Ok (verdict, it'), h') ->
    exists template_name publish_template h0,
      settings !! "Publish Template" = Some template_name /\
      get_template_by_name P h0 template_name = Ok publish_template /\
      verdict =
        <["checked" := true]>
          {["accepted" :=
              truthy (get_or_none (parent_properties (item it)) "work_template") &&
              truthy publish_template]} /\
      item it' = set_property (item it) "publish_template" publish_template /\
      context_change_allowed it' = false.
Proof.
  intros P settings it it' verdict h h' Hrun.
  unfold accept_mesh, mbind, mret, M_bind, M_ret in Hrun. cbv beta zeta in Hrun.
  inv_bind Hrun template_name h1 H1. inv_lift H1 Hname.
  unfold setting_value in Hname.
  destruct (settings !! "Publish Template") as [name|] eqn:Hsetting; [| discriminate].
  injection Hname as ->.
  inv_bind Hrun accepted1 h1 H1.
  assert (Haccepted1 :
            accepted1 =
            truthy (get_or_none (parent_properties (item it)) "work_template")).
  { destruct (truthy _); cbn [negb] in H1.
    - apply ret_inv in H1. tauto.
    - inv_bind H1 u h2 H2. apply ret_inv in H1. tauto. }
  inv_bind Hrun publish_template h2 H2. inv_ask H2 Htemplate.
  inv_bind Hrun u h3 H3.
  inv_bind Hrun accepted2 h4 H4.
  assert (Haccepted2 : accepted2 = accepted1 && truthy publish_template).
  { destruct (truthy publish_template); cbn [negb] in H4.
    - apply ret_inv in H4. destruct H4 as (-> & _). now rewrite andb_true_r.
    - inv_bind H4 u' h5 H5. apply ret_inv in H4. destruct H4 as (-> & _).
      now rewrite andb_false_r. }
  apply ret_inv in Hrun. destruct Hrun as (Hv & _).
  injection Hv as -> ->.
  exists template_name, publish_template, h1.
  rewrite Haccepted2, Haccepted1. repeat split. exact Htemplate.
Qed.

Lemma accept_mesh_always_tags_witness :
  accept_mesh (example_publisher true) {[ "Publish Template" := None ]}
    example_accept_item [] =
    (Ok (<["checked" := true]> {["accepted" := false]},
         {| item := set_property (item example_accept_item) "publish_template" VNone;
            context_change_allowed := false |}),
     [Log "debug" "TEMPLATE NAME: None";
      Log "debug"
        ("A valid publish template could not be determined for the " ++
         "session geometry item. Not accepting the item.")]) /\
  exists template_name publish_template h0,
    ({[ "Publish Template" := None ]} : gmap string (option string))
      !! "Publish Template" = Some template_name /\
    get_template_by_name (example_publisher true) h0 template_name =
      Ok publish_template /\
    (<["checked" := true]> {["accepted" := false]} : gmap string bool) =
      (<["checked" := true]>
         {["accepted" :=
             truthy (get_or_none (parent_properties (item example_accept_item))
                       "work_template") &&
             truthy publish_template]}) /\
    item {| item := set_property (item example_accept_item) "publish_template" VNone;
            context_change_allowed := false |} =
      set_property (item example_accept_item) "publish_template" publish_template /\
    context_change_allowed
      {| item := set_property (item example_accept_item) "publish_template" VNone;
         context_change_allowed := false |} = false.
Proof.
  split; [vm_compute; reflexivity |].
  apply (accept_mesh_always_tags (example_publisher true)
           {[ "Publish Template" := None ]} example_accept_item _ _ []
           [Log "debug" "TEMPLATE NAME: None";
            Log "debug"
              ("A valid publish template could not be determined for the " ++
               "session geometry item. Not accepting the item.")]).
  vm_compute. reflexivity.
Defined.

End AcceptFacts.

(** ** Validation of a well-named node *)

Module ValidateCleanFacts.
Import PyStr Publish PyStrFacts NamespaceFacts NamingFacts PublishFacts
       PublishEdgeFacts.

#[local] Arguments String.append !s1 s2 : simpl nomatch.

(** The name starts with one of the naming conventions and has no underscore
    at either end. *)
Definition conventional (node : string) : Prop :=
  existsb (fun name => startswith name node) namings = true /\
  underscored node = false.

Lemma startswith_contains (p s : string) :
  startswith p s = true -> contains p s = true.
Proof. intros Hp. rewrite contains_unfold, Hp. reflexivity. Qed.

Lemma conventional_contains (node : string) :
  existsb (fun name => startswith name node) namings = true ->
  existsb (fun entities => contains entities node) namings = true.
Proof.
  intros Hex. apply existsb_exists in Hex as (naming & Hin & Hs).
  apply existsb_exists. exists naming. split; [exact Hin |].
  now apply startswith_contains.
Qed.

Lemma conventional_not_group (node : string) :
  existsb (fun name => startswith name node) namings = true ->
  existsb (fun native_names => startswith native_names node) grp_name = false.
Proof.
  intros Hex. apply existsb_exists in Hex as (naming & Hin & Hs).
  apply startswith_true in Hs as [t ->].
  cbn in Hin.
  repeat (destruct Hin as [<- | Hin]; [reflexivity |]). destruct Hin.
Qed.

Lemma endswith_app (suf pre : string) : endswith suf (pre ++ suf) = true.
Proof.
  induction pre as [|c pre IH].
  - change ("" ++ suf) with suf. destruct suf; cbn [endswith];
      now rewrite String.eqb_refl.
  - change (String c pre ++ suf) with (String c (pre ++ suf)).
    cbn [endswith]. rewrite IH. apply orb_true_r.
Qed.

Lemma conventional_not_bare (node : string) :
  underscored node = false ->
  existsb (fun native_names => String.eqb native_names node) namings = false.
Proof.
  intros Hund.
  destruct (existsb _ namings) eqn:Hex; [| reflexivity].
  apply existsb_exists in Hex as (naming & Hin & Heq).
  apply String.eqb_eq in Heq. subst node.
  cbn in Hin.
  repeat (destruct Hin as [<- | Hin]; [discriminate Hund |]). destruct Hin.
Qed.

(** Events that show nothing to the user and leave the selection alone. *)
Definition silent (e : event) : Prop :=
  match e with
  | ValidationUI _ _ | Select _ | SelectList _ => False
  | _ => True
  end.

Lemma asks_only_silent (e : event) : asks_only e -> silent e.
Proof. now destruct e. Qed.

Lemma resolve_publish_path_silent (H : host) (item : Item) (path short : string) :
  adds silent (resolve_publish_path H item path short).
Proof.
  unfold resolve_publish_path. adds_auto.
  eapply adds_weaken; [apply asks_only_silent | apply set_version_asks].
Qed.

Lemma saved_session_path_silent (H : host) : adds silent (saved_session_path H).
Proof. unfold saved_session_path. adds_auto. Qed.

(** A computation that issues nothing and can only return [a]. *)
Definition clean {A} (a : A) (m : M event A) : Prop :=
  forall h r h', m h = (r, h') -> h' = h /\ forall x, r = Ok x -> x = a.

Lemma clean_ret {A} (a : A) : clean a (ret a).
Proof. intros h r h' [= <- <-]. split; [reflexivity |]. now intros x [= <-]. Qed.

Lemma clean_raise {A} (a : A) (e : exn) : clean a (raise e).
Proof. intros h r h' [= <- <-]. split; [reflexivity | discriminate]. Qed.

Lemma clean_bind {A B} (a : A) (b : B) (m : M event A) (k : A -> M event B) :
  clean a m -> clean b (k a) -> clean b (bind m k).
Proof.
  intros Hm Hk h r h' Hrun. unfold bind in Hrun.
  destruct (m h) as [[x|e] h1] eqn:E1; destruct (Hm _ _ _ E1) as (-> & Hx).
  - rewrite (Hx x eq_refl) in Hrun. exact (Hk _ _ _ Hrun).
  - injection Hrun as <- <-. split; [reflexivity | discriminate].
Qed.

Lemma clean_ask {A B} (b : B) (f : list event -> result A) (k : A -> M event B) :
  (forall a, (exists h, f h = Ok a) -> clean b (k a)) -> clean b (bind (ask f) k).
Proof.
  intros Hk h r h' Hrun. unfold bind, ask in Hrun.
  destruct (f h) as [a|e] eqn:Ef.
  - exact (Hk a (ex_intro _ h Ef) _ _ _ Hrun).
  - injection Hrun as <- <-. split; [reflexivity | discriminate].
Qed.

Lemma clean_lift {A B} (b : B) (r : result A) (k : A -> M event B) :
  (forall a, r = Ok a -> clean b (k a)) -> clean b (bind (lift r) k).
Proof.
  intros Hk h r' h' Hrun. unfold bind, lift in Hrun.
  destruct r as [a|e].
  - exact (Hk a eq_refl _ _ _ Hrun).
  - injection Hrun as <- <-. split; [reflexivity | discriminate].
Qed.

Lemma clean_for_fold {X S} (l : list X) (body : S -> X -> M event S) (s : S) :
  (forall x, In x l -> clean s (body s x)) -> clean s (for_fold l body s).
Proof.
  induction l as [|x l IH]; intros Hbody; cbn [for_fold].
  - apply clean_ret.
  - apply clean_bind with (a := s); [apply Hbody; now left |].
    apply IH. intros y Hy. apply Hbody. now right.
Qed.

Lemma clean_adds {A} (P : event -> Prop) (a : A) (m : M event A) :
  clean a m -> adds P m.
Proof.
  intros Hm h r h' Hrun. destruct (Hm _ _ _ Hrun) as (-> & _).
  exists []. rewrite List.app_nil_r. now split.
Qed.

(** The descendants have no underscore at either end. *)
Definition tidy_descendants (H : host) (node : string) : Prop :=
  forall h descendants,
    listRelatives_ad H h node = Ok (Some descendants) ->
    forall names, In names descendants -> underscored names = false.

Lemma camera_naming_checks_clean (H : host) (cam_name : string) :
  conventional cam_name ->
  tidy_descendants H cam_name ->
  clean ∅ (camera_naming_checks H cam_name).
Proof.
  intros (Hstart & Hund) Htidy.
  unfold camera_naming_checks, mbind, mret, M_bind, M_ret. cbv beta zeta.
  rewrite (conventional_not_group _ Hstart), Hstart, Hund,
    (conventional_contains _ Hstart). cbn [negb].
  apply clean_bind with (a := ∅); [apply clean_ret |].
  apply clean_bind with (a := ∅); [apply clean_ret |].
  apply clean_bind with (a := ∅); [apply clean_ret |].
  apply clean_ask. intros shapes _.
  apply clean_bind with (a := ∅); [destruct (nothing shapes); apply clean_ret |].
  apply clean_ask. intros descendants (h0 & Hdesc).
  apply clean_lift. intros l Hl.
  destruct descendants as [ds|]; [| discriminate]. injection Hl as <-.
  apply clean_for_fold. intros names Hin.
  rewrite (Htidy h0 ds Hdesc names Hin). apply clean_ret.
Qed.

(** What the mesh plugin wants beside a conventional name: no Maya default
    name in the name of the node or at the head of a descendant's, and no
    mesh shape right under the node. *)
Definition tidy_mesh (H : host) (node : string) : Prop :=
  (forall native, In native maya_native_geo_names -> contains native node = false) /\
  (forall h shapes, listRelatives_shapes_mesh H h node = Ok shapes ->
                    nothing shapes = true) /\
  (forall h descendants,
     listRelatives_ad H h node = Ok (Some descendants) ->
     forall names native,
       In names descendants -> In native maya_native_geo_names ->
       startswith native names = false).

Lemma existsb_none {X} (f : X -> bool) (l : list X) :
  (forall x, In x l -> f x = false) -> existsb f l = false.
Proof.
  induction l as [|x l IH]; intros Hl; [reflexivity |].
  cbn [existsb]. rewrite (Hl x) by now left.
  apply IH. intros y Hy. apply Hl. now right.
Qed.

Lemma mesh_naming_checks_clean (H : host) (object_name : string) :
  conventional object_name ->
  tidy_descendants H object_name ->
  tidy_mesh H object_name ->
  clean ∅ (mesh_naming_checks H object_name).
Proof.
  intros (Hstart & Hund) Htidy (Hnative & Hshapes & Hdescendants).
  unfold mesh_naming_checks, mbind, mret, M_bind, M_ret. cbv beta zeta.
  rewrite (existsb_none (fun native_names => contains native_names object_name)
             maya_native_geo_names Hnative).
  rewrite (conventional_not_group _ Hstart), Hstart, Hund,
    (conventional_contains _ Hstart), (conventional_not_bare _ Hund). cbn [negb].
  apply clean_bind with (a := ∅); [apply clean_ret |].
  apply clean_bind with (a := ∅); [apply clean_ret |].
  apply clean_ask. intros mesh_shapes (h0 & Hmesh).
  rewrite (Hshapes h0 mesh_shapes Hmesh). cbn [negb].
  apply clean_bind with (a := ∅); [apply clean_ret |].
  apply clean_bind with (a := ∅); [apply clean_ret |].
  apply clean_ask. intros shapes _.
  apply clean_bind with (a := ∅); [destruct (nothing shapes); apply clean_ret |].
  apply clean_bind with (a := ∅); [apply clean_ret |].
  apply clean_bind with (a := ∅); [apply clean_ret |].
  apply clean_ask. intros descendants (h1 & Hdesc).
  apply clean_lift. intros l Hl.
  destruct descendants as [ds|]; [| discriminate]. injection Hl as <-.
  apply clean_for_fold. intros names Hin.
  unfold mesh_descendant_check, mbind, mret, M_bind, M_ret. cbv beta zeta.
  apply clean_bind with (a := ∅).
  - apply clean_for_fold. intros native Hnat.
    rewrite (Hdescendants h1 ds Hdesc names native Hin Hnat). apply clean_ret.
  - rewrite (Htidy h1 ds Hdesc names Hin). apply clean_ret.
Qed.

Lemma show_errors_none (title : string) : clean tt (show_errors title ∅).
Proof. unfold show_errors. rewrite bool_decide_eq_true_2 by reflexivity. apply clean_ret. Qed.

Lemma adds_bind_clean {A B} (P : event -> Prop) (a : A) (m : M event A)
    (k : A -> M event B) :
  clean a m -> adds P (k a) -> adds P (bind m k).
Proof.
  intros Hm Hk h r h' Hrun. unfold bind in Hrun.
  destruct (m h) as [[x|e] h1] eqn:E1; destruct (Hm _ _ _ E1) as (-> & Hx).
  - rewrite (Hx x eq_refl) in Hrun. exact (Hk _ _ _ Hrun).
  - injection Hrun as <- <-. exists []. rewrite List.app_nil_r. now split.
Qed.

(** X25: a well-named node passes the naming checks unnoticed.  When the
    name of the camera starts with a naming convention and has no underscore
    at either end, and no descendant has one, [validate] of the camera plugin
    shows no window and selects nothing, however it ends.  The same holds for
    [validate] of the mesh plugin when, beside that, no Maya default name
    occurs in the name of the node or starts the name of a descendant and no
    mesh shape lies right under the node. *)
Theorem validate_well_named_is_silent :
  forall (H : host) (item : Item) (node : string) (h h' : list event)
         (r : result (bool * Item)),
    conventional node ->
    tidy_descendants H node ->
    (property item "camera_name" = Ok node /\ validate_camera H item h = (r, h')) \/
    (property item "object" = Ok node /\ tidy_mesh H node /\
     validate_mesh H item h = (r, h')) ->
    exists evs, h' = (h ++ evs)%list /\ Forall silent evs.
Proof.
  intros H item node h h' r Hconv Htidy [(Hnode & Hrun) | (Hnode & Hmesh & Hrun)];
    revert Hrun; generalize h r h'.
  - change (adds silent (validate_camera H item)).
    unfold validate_camera, mbind, mret, M_bind, M_ret. cbv beta zeta.
    apply adds_bind; [apply saved_session_path_silent |]. intros path.
    apply adds_bind_lift. intros cam_name Hcam.
    rewrite Hnode in Hcam. injection Hcam as <-.
    apply adds_bind_clean with (a := ∅); [now apply camera_naming_checks_clean |].
    apply adds_bind_clean with (a := tt); [apply show_errors_none |].
    apply adds_bind; [apply adds_ask |]. intros [|x found].
    + adds_auto.
    + apply adds_bind; [apply adds_lift |]. intros short.
      apply resolve_publish_path_silent.
  - change (adds silent (validate_mesh H item)).
    unfold validate_mesh, mbind, mret, M_bind, M_ret. cbv beta zeta.
    apply adds_bind; [apply saved_session_path_silent |]. intros path.
    apply adds_bind_lift. intros object_name Hobject.
    rewrite Hnode in Hobject. injection Hobject as <-.
    apply adds_bind_clean with (a := ∅); [now apply mesh_naming_checks_clean |].
    apply adds_bind_clean with (a := tt); [apply show_errors_none |].
    apply adds_bind; [apply adds_lift |]. intros short.
    apply adds_bind; [apply adds_ask |]. intros assemblies.
    apply adds_bind; [destruct assemblies; adds_auto |]. intros u.
    apply resolve_publish_path_silent.
Qed.

Lemma conventional_rock : conventional "fxgeo_rock".
Proof. split; reflexivity. Qed.

Lemma tidy_descendants_rock :
  tidy_descendants (edge_host [] false false false true true) "fxgeo_rock".
Proof.
  intros h descendants [= <-] names [<- | []]. reflexivity.
Qed.

Lemma tidy_mesh_rock : tidy_mesh (edge_host [] false false false true true) "fxgeo_rock".
Proof.
  split; [| split].
  - intros native Hin. cbn in Hin.
    repeat (destruct Hin as [<- | Hin]; [reflexivity |]). destruct Hin.
  - intros h shapes [= <-]. reflexivity.
  - intros h descendants [= <-] names native [<- | []] Hin. cbn in Hin.
    repeat (destruct Hin as [<- | Hin]; [reflexivity |]). destruct Hin.
Qed.

Lemma validate_well_named_is_silent_witness :
  (exists evs,
     snd (validate_camera (edge_host [] false false false true true)
            (example_item "camera_name" "fxgeo_rock") []) = ([] ++ evs)%list /\
     Forall silent evs) /\
  (exists evs,
     snd (validate_mesh (edge_host [] false false false true true)
            (example_item "object" "fxgeo_rock") []) = ([] ++ evs)%list /\
     Forall silent evs).
Proof.
  split.
  - apply (validate_well_named_is_silent (edge_host [] false false false true true)
             (example_item "camera_name" "fxgeo_rock") "fxgeo_rock" [] _
             (fst (validate_camera (edge_host [] false false false true true)
                     (example_item "camera_name" "fxgeo_rock") []))
             conventional_rock tidy_descendants_rock).
    left. split; [reflexivity | apply surjective_pairing].
  - apply (validate_well_named_is_silent (edge_host [] false false false true true)
             (example_item "object" "fxgeo_rock") "fxgeo_rock" [] _
             (fst (validate_mesh (edge_host [] false false false true true)
                     (example_item "object" "fxgeo_rock") []))
             conventional_rock tidy_descendants_rock).
    right. split; [reflexivity |]. split; [exact tidy_mesh_rock |].
    apply surjective_pairing.
Defined.

(** *** A camera that has left the scene *)

(** X26: a camera that is no longer in the scene is not validated.  When
    [cmds.ls] finds nothing under the collected name, [validate] of the
    camera plugin never returns a verdict: it raises, and it asks neither
    the tracking service nor the base plugin. *)
Theorem validate_camera_gone :
  forall (H : host) (item : Item) (node : string) (h h' : list event)
         (r : result (bool * Item)),
    property item "camera_name" = Ok node ->
    (forall h0, ls H h0 node = Ok []) ->
    validate_camera H item h = (r, h') ->
    (exists e, r = Raise e) /\
    exists evs, h' = (h ++ evs)%list /\ Forall unresolved evs.
Proof.
  intros H item node h h' r Hnode Hgone Hrun. split.
  - destruct r as [[ok validated]|e]; [exfalso | now exists e].
    unfold validate_camera, mbind, mret, M_bind, M_ret in Hrun.
    inv_bind Hrun path h1 H1. inv_bind Hrun cam_name h2 H2. inv_lift H2 Hcam.
    rewrite Hnode in Hcam. injection Hcam as <-.
    inv_bind Hrun error_msg h3 H3. inv_bind Hrun u h4 H4.
    inv_bind Hrun found h5 H5. inv_ask H5 Hfound.
    rewrite Hgone in Hfound. injection Hfound as <-.
    inv_bind Hrun u' h6 H6. discriminate Hrun.
  - revert Hrun. generalize h r h'.
    change (adds unresolved (validate_camera H item)).
    unfold validate_camera, saved_session_path, show_errors, mbind, mret, M_bind, M_ret.
    cbv beta zeta.
    apply adds_bind; [adds_auto |]. intros path.
    apply adds_bind_lift. intros cam_name Hcam.
    rewrite Hnode in Hcam. injection Hcam as <-.
    apply adds_bind; [apply camera_naming_checks_unresolved |]. intros error_msg.
    apply adds_bind; [adds_auto |]. intros u.
    apply adds_bind_ask. intros found (h0 & Hfound).
    rewrite Hgone in Hfound. injection Hfound as <-.
    adds_auto.
Qed.

(** The scene of [edge_host] after the camera has been deleted. *)
Definition host_without (H : host) (gone : string) : host := {|
  re_search := re_search H;
  shotgun_find := shotgun_find H;
  session_path := session_path H;
  normalize := normalize H;
  basename := basename H;
  dirname := dirname H;
  path_sep := path_sep H;
  str_float := str_float H;
  select := select H;
  select_list := select_list H;
  listRelatives_shapes := listRelatives_shapes H;
  listRelatives_shapes_mesh := listRelatives_shapes_mesh H;
  listRelatives_ad := listRelatives_ad H;
  listRelatives_ad_fullPath := listRelatives_ad_fullPath H;
  listRelatives_parent := listRelatives_parent H;
  ls := fun h node => if String.eqb node gone then Ok [] else ls H h node;
  ls_selection := ls_selection H;
  ls_assemblies := ls_assemblies H;
  ls_dag_mesh := ls_dag_mesh H;
  get_fields := get_fields H;
  missing_keys := missing_keys H;
  apply_fields := apply_fields H;
  base_validate := base_validate H;
  base_publish := base_publish H;
  ensure_folder_exists := ensure_folder_exists H;
  playback_min := playback_min H;
  playback_max := playback_max H;
  attribute_exists := attribute_exists H;
  addAttr := addAttr H;
  setAttr := setAttr H;
  is_referenced := is_referenced H;
  rename := rename H;
  mel_eval := mel_eval H
|}.

Lemma validate_camera_gone_witness :
  validate_camera (host_without (edge_host [] false false false true true) "fxgeo_cam")
    (example_item "camera_name" "fxgeo_cam") [] =
    (Raise (Exception ("Validation failed because the collected camera (" ++
                       "fxgeo_cam" ++ ") is no longer in the scene. You can uncheck " ++
                   "this plugin or create a camera with this name to export to " ++
                   "avoid this error.")),
     [Log "error" ("Validation failed because the collected camera (" ++
                   "fxgeo_cam" ++ ") is no longer in the scene. You can uncheck " ++
                   "this plugin or create a camera with this name to export to " ++
                   "avoid this error.")]) /\
  (exists e,
     Raise (A := bool * Item)
       (Exception ("Validation failed because the collected camera (" ++
                   "fxgeo_cam" ++ ") is no longer in the scene. You can uncheck " ++
                   "this plugin or create a camera with this name to export to " ++
                   "avoid this error.")) = Raise e) /\
  exists evs,
    [Log "error" ("Validation failed because the collected camera (" ++
                  "fxgeo_cam" ++ ") is no longer in the scene. You can uncheck " ++
                   "this plugin or create a camera with this name to export to " ++
                   "avoid this error.")] = ([] ++ evs)%list /\
    Forall unresolved evs.
Proof.
  split; [vm_compute; reflexivity |].
  apply (validate_camera_gone
           (host_without (edge_host [] false false false true true) "fxgeo_cam")
           (example_item "camera_name" "fxgeo_cam") "fxgeo_cam" []).
  - reflexivity.
  - intros h0. reflexivity.
  - vm_compute. reflexivity.
Defined.

End ValidateCleanFacts.

(** ** What is written on the offset of an Alembic node *)

Module OffsetEdgeFacts.
Import PyStr NamespaceFacts Loader LoaderEdgeFacts.

#[local] Arguments String.append !s1 s2 : simpl nomatch.

(** The last comparison never leaves the placeholder. *)
Lemma select_offset_float (first_frame : Z) (start_frame r : pyval) :
  select_offset first_frame start_frame = Ok r -> exists f, r = VFloat f.
Proof.
  unfold select_offset, mbind, result_bind.
  destruct (py_float start_frame) as [b|e]; [| discriminate].
  destruct (float_eq (float_of_int first_frame) b); cbn [negb].
  - intros [= <-]. now exists b.
  - intros [= <-]. now exists (float_of_int first_frame).
Qed.

(** A number is written, not the type [float]. *)
Definition numeric (e : event) : Prop :=
  match e with
  | SetAttr _ v | PrintOffset _ v => exists f, v = VFloat f
  | _ => True
  end.

Lemma apply_offset_numeric (H : host) (file_path : string) (f : float) :
  adds numeric (apply_offset H file_path (VFloat f)).
Proof.
  unfold apply_offset, offset_round, mbind, mret, M_bind, M_ret.
  apply adds_bind; [apply adds_ask |]. intros get_ref_file.
  apply adds_for_each. intros ref_file.
  apply adds_bind; [apply adds_ask |]. intros [|full rest]; [apply adds_raise |].
  apply adds_bind; [apply adds_ask |]. intros [|]; [| apply adds_ret].
  apply adds_bind; [apply adds_emit; now exists f |]. intros _.
  apply adds_call. now exists f.
Qed.

Lemma offset_from_archive_float (H : host) (file_path : string) (first_frame : Z)
    (h h' : list event) (r : pyval) :
  offset_from_archive H file_path first_frame h = (Ok r, h') -> exists f, r = VFloat f.
Proof.
  unfold offset_from_archive, mbind, mret, M_bind, M_ret. intros Hrun.
  apply PublishFacts.bind_inv in Hrun. destruct Hrun as (archive & h1 & _ & Hrun).
  apply PublishFacts.bind_inv in Hrun. destruct Hrun as (start_frame & h2 & _ & Hrun).
  apply PublishFacts.lift_inv in Hrun. destruct Hrun as (Hselect & _).
  exact (select_offset_float _ _ _ Hselect).
Qed.

Lemma offset_from_archive_adds (P : event -> Prop) (H : host) (file_path : string)
    (first_frame : Z) :
  adds P (offset_from_archive H file_path first_frame).
Proof.
  unfold offset_from_archive, mbind, mret, M_bind, M_ret.
  apply adds_bind; [apply adds_ask |]. intros archive.
  apply adds_bind; [| intros start_frame; apply adds_lift].
  destruct (py_eq_zero _); [| apply adds_ret].
  apply adds_bind; [apply adds_lift |]. intros start_frame.
  apply adds_bind; [apply adds_lift |]. intros end_frame. apply adds_ret.
Qed.

Lemma find_atrib_adds (P : event -> Prop) (H : host) (file_path : string)
    (first_frame : Z) :
  adds P (find_atrib H file_path first_frame).
Proof.
  unfold find_atrib, mbind, mret, M_bind, M_ret.
  apply adds_bind; [apply adds_ask |]. intros nodes.
  apply NamingFacts.adds_for_fold. intros atrib node.
  apply adds_bind; [apply adds_ask |]. intros [|]; [| apply adds_ret].
  apply adds_bind; [apply adds_ask |]. intros v.
  apply adds_bind; [apply adds_lift |]. intros f.
  destruct (float_eq _ _); apply adds_ret.
Qed.

Lemma abc_block_numeric (H : host) (file_path : string) :
  adds numeric (abc_block H file_path).
Proof.
  unfold abc_block, mbind, mret, M_bind, M_ret.
  apply adds_bind; [apply adds_ask |]. intros minTime.
  apply adds_bind; [apply adds_lift |]. intros first_frame.
  apply adds_bind; [apply find_atrib_adds |]. intros [|].
  - apply adds_bind_run; [apply adds_ret |].
    intros offset (h0 & h0' & Hret). injection Hret as <- _.
    apply apply_offset_numeric.
  - apply adds_bind_run; [apply offset_from_archive_adds |].
    intros offset (h0 & h0' & Hrun).
    destruct (offset_from_archive_float _ _ _ _ _ _ Hrun) as [f ->].
    apply apply_offset_numeric.
Qed.

(** X27: the placeholder [abc_offset = float] never reaches Maya.  However
    [_create_reference] or [_do_import] ends, every value it prints for an
    offset and every value it sets on an attribute is a floating-point
    number, never the type object the variable starts with. *)
Theorem offset_written_is_a_number :
  forall (H : host) (path : string) (sg_publish_data : publish_data)
         (h h' : list event) (r : result unit),
    _create_reference H path sg_publish_data h = (r, h') \/
    _do_import H path sg_publish_data h = (r, h') ->
    exists evs, h' = (h ++ evs)%list /\ Forall numeric evs.
Proof.
  intros H path sg_publish_data h h' r [Hrun | Hrun]; revert Hrun;
    generalize h r h'.
  - change (adds numeric (_create_reference H path sg_publish_data)).
    unfold _create_reference, mbind, mret, M_bind, M_ret.
    apply adds_bind; [apply adds_ask | intros on_disk].
    destruct (negb on_disk); [apply adds_raise |].
    apply adds_bind; [apply make_namespace_adds | intros namespace].
    apply adds_bind; [apply adds_call; exact I | intros file_path].
    apply adds_bind; [apply adds_lift | intros [is_abc fp]].
    destruct is_abc; [apply abc_block_numeric | apply adds_ret].
  - change (adds numeric (_do_import H path sg_publish_data)).
    unfold _do_import, mbind, mret, M_bind, M_ret.
    apply adds_bind; [apply adds_ask | intros on_disk].
    destruct (negb on_disk); [apply adds_raise |].
    apply adds_bind; [apply make_namespace_adds | intros namespace].
    apply adds_bind; [apply adds_call; exact I | intros file_path].
    apply adds_bind; [apply adds_lift | intros [is_abc fp]].
    destruct is_abc; [apply abc_block_numeric | apply adds_ret].
Qed.

Lemma offset_written_is_a_number_witness :
  _create_reference (example_host true 1001 990) "/proj/pub_fxgeo_rock_v001.abc"
    example_publish [] =
    (Ok tt,
     [FileReference "/proj/pub_fxgeo_rock_v001.abc" "fxgeo_rock";
      PrintOffset "fxgeo_rock:abcNode" (VFloat (float_of_int 1001));
      SetAttr "fxgeo_rock:abcNode.offset" (VFloat (float_of_int 1001))]) /\
  exists evs,
    [FileReference "/proj/pub_fxgeo_rock_v001.abc" "fxgeo_rock";
     PrintOffset "fxgeo_rock:abcNode" (VFloat (float_of_int 1001));
     SetAttr "fxgeo_rock:abcNode.offset" (VFloat (float_of_int 1001))] =
      ([] ++ evs)%list /\
    Forall numeric evs.
Proof.
  split; [vm_compute; reflexivity |].
  apply (offset_written_is_a_number (example_host true 1001 990)
           "/proj/pub_fxgeo_rock_v001.abc" example_publish [] _ (Ok tt)).
  left. vm_compute. reflexivity.
Defined.

End OffsetEdgeFacts.
